(** * DNS-CPP: a shallow embedding of the wire codec, the resolv.conf reader,
      the Ip value type and the request Bits.

    The development follows the C++ sources:
      - include/dnscpp/bits.h        (module [Bits])
      - include/dnscpp/ip.h          (module [Ip])
      - src/resolvconf.cpp           (module [ResolvConf])
      - src/query.cpp                (module [Query])
      - test/lookup.cpp              (module [Lookup])

    Integers of the program are modelled as [Z], bytes as [Z] in 0..255,
    C strings as [string] whose terminating NUL is implicit, exceptions as
    a result type. *)

From Stdlib Require Import ZArith Lia Bool Ascii String List.
From stdpp Require Import base option list.

Local Open Scope Z_scope.

(* ===================================================================== *)
(** * Exceptions                                                          *)
(* ===================================================================== *)

(** A call either returns or throws [std::runtime_error(what)]. *)
Inductive result (A : Type) : Type :=
| Ok (a : A)
| Throw (what : string).

Arguments Ok {A} a.
Arguments Throw {A} what.

Definition is_ok {A : Type} (r : result A) : bool :=
  match r with Ok _ => true | Throw _ => false end.

(* ===================================================================== *)
(** * include/dnscpp/bits.h                                               *)
(* ===================================================================== *)

Module Bits.

Definition BIT_AD : Z := 1.
Definition BIT_CD : Z := 2.
Definition BIT_DO : Z := 4.

(** [int _value] *)
Record t : Type := Build { _value : Z }.

(** [void add(int value) { _value |=  value; }] *)
Definition add (value : Z) (b : t) : t := Build (Z.lor (_value b) value).

(** [void del(int value) { _value &= ~value; }] *)
Definition del (value : Z) (b : t) : t :=
  Build (Z.land (_value b) (Z.lnot value)).

(** Getters: [bool AD() const { return _value & BIT_AD; }], the
    conversion of an int to bool being "is not zero". *)
Definition AD (b : t) : bool := negb (Z.land (_value b) BIT_AD =? 0).
Definition CD (b : t) : bool := negb (Z.land (_value b) BIT_CD =? 0).
Definition DO (b : t) : bool := negb (Z.land (_value b) BIT_DO =? 0).

Definition authentic (b : t) : bool := AD b.
Definition checkingdisabled (b : t) : bool := CD b.
Definition dnssec (b : t) : bool := DO b.

(** Setters: [void AD(bool value) { value ? add(BIT_AD) : del(BIT_AD); }].
    C++ overloads the getter's name; the setters carry a [set_] prefix. *)
Definition set_AD (value : bool) (b : t) : t :=
  if value then add BIT_AD b else del BIT_AD b.
Definition set_CD (value : bool) (b : t) : t :=
  if value then add BIT_CD b else del BIT_CD b.
Definition set_DO (value : bool) (b : t) : t :=
  if value then add BIT_DO b else del BIT_DO b.

(** The three flags, for statements that range over them. *)
Inductive flag : Type := FlagAD | FlagCD | FlagDO.

Definition get (f : flag) : t -> bool :=
  match f with FlagAD => AD | FlagCD => CD | FlagDO => DO end.

Definition set (f : flag) : bool -> t -> t :=
  match f with FlagAD => set_AD | FlagCD => set_CD | FlagDO => set_DO end.

Definition bit_index (f : flag) : Z :=
  match f with FlagAD => 0 | FlagCD => 1 | FlagDO => 2 end.

Definition flag_eqb (f g : flag) : bool := bit_index f =? bit_index g.

(** A 32-bit two's complement [int]. *)
Definition is_int (v : Z) : Prop := - 2 ^ 31 <= v < 2 ^ 31.

End Bits.

(* ===================================================================== *)
(** * include/dnscpp/ip.h                                                 *)
(* ===================================================================== *)

Module Ip.

(** [uint8_t _version] and the 16 bytes of the union [_data], whose
    first four bytes are the [in_addr] and whose whole is the
    [in6_addr], both in network byte order. *)
Record t : Type := Build { _version : Z; _data : list Z }.

(** The union occupies [sizeof(struct in6_addr)] bytes. *)
Definition wf (ip : t) : Prop := length (_data ip) = 16%nat.

Definition version (ip : t) : Z := _version ip.

Definition data (ip : t) : list Z := _data ip.

(** [size()]: [sizeof(_data.ipv4)], [sizeof(_data.ipv6)] or 0. *)
Definition size (ip : t) : nat :=
  match _version ip with
  | 4 => 4%nat
  | 6 => 16%nat
  | _ => 0%nat
  end.

(** [memcmp(s1, s2, n)]: the bytes are compared as unsigned char; the
    result has the sign of the difference of the first pair that
    differs. *)
Fixpoint memcmp (s1 s2 : list Z) (n : nat) {struct n} : Z :=
  match n with
  | O => 0
  | S n' =>
      match s1, s2 with
      | x :: s1', y :: s2' => if x =? y then memcmp s1' s2' n' else x - y
      | _, _ => 0
      end
  end.

(** [int compare(const Ip &ip) const]. The first line of the method,
    [if (this == &ip) return 0], is the path of one object compared with
    itself; on equal values the lines below return 0 as well (lemma
    [compare_same] below), so the value model has no separate case. *)
Definition compare (this ip : t) : Z :=
  if negb (_version this =? _version ip)
  then _version this - _version ip
  else match _version this with
       | 4 => memcmp (_data this) (_data ip) 4
       | 6 => memcmp (_data this) (_data ip) 16
       | _ => 0
       end.

Definition op_eq (a b : t) : bool := compare a b =? 0.
Definition op_ne (a b : t) : bool := negb (compare a b =? 0).
Definition op_lt (a b : t) : bool := compare a b <? 0.
Definition op_gt (a b : t) : bool := compare a b >? 0.
Definition op_le (a b : t) : bool := compare a b <=? 0.
Definition op_ge (a b : t) : bool := compare a b >=? 0.

(** ** The order the documentation describes *)

(** The raw address: the first [size()] bytes of [data()]. *)
Definition bytes (ip : t) : list Z := take (size ip) (_data ip).

(** Lexicographic order on byte strings. *)
Fixpoint lex_lt (a b : list Z) : Prop :=
  match a, b with
  | [], [] => False
  | [], _ :: _ => True
  | _ :: _, [] => False
  | x :: a', y :: b' => x < y \/ (x = y /\ lex_lt a' b')
  end.

Definition key_lt (a b : t) : Prop :=
  _version a < _version b \/
  (_version a = _version b /\ lex_lt (bytes a) (bytes b)).

Definition key_eq (a b : t) : Prop :=
  _version a = _version b /\ bytes a = bytes b.

(** ** Constructors, assignment and the tests of special addresses *)

Local Open Scope string_scope.
Local Open Scope Z_scope.

(** [explicit Ip(size_t version = 4) : _version(version)]: the member is
    a [uint8_t], so it takes the low byte of [version]; the union is set
    to zero, and a member other than 4 and 6 makes the constructor throw. *)
Definition of_version (version : Z) : result t :=
  let v := version mod 256 in
  if (v =? 4) || (v =? 6) then Ok (Build v (replicate 16 0))
  else Throw "invalid ip version".

(** [explicit Ip(const struct in_addr *ipv4) : _version(4)] copies four
    bytes into the union and sets nothing else: [rest] stands for the
    twelve bytes that stay as the memory held them. *)
Definition of_in_addr (ipv4 rest : list Z) : t :=
  Build 4 (take 4 ipv4 ++ rest).

(** [Ip(const Ip &that)] copies version and union. *)
Definition copy (that : t) : t := Build (_version that) (_data that).

(** [Ip &operator=(const struct in_addr *ip)]: the version becomes 4, four
    bytes are copied, the other bytes of the union stay. *)
Definition assign_in_addr (ip : list Z) (this : t) : t :=
  Build 4 (take 4 ip ++ drop 4 (_data this)).

(** The number that a little-endian host reads from bytes in memory. *)
Fixpoint le_value (bytes : list Z) : Z :=
  match bytes with
  | [] => 0
  | b :: rest => b + 256 * le_value rest
  end.

(** [_data.ipv4.s_addr]: the first four bytes, read as a [uint32_t]. *)
Definition s_addr (ip : t) : Z := le_value (take 4 (_data ip)).

(** [ntohl] on a little-endian host: the four bytes in reverse order. *)
Definition ntohl (x : Z) : Z :=
  (x mod 256) * 16777216 + ((x / 256) mod 256) * 65536
  + ((x / 65536) mod 256) * 256 + (x / 16777216) mod 256.

(** Constants of <netinet/in.h>. *)
Definition INADDR_ANY : Z := 0.
Definition INADDR_LOOPBACK : Z := 2130706433.
Definition in6addr_any : list Z := replicate 16 0.
Definition in6addr_loopback : list Z := replicate 15 0 ++ [1].

(** [bool any() const] *)
Definition any (ip : t) : bool :=
  if _version ip =? 4 then s_addr ip =? INADDR_ANY
  else if _version ip =? 6 then memcmp (_data ip) in6addr_any 16 =? 0
  else false.

(** [bool loopback() const] *)
Definition loopback (ip : t) : bool :=
  if _version ip =? 4 then s_addr ip =? ntohl INADDR_LOOPBACK
  else if _version ip =? 6 then memcmp (_data ip) in6addr_loopback 16 =? 0
  else false.

(** [operator bool () const] and [bool operator! () const] *)
Definition op_bool (ip : t) : bool := negb (any ip).
Definition op_not (ip : t) : bool := any ip.

(** The union holds sixteen bytes, each an unsigned char. *)
Definition wf_bytes (ip : t) : Prop :=
  length (_data ip) = 16%nat /\ Forall (fun b => 0 <= b < 256) (_data ip).

End Ip.

(* ===================================================================== *)
(** * The C library, as far as resolvconf.cpp uses it                     *)
(* ===================================================================== *)

Module CString.

Local Open Scope string_scope.
Local Open Scope Z_scope.

(** The byte that terminates a C string. *)
Definition NUL : ascii := "000"%char.

Definition code (c : ascii) : Z := Z.of_N (N_of_ascii c).

(** [isspace] in the C locale: space, \t, \n, \v, \f, \r. *)
Definition isspace (c : ascii) : bool :=
  (code c =? 32) || ((9 <=? code c) && (code c <=? 13)).

Definition isdigit (c : ascii) : bool :=
  (48 <=? code c) && (code c <=? 57).

(** [tolower] in the C locale. *)
Definition tolower (c : ascii) : ascii :=
  if (65 <=? code c) && (code c <=? 90)
  then ascii_of_N (N_of_ascii c + 32)
  else c.

(** [s[i]]; the byte behind the last one is the terminator. *)
Fixpoint char_at (s : string) (i : nat) : ascii :=
  match s with
  | EmptyString => NUL
  | String c s' => match i with O => c | S i' => char_at s' i' end
  end.

(** [s + n]: the string seen from its [n]-th byte on. *)
Fixpoint skip (n : nat) (s : string) : string :=
  match n, s with
  | S n', String _ s' => skip n' s'
  | _, _ => s
  end.

(** [std::string(s, n)]: the first [n] bytes. *)
Fixpoint first_n (n : nat) (s : string) : string :=
  match n, s with
  | S n', String c s' => String c (first_n n' s')
  | _, _ => EmptyString
  end.

(** The C string a [const char *] denotes: the bytes before the first
    NUL (a [std::string] read from a file may hold NUL bytes). *)
Fixpoint c_str (s : string) : string :=
  match s with
  | EmptyString => EmptyString
  | String c s' => if Ascii.eqb c NUL then EmptyString else String c (c_str s')
  end.

Definition strlen (s : string) : nat := String.length (c_str s).

(** [strchr(s, c)] for a [c] other than NUL: the offset of the first
    [c] before the terminator, or the null pointer. *)
Fixpoint strchr (s : string) (c : ascii) : option nat :=
  match s with
  | EmptyString => None
  | String x s' =>
      if Ascii.eqb x c then Some O
      else if Ascii.eqb x NUL then None
      else S <$> strchr s' c
  end.

(** [strncmp(s1, s2, n)]: at most [n] bytes are compared, as unsigned
    char, and the comparison ends behind a NUL. *)
Fixpoint strncmp (s1 s2 : string) (n : nat) : Z :=
  match n with
  | O => 0
  | S n' =>
      let c1 := char_at s1 O in
      let c2 := char_at s2 O in
      if negb (Ascii.eqb c1 c2) then code c1 - code c2
      else if Ascii.eqb c1 NUL then 0
      else strncmp (skip 1 s1) (skip 1 s2) n'
  end.

(** [strncasecmp(s1, s2, n)]: the same on the lower-cased bytes. *)
Fixpoint strncasecmp (s1 s2 : string) (n : nat) : Z :=
  match n with
  | O => 0
  | S n' =>
      let c1 := tolower (char_at s1 O) in
      let c2 := tolower (char_at s2 O) in
      if negb (Ascii.eqb c1 c2) then code c1 - code c2
      else if Ascii.eqb c1 NUL then 0
      else strncasecmp (skip 1 s1) (skip 1 s2) n'
  end.

(** The digits of [strtol] in base 10. *)
Fixpoint digits (s : string) (acc : Z) : Z :=
  match s with
  | EmptyString => acc
  | String c s' =>
      if isdigit c then digits s' (10 * acc + (code c - 48)) else acc
  end.

Fixpoint skip_space (s : string) : string :=
  match s with
  | String c s' => if isspace c then skip_space s' else s
  | EmptyString => s
  end.

(** [strtol(s, NULL, 10)] on a 64-bit [long]: leading white space, an
    optional sign, digits; a value out of range is replaced by LONG_MIN
    or LONG_MAX. *)
Definition strtol (s : string) : Z :=
  let s := skip_space s in
  let v := match s with
           | String "-"%char s' => - digits s' 0
           | String "+"%char s' => digits s' 0
           | _ => digits s 0
           end in
  Z.max (- 2 ^ 63) (Z.min (2 ^ 63 - 1) v).

(** The conversion of a [long] to a 32-bit [int]. *)
Definition to_int (v : Z) : Z := (v + 2 ^ 31) mod 2 ^ 32 - 2 ^ 31.

(** [atoi(s)] is [(int) strtol(s, NULL, 10)]. (ISO C leaves atoi
    undefined on values an int cannot hold; this is what glibc does.) *)
Definition atoi (s : string) : Z := to_int (strtol s).

End CString.

(* ===================================================================== *)
(** * src/resolvconf.cpp                                                  *)
(* ===================================================================== *)

Module ResolvConf.
Import CString.

Local Open Scope string_scope.
Local Open Scope Z_scope.

(** The members of the class. *)
Record t : Type := Build {
  _nameservers : list Ip.t;
  _searchpaths : list string;
  _rotate : bool;
  _timeout : Z;
  _attempts : Z;
  _ndots : Z
}.

(** Modelled from the spec: the initial values of the members, which
    include/dnscpp/resolvconf.h declares ("rotate: bool, timeout: int
    (1..30, default 5), attempts: int (1..5, default 2), ndots: int
    (0..15, default 1)"); no nameservers and no search paths. *)
Definition initial : t :=
  {| _nameservers := []; _searchpaths := []; _rotate := false;
     _timeout := 5; _attempts := 2; _ndots := 1 |}.

Definition add_nameserver (ip : Ip.t) (c : t) : t :=
  Build (_nameservers c ++ [ip]) (_searchpaths c) (_rotate c)
        (_timeout c) (_attempts c) (_ndots c).
Definition set_searchpaths (paths : list string) (c : t) : t :=
  Build (_nameservers c) paths (_rotate c)
        (_timeout c) (_attempts c) (_ndots c).
Definition set_rotate (v : bool) (c : t) : t :=
  Build (_nameservers c) (_searchpaths c) v
        (_timeout c) (_attempts c) (_ndots c).
Definition set_timeout (v : Z) (c : t) : t :=
  Build (_nameservers c) (_searchpaths c) (_rotate c)
        v (_attempts c) (_ndots c).
Definition set_attempts (v : Z) (c : t) : t :=
  Build (_nameservers c) (_searchpaths c) (_rotate c)
        (_timeout c) v (_ndots c).
Definition set_ndots (v : Z) (c : t) : t :=
  Build (_nameservers c) (_searchpaths c) (_rotate c)
        (_timeout c) (_attempts c) v.

(** [linesize]: [while (size > trim && isspace(line[size-1-trim])) ++trim;]
    The body runs at most [size] times. *)
Fixpoint linesize_loop (line : string) (size trim fuel : nat) : nat :=
  match fuel with
  | O => trim
  | S fuel' =>
      if (trim <? size)%nat && isspace (char_at line (size - 1 - trim))
      then linesize_loop line size (S trim) fuel'
      else trim
  end.

Definition linesize (line : string) (size : nat) : nat :=
  (size - linesize_loop line size 0 size)%nat.

(** [whitesize]: [while (size > whitespace && isspace(line[whitespace]))
    ++whitespace;], as a recursion along the line. *)
Fixpoint whitesize (line : string) (size : nat) : nat :=
  match size with
  | O => O
  | S size' =>
      if isspace (char_at line 0) then S (whitesize (skip 1 line) size')
      else O
  end.

(** [findwhite]: the offset of the first white space among the first
    [size] bytes, or the null pointer. *)
Fixpoint findwhite (line : string) (size : nat) : option nat :=
  match size with
  | O => None
  | S size' =>
      if isspace (char_at line 0) then Some O
      else S <$> findwhite (skip 1 line) size'
  end.

(** [check(line, size, required)] *)
Definition check (line : string) (size : nat) (required : string) : nat :=
  let skipped := strlen required in
  if negb (strncasecmp line required skipped =? 0) then O
  else
    let whitespace := whitesize (skip skipped line) (size - skipped) in
    if (whitespace =? 0)%nat then O
    else (skipped + whitespace)%nat.

(** [option(option, size)]: [size] only tells an empty option; the
    comparisons read the bytes at [option] up to the end of the line. *)
Definition option_ (opt : string) (size : nat) (c : t) : t :=
  if (size =? 0)%nat then c
  else if strncmp opt "rotate" 7 =? 0 then set_rotate true c
  else if strncmp opt "timeout:" 8 =? 0
       then set_timeout (Z.min 30 (atoi (skip 8 opt))) c
  else if strncmp opt "attempts:" 9 =? 0
       then set_attempts (Z.min 5 (atoi (skip 9 opt))) c
  else if strncmp opt "ndots:" 6 =? 0
       then set_ndots (Z.min 15 (atoi (skip 6 opt))) c
  else c.

(** [options(line, size)]. [start] and [space] are offsets into [line];
    every round moves [start] behind a space of the line, so there are
    at most [strlen(line) + 1] rounds. *)
Fixpoint options_loop (line : string) (size : nat) (start : nat)
    (space : option nat) (fuel : nat) (c : t) : t :=
  match fuel with
  | O => c
  | S fuel' =>
      let c := option_ (skip start line)
                 (match space with
                  | Some sp => sp - start
                  | None => size - start
                  end)%nat c in
      match space with
      | None => c
      | Some sp =>
          let start := S sp in
          let space := (fun k => (start + k)%nat) <$>
                         strchr (skip start line) " " in
          options_loop line size start space fuel' c
      end
  end.

Definition options (line : string) (size : nat) (c : t) : t :=
  options_loop line size 0 (strchr line " ") (S (String.length line)) c.

(** [search(line, size)]: every round consumes at least one byte. *)
Fixpoint search_loop (line : string) (size : nat) (fuel : nat)
    (paths : list string) : list string :=
  match fuel with
  | O => paths
  | S fuel' =>
      if (size =? 0)%nat then paths
      else
        match findwhite line size with
        | None => (paths ++ [first_n size line])%list
        | Some partsize =>
            let paths := (paths ++ [first_n partsize line])%list in
            let line := skip partsize line in
            let size := (size - partsize)%nat in
            let white := whitesize line size in
            search_loop (skip white line) (size - white) fuel' paths
        end
  end.

Definition search (line : string) (size : nat) (c : t) : t :=
  set_searchpaths (search_loop line size (S size) []) c.

(** [domain(line, size)] *)
Definition domain (line : string) (size : nat) (c : t) : result t :=
  Throw ("not implemented: domain " ++ c_str line).

Section Collaborators.

(** [Ip(const char *ip)], declared in ip.h ("@throws
    std::runtime_error") and defined outside these sources. *)
Variable Ip_of_string : string -> result Ip.t.

(** The host's own domain, [LocalDomain] of src/localdomain.h. *)
Variable localdomain : string.

(** [nameserver(line, size)]: [_nameservers.emplace_back(line)] *)
Definition nameserver (line : string) (size : nat) (c : t) : result t :=
  match Ip_of_string (c_str line) with
  | Ok ip => Ok (add_nameserver ip c)
  | Throw what => Throw what
  end.

(** [parse(line, size)] *)
Definition parse (line : string) (size : nat) (c : t) : result t :=
  if (size =? 0)%nat || Ascii.eqb (char_at line 0) ";"
     || Ascii.eqb (char_at line 0) "#"
  then Ok c
  else
    let skipped := check line size "nameserver" in
    if (0 <? skipped)%nat
    then nameserver (skip skipped line) (size - skipped) c
    else
    let skipped := check line size "options" in
    if (0 <? skipped)%nat
    then Ok (options (skip skipped line) (size - skipped) c)
    else
    let skipped := check line size "domain" in
    if (0 <? skipped)%nat
    then domain (skip skipped line) (size - skipped) c
    else
    let skipped := check line size "search" in
    if (0 <? skipped)%nat
    then Ok (search (skip skipped line) (size - skipped) c)
    else Throw ("unrecognized: " ++ c_str line).

(** One round of the loop of the constructor: a line as [getline] read
    it is trimmed and parsed. *)
Definition trimmed (line : string) : string :=
  first_n (linesize line (String.length line)) line.

(** The loop of the constructor over the lines of the file. *)
Fixpoint read_lines (filename : string) (strict : bool)
    (lines : list string) (c : t) : result t :=
  match lines with
  | [] => Ok c
  | line :: rest =>
      let line := trimmed line in
      match parse line (String.length line) c with
      | Ok c' => read_lines filename strict rest c'
      | Throw what =>
          if strict then Throw (filename ++ ": " ++ what)
          else read_lines filename strict rest c
      end
  end.

(** [ResolvConf(filename, strict)]. [file] is what the file system
    holds at [filename]: nothing, or the lines that the successive
    [getline] calls return. *)
Definition ResolvConf (filename : string) (strict : bool)
    (file : option (list string)) : result t :=
  match file with
  | None => Throw (filename ++ ": failed to open file")
  | Some lines =>
      match read_lines filename strict lines initial with
      | Throw what => Throw what
      | Ok c =>
          if negb (length (_searchpaths c) =? 0)%nat then Ok c
          else if (strlen localdomain =? 0)%nat then Ok c
          else Ok (set_searchpaths [c_str localdomain] c)
      end
  end.

End Collaborators.

(** ** The statements of the specification *)

(** The ranges of the configuration values. *)
Definition in_ranges (c : t) : Prop :=
  1 <= _timeout c <= 30 /\ 1 <= _attempts c <= 5 /\ 0 <= _ndots c <= 15.

(** What the code guarantees of them. *)
Definition capped (c : t) : Prop :=
  _timeout c <= 30 /\ _attempts c <= 5 /\ _ndots c <= 15.

(** The text of a string in lower case. *)
Fixpoint lower (s : string) : string :=
  match s with
  | EmptyString => EmptyString
  | String c s' => String (tolower c) (lower s')
  end.

Fixpoint all_space (s : string) : bool :=
  match s with
  | EmptyString => true
  | String c s' => isspace c && all_space s'
  end.

(** [line] is the keyword [kw] in any case, then white space, then
    [value], which does not start with white space. *)
Definition keyword_line (kw line value : string) : Prop :=
  exists word white,
    line = word ++ white ++ value /\
    lower word = kw /\
    white <> "" /\ all_space white = true /\
    isspace (char_at value 0) = false.

Definition keywords : list string :=
  ["nameserver"; "options"; "domain"; "search"].

Definition is_comment (line : string) : bool :=
  Ascii.eqb (char_at line 0) "#" || Ascii.eqb (char_at line 0) ";".

(** A line that is neither empty, nor a comment, nor a keyword line. *)
Definition unrecognized (line : string) : Prop :=
  line <> "" /\ is_comment line = false /\
  forall kw value, In kw keywords -> ~ keyword_line kw line value.

(** The claim that every keyword line is accepted, as a statement on
    [parse]. *)
Definition keyword_lines_accepted : Prop :=
  forall (Ip_of_string : string -> result Ip.t) (kw line value : string)
         (c : t),
    In kw keywords -> keyword_line kw line value ->
    is_ok (parse Ip_of_string line (String.length line) c) = true.

(** ** Lines as sequences of words *)

(** Tokens with one space between them, as on an options line. *)
Fixpoint join (tokens : list string) : string :=
  match tokens with
  | [] => ""
  | tok :: rest =>
      match rest with
      | [] => tok
      | _ :: _ => tok ++ " " ++ join rest
      end
  end.

(** The calls of [option] that the loop of [options] makes for the
    tokens of a line: each token is passed as a pointer into the line,
    with the length of the token, so the bytes behind the token are in
    reach of the callee. *)
Fixpoint option_calls (tokens : list string) (c : t) : t :=
  match tokens with
  | [] => c
  | tok :: rest =>
      option_calls rest (option_ (join tokens) (String.length tok) c)
  end.

(** The three options with a number, for statements that range over
    them: the text in front of the number, the member that holds the
    value, and the cap of [option]. *)
Inductive setting : Type := Timeout | Attempts | Ndots.


Definition value (s : setting) (c : t) : Z :=
  match s with
  | Timeout => _timeout c
  | Attempts => _attempts c
  | Ndots => _ndots c
  end.


(** A token holds neither a space nor a NUL byte. *)
Fixpoint plain (tok : string) : bool :=
  match tok with
  | EmptyString => true
  | String c s =>
      negb (Ascii.eqb c " ") && negb (Ascii.eqb c NUL) && plain s
  end.

Fixpoint no_space (s : string) : bool :=
  match s with
  | EmptyString => true
  | String c s' => negb (isspace c) && no_space s'
  end.


Definition nonempty (s : string) : bool :=
  match s with EmptyString => false | String _ _ => true end.

(** A word has at least one byte and no white space; a gap has at least
    one byte and white space only. *)
Definition is_word (s : string) : bool := nonempty s && no_space s.
Definition is_gap (s : string) : bool := nonempty s && all_space s.

(** Words with the gaps that follow them, and a last word. *)
Fixpoint spaced (items : list (string * string)) (last : string) : string :=
  match items with
  | [] => last
  | (word, gap) :: rest => word ++ gap ++ spaced rest last
  end.

(** The last byte of a string, NUL for the empty string. *)
Definition last_char (s : string) : ascii :=
  char_at s (String.length s - 1).

End ResolvConf.

(* ===================================================================== *)
(** * src/query.cpp: the buffer and the constructor                       *)
(* ===================================================================== *)

(** Sequencing of calls that may throw. *)
Definition bind {A B : Type} (r : result A) (k : A -> result B) : result B :=
  match r with
  | Ok a => k a
  | Throw what => Throw what
  end.

Notation "'do' x <- r ; k" := (bind r (fun x => k))
  (at level 10, x name, r at level 100, k at level 200).

Module Query.
Import CString.

Local Open Scope string_scope.
Local Open Scope Z_scope.

(** Constants of <arpa/nameser.h> and <arpa/nameser_compat.h>. *)
Definition HFIXEDSZ : nat := 12.
Definition QUERY : Z := 0.
Definition NS_NOTIFY_OP : Z := 4.
Definition ns_o_update : Z := 5.
Definition ns_r_noerror : Z := 0.
Definition ns_c_in : Z := 1.
Definition T_NULL : Z := 10.
Definition NS_OPT_DNSSEC_OK : Z := 32768.

(** [TYPE_OPT] of include/dnscpp/type.h, the OPT type of RFC 6891. *)
Definition TYPE_OPT : Z := 41.

(** The members [_buffer] (a [std::array] of bytes) and [_size]. *)
Record t : Type := Build { _buffer : list Z; _size : nat }.

(** ** Bytes *)

Definition byte_at (buf : list Z) (i : nat) : Z := default 0 (buf !! i).

(** [ns_get16], [ns_put16], [ns_put32]: big-endian. *)
Definition ns_get16 (buf : list Z) (i : nat) : Z :=
  byte_at buf i * 256 + byte_at buf (S i).

Definition be16 (v : Z) : list Z := [(v / 256) mod 256; v mod 256].

Definition be32 (v : Z) : list Z :=
  [(v / 16777216) mod 256; (v / 65536) mod 256; (v / 256) mod 256; v mod 256].

(** Bytes stored one after the other from [pos] on. *)
Fixpoint store (buf : list Z) (pos : nat) (bytes : list Z) : list Z :=
  match bytes with
  | [] => buf
  | b :: bytes' => store (<[pos := b]> buf) (S pos) bytes'
  end.

(** ** The header, [HEADER *header = (HEADER * )_buffer.data()]

    Byte 2 holds qr (128), opcode (120), aa (4), tc (2) and rd (1);
    byte 3 holds ra (128), an unused bit (64), ad (32), cd (16) and
    rcode (15); the counts follow as 16-bit fields. *)

Definition set_byte (i : nat) (v : Z) (q : t) : t :=
  Build (<[i := v]> (_buffer q)) (_size q).

(** Assignment to a bit-field of [width] bits at bit [shift] of byte [i]. *)
Definition set_field (i : nat) (shift width : Z) (v : Z) (q : t) : t :=
  let mask := Z.shiftl (Z.ones width) shift in
  let old := byte_at (_buffer q) i in
  set_byte i (Z.lor (Z.land old (Z.lxor 255 mask))
                    (Z.shiftl (Z.land v (Z.ones width)) shift)) q.

Definition set_opcode (op : Z) : t -> t := set_field 2 3 4 op.
Definition set_rd (v : bool) : t -> t := set_field 2 0 1 (Z.b2z v).
Definition set_ad (v : bool) : t -> t := set_field 3 5 1 (Z.b2z v).
Definition set_cd (v : bool) : t -> t := set_field 3 4 1 (Z.b2z v).
Definition set_rcode (v : Z) : t -> t := set_field 3 0 4 v.

(** [header->id = v] stores a [uint16_t] in host order, which is taken
    to be little-endian. *)
Definition set_id (v : Z) (q : t) : t :=
  set_byte 1 ((v / 256) mod 256) (set_byte 0 (v mod 256) q).

(** [header->qdcount = htons(v)], [header->arcount = htons(v)] *)
Definition set_qdcount (v : Z) (q : t) : t :=
  Build (store (_buffer q) 4 (be16 v)) (_size q).
Definition set_arcount (v : Z) (q : t) : t :=
  Build (store (_buffer q) 10 (be16 v)) (_size q).

(** [id()] is [ntohs(header->id)], [questions()] is
    [ntohs(header->qdcount)]. *)
Definition id (q : t) : Z := ns_get16 (_buffer q) 0.
Definition opcode (q : t) : Z :=
  Z.land (Z.shiftr (byte_at (_buffer q) 2) 3) 15.
Definition questions (q : t) : Z := ns_get16 (_buffer q) 4.
Definition arcount (q : t) : Z := ns_get16 (_buffer q) 10.

(** Modelled from the spec: [Bits::RD()], the "RD (recursion desired)"
    flag of Bits, which query.cpp reads and the bits.h at hand does not
    declare; its bit is taken to be the next free one, 8. *)
Definition RD (bits : Bits.t) : bool :=
  negb (Z.land (Bits._value bits) 8 =? 0).

(** ** Names on the wire *)

Definition bytes_of (s : string) : list Z :=
  map code (list_ascii_of_string s).

(** The text between the dots of a name. *)
Fixpoint split_dots (s : string) : list string :=
  match s with
  | EmptyString => [EmptyString]
  | String c s' =>
      if Ascii.eqb c "." then EmptyString :: split_dots s'
      else match split_dots s' with
           | l :: ls => String c l :: ls
           | [] => [String c EmptyString]
           end
  end.

(** The labels of a dotted name; a dot at the end is allowed, and the
    empty name and "." are the root. *)
Definition labels_of (name : string) : list string :=
  if String.eqb name "." then []
  else
    let parts := split_dots name in
    match rev parts with
    | EmptyString :: front => rev front
    | _ => parts
    end.

(** The RFC 1035 label sequence: every label behind its length, and a
    zero byte at the end. *)
Definition wire_name (labels : list (list Z)) : list Z :=
  flat_map (fun l => Z.of_nat (length l) :: l) labels ++ [0].

Definition label_ok (l : list Z) : bool :=
  (1 <=? length l)%nat && (length l <=? 63)%nat.

(** Modelled from the spec: the encoding that [Compressor::add] of
    src/compressor.h emits for a dotted name ("emits the RFC 1035 label
    sequence ... well-formed labels (length-prefixed, <= 63 per label,
    total <= 255, terminated by a zero byte)"), or nothing on a name
    that has no such encoding. No pointer to an earlier name is used
    ("no pointer reuse is needed"). *)
Definition encode_name (dname : string) : option (list Z) :=
  let labels := map bytes_of (labels_of (c_str dname)) in
  if forallb label_ok labels && (length (wire_name labels) <=? 255)%nat
  then Some (wire_name labels)
  else None.

(** Modelled from the spec: [Compressor::add(name, buffer, size)], which
    "returns the number of bytes consumed, or -1 on error"; here the
    bytes, or nothing when the name has no encoding or the encoding
    does not fit into [size] bytes. *)
Definition Compressor_add (dname : string) (size : nat) : option (list Z) :=
  match encode_name dname with
  | Some wire => if (length wire <=? size)%nat then Some wire else None
  | None => None
  end.

(** ** Appending to the buffer *)

Section Construction.

(** The number of bytes of [_buffer], which include/dnscpp/query.h
    fixes. *)
Variable capacity : nat.

(** The constant [EDNSPacketSize] of the library: the size of UDP
    packets that is advertised. *)
Variable EDNSPacketSize : Z.

(** [remaining()]: the bytes of the buffer behind [end()]. *)
Definition remaining (q : t) : nat := (capacity - _size q)%nat.

(** [_buffer[_size++] = v] *)
Definition put8 (v : Z) (q : t) : t :=
  Build (<[_size q := v]> (_buffer q)) (S (_size q)).

(** Bytes written at [end()], and [_size] moved behind them. *)
Definition append (bytes : list Z) (q : t) : t :=
  Build (store (_buffer q) (_size q) bytes) (_size q + length bytes)%nat.

(** Modelled from the spec: [put16] and [put32] of
    include/dnscpp/query.h, which append a number in network order;
    the constructor "fails if ... buffer would exceed capacity". *)
Definition put16 (v : Z) (q : t) : result t :=
  if (remaining q <? 2)%nat then Throw "buffer overflow"
  else Ok (append (be16 v) q).

Definition put32 (v : Z) (q : t) : result t :=
  if (remaining q <? 4)%nat then Throw "buffer overflow"
  else Ok (append (be32 v) q).

(** [auto size = compressor.add(name, end(), remaining());
     if (size < 0) throw std::runtime_error(what); _size += size;] *)
Definition add_name (what : string) (name : string) (q : t) : result t :=
  match Compressor_add name (remaining q) with
  | None => Throw what
  | Some wire => Ok (append wire q)
  end.

(** [bool Query::edns(bool dnssec)] *)
Definition edns (dnssec : bool) (q : t) : result (bool * t) :=
  if (remaining q <? 11)%nat then Ok (false, q)
  else
    let q := put8 0 q in
    do q <- put16 TYPE_OPT q ;
    do q <- put16 EDNSPacketSize q ;
    let q := put8 0 q in
    let q := put8 0 q in
    do q <- put16 (if dnssec then NS_OPT_DNSSEC_OK else 0) q ;
    do q <- put16 0 q ;
    let q := set_arcount (arcount q + 1) q in
    Ok (true, q).

(** The additional record of a NOTIFY with data:
    [size = compressor.add(data, end(), remaining());
     if (size < 0) throw std::runtime_error(what);
     put16(T_NULL); put16(ns_c_in); put32(0); put16(0);
     header->arcount = htons(1);]
    The compressor writes the name at [end()]. Unlike behind the name
    of the question, there is no [_size += size] here: [_size] stays
    where it was, and the four numbers are written from [end()] on,
    over the first bytes of the name. *)
Definition add_data (op : Z) (data : option string) (q : t) : result t :=
  if op =? QUERY then Ok q
  else match data with
       | None => Ok q
       | Some name =>
           match Compressor_add name (remaining q) with
           | None => Throw "failed data name compression"
           | Some wire =>
               let q := Build (store (_buffer q) (_size q) wire) (_size q) in
               do q <- put16 T_NULL q ;
               do q <- put16 ns_c_in q ;
               do q <- put32 0 q ;
               do q <- put16 0 q ;
               Ok (set_arcount 1 q)
           end
       end.

(** [Query::Query(op, dname, type, bits, data)]. [rid] is the number
    that [randomids.generate()] returns, [data] is absent for a null
    pointer. The result of [edns] is not looked at. *)
Definition Query (rid : Z) (op : Z) (dname : string) (type : Z)
    (bits : Bits.t) (data : option string) : result t :=
  if (type <? 0) || (65535 <? type)
  then Throw "invalid type passed to dns query"
  else
    let q := Build (replicate capacity 0) HFIXEDSZ in
    let q := set_opcode op q in
    let q := set_rd (RD bits) q in
    let q := set_ad (Bits.AD bits) q in
    let q := set_cd (Bits.CD bits) q in
    let q := set_rcode ns_r_noerror q in
    let q := set_id rid q in
    if negb ((op =? NS_NOTIFY_OP) || (op =? QUERY))
    then Throw "invalid dns operation"
    else
      do q <- add_name "failed domain name compression" dname q ;
      do q <- put16 type q ;
      do q <- put16 ns_c_in q ;
      let q := set_qdcount 1 q in
      do q <- add_data op data q ;
      do r <- edns (Bits.dnssec bits) q ;
      Ok (snd r).

End Construction.

(** The bytes that make up the message: the buffer up to [end()]. *)
Definition written (q : t) : list Z := take (_size q) (_buffer q).

End Query.

(* ===================================================================== *)
(** * src/query.cpp: matching a response                                  *)
(* ===================================================================== *)

Module Matching.
Import CString Query.

Local Open Scope Z_scope.

Section Collaborators.

(** The text of a domain name, as [Decompressed] and [Question] hold
    it. *)
Variable Name : Type.

(** [Decompressed name(buffer, end, current)] of
    include/dnscpp/decompressed.h: the name found at offset [current]
    of a buffer that ends at offset [end], and [name.consumed()];
    nothing when the constructor throws. *)
Variable Decompressed : list Z -> nat -> nat -> option (Name * nat).

(** [ns_samename] of libresolv: positive when the two names are the
    same name. *)
Variable ns_samename : Name -> Name -> Z.

(** What query.cpp reads of a [Question] (include/dnscpp/question.h). *)
Record Question : Type := BuildQuestion {
  name : Name;
  type : Z;
  dnsclass : Z
}.

(** What query.cpp reads of a [Response] (include/dnscpp/response.h):
    [id()], [opcode()], [questions()], and [Question(response, i)],
    which is absent when that constructor throws. *)
Record Response : Type := BuildResponse {
  response_id : Z;
  response_opcode : Z;
  response_questions : Z;
  response_question : nat -> option Question
}.

(** The loop of [Query::contains]: [n] rounds are left, the next
    question starts at offset [current]. *)
Fixpoint contains_loop (q : Query.t) (record : Question) (n : nat)
    (current : nat) : bool :=
  match n with
  | O => false
  | S n' =>
      match Decompressed (_buffer q) (_size q) current with
      | None => contains_loop q record n' current
      | Some (qname, consumed) =>
          let current := (current + consumed)%nat in
          if Z.of_nat (_size q) - Z.of_nat current <? 4 then false
          else
            let qtype := ns_get16 (_buffer q) current in
            let qclass := ns_get16 (_buffer q) (current + 2) in
            let current := (current + 4)%nat in
            if negb (qtype =? type record)
            then contains_loop q record n' current
            else if negb (qclass =? dnsclass record)
            then contains_loop q record n' current
            else if 0 <? ns_samename qname (name record) then true
            else contains_loop q record n' current
      end
  end.

(** [bool Query::contains(const Question &record) const] *)
Definition contains (q : Query.t) (record : Question) : bool :=
  contains_loop q record (Z.to_nat (questions q)) HFIXEDSZ.

(** The loop of [Query::matches] from question [i] on; a [Question]
    that cannot be constructed ends it in the catch block. *)
Fixpoint matches_loop (q : Query.t) (response : Response) (n : nat)
    (i : nat) : bool :=
  match n with
  | O => true
  | S n' =>
      match response_question response i with
      | None => false
      | Some record =>
          if negb (contains q record) then false
          else matches_loop q response n' (S i)
      end
  end.

(** [bool Query::matches(const Response &response) const] *)
Definition matches (q : Query.t) (response : Response) : bool :=
  if negb (response_id response =? id q) then false
  else if (response_opcode response =? ns_o_update)
          && (opcode q =? ns_o_update) then true
  else if negb (response_questions response =? questions q) then false
  else matches_loop q response (Z.to_nat (response_questions response)) 0.

(** ** The questions of a query, for the statements *)

(** The questions that the question section of the buffer holds: at
    most [n], read one behind the other from offset [current] on, up
    to the first that cannot be read in full. *)
Fixpoint questions_from (q : Query.t) (n : nat) (current : nat)
    : list Question :=
  match n with
  | O => []
  | S n' =>
      match Decompressed (_buffer q) (_size q) current with
      | None => []
      | Some (qname, consumed) =>
          let current := (current + consumed)%nat in
          if Z.of_nat (_size q) - Z.of_nat current <? 4 then []
          else
            BuildQuestion qname (ns_get16 (_buffer q) current)
                          (ns_get16 (_buffer q) (current + 2))
            :: questions_from q n' (current + 4)
      end
  end.

Definition question_section (q : Query.t) : list Question :=
  questions_from q (Z.to_nat (questions q)) HFIXEDSZ.

(** Equal questions: the same type, the same class, and names that
    [ns_samename] takes for the same. *)
Definition same_question (a b : Question) : bool :=
  (type a =? type b) && (dnsclass a =? dnsclass b)
  && (0 <? ns_samename (name a) (name b)).

(** Question [i] of the response exists and occurs in the query. *)
Definition occurs_in (q : Query.t) (response : Response) (i : nat)
    : Prop :=
  exists record,
    response_question response i = Some record /\
    exists asked, In asked (question_section q) /\
                  same_question asked record = true.

(** The response that a server makes of the header and the question
    section of a query. *)
Definition synth (q : Query.t) : Response :=
  BuildResponse (id q) (opcode q) (questions q)
                (fun i => question_section q !! i).

End Collaborators.

Arguments BuildQuestion {Name}.
Arguments name {Name}.
Arguments type {Name}.
Arguments dnsclass {Name}.
Arguments BuildResponse {Name}.
Arguments response_id {Name}.
Arguments response_opcode {Name}.
Arguments response_questions {Name}.
Arguments response_question {Name}.
Arguments same_question {Name}.
Arguments contains_loop {Name}.
Arguments contains {Name}.
Arguments matches_loop {Name}.
Arguments matches {Name}.
Arguments questions_from {Name}.
Arguments question_section {Name}.
Arguments occurs_in {Name}.
Arguments synth {Name}.

(** ** Names as label sequences *)

(** Modelled from the spec: the name that [Decompressed] reads, as the
    sequence of its labels ("RFC 1035 label sequence ... length-prefixed,
    <= 63 per label, ... terminated by a zero byte"). [bytes] are the
    bytes from the start of the name to the end of the buffer; a length
    byte above 63, which no name of a query starts a label with, and a
    label that runs over the end make the constructor throw. The
    second component is [consumed()]. *)
Fixpoint read_labels (bytes : list Z) (fuel : nat)
    : option (list (list Z) * nat) :=
  match fuel with
  | O => None
  | S fuel' =>
      match bytes with
      | [] => None
      | len :: rest =>
          if len =? 0 then Some ([], 1%nat)
          else if (len <? 0) || (63 <? len) then None
          else
            let n := Z.to_nat len in
            if (length rest <? n)%nat then None
            else
              match read_labels (drop n rest) fuel' with
              | Some (labels, consumed) =>
                  Some (take n rest :: labels, (1 + n + consumed)%nat)
              | None => None
              end
      end
  end.

Definition Decompressed_labels (buffer : list Z) (end_ current : nat)
    : option (list (list Z) * nat) :=
  let bytes := drop current (take end_ buffer) in
  read_labels bytes (S (length bytes)).

(** A byte in lower case. *)
Definition lower_byte (b : Z) : Z :=
  if (65 <=? b) && (b <=? 90) then b + 32 else b.

(** The key under which RFC 1035 compares names: the labels in lower
    case. *)
Definition name_key (labels : list (list Z)) : list (list Z) :=
  map (map lower_byte) labels.

Definition labels_eqb (a b : list (list Z)) : bool :=
  bool_decide (a = b).

(** Modelled from the spec: [ns_samename] on label sequences, "name
    case-insensitive" equality: 1 for the same name, 0 otherwise. *)
Definition samename_labels (a b : list (list Z)) : Z :=
  if labels_eqb (name_key a) (name_key b) then 1 else 0.

(** The labels of the name that the constructor is given. *)
Definition labels_of_name (dname : string) : list (list Z) :=
  map bytes_of (labels_of (c_str dname)).

End Matching.

(* ===================================================================== *)
(** * The message that a query holds, for the statements                  *)
(* ===================================================================== *)

Module Layout.
Import CString Query Matching.

Local Open Scope Z_scope.

(** A query whose buffer holds the twelve bytes [hdr], then [body], and
    zeros up to its capacity, and whose [_size] is behind [body]. *)
Definition layout (capacity : nat) (hdr body : list Z) : Query.t :=
  Query.Build
    (hdr ++ body ++ replicate (capacity - (12 + length body)) 0)
    (12 + length body).

(** The same with any bytes behind [end()]. *)
Definition placed (hdr body behind : list Z) : Query.t :=
  Query.Build (hdr ++ body ++ behind) (12 + length body).

(** The header of a query: id (as stored by a little-endian host), the
    opcode and RD in byte 2, AD and CD in byte 3, rcode 0, and the four
    counts, of which the constructor uses qdcount and arcount. *)
Definition header_bytes (rid op : Z) (bits : Bits.t) (qdcount arcount : Z)
    : list Z :=
  [rid mod 256; (rid / 256) mod 256;
   op * 8 + Z.b2z (RD bits);
   32 * Z.b2z (Bits.AD bits) + 16 * Z.b2z (Bits.CD bits)]
  ++ be16 qdcount ++ [0; 0; 0; 0] ++ be16 arcount.

(** The question: name, type, class IN. *)
Definition question_bytes (wire : list Z) (type : Z) : list Z :=
  wire ++ be16 type ++ be16 ns_c_in.

(** The record that the data of a NOTIFY leaves in the message: type
    NULL, class IN, ttl 0, no data, and no owner name in front. *)
Definition null_record : list Z :=
  be16 T_NULL ++ be16 ns_c_in ++ be32 0 ++ be16 0.


(** The OPT pseudo-record: the root as owner, type OPT, the advertised
    size as class, extended rcode 0, version 0, the flags with the DO
    bit, no options. *)
Definition opt_bytes (EDNSPacketSize : Z) (dnssec : bool) : list Z :=
  [0] ++ be16 TYPE_OPT ++ be16 EDNSPacketSize ++ [0; 0]
  ++ be16 (if dnssec then NS_OPT_DNSSEC_OK else 0) ++ be16 0.

Definition has_data (op : Z) (data : option string) : bool :=
  negb (op =? QUERY) && bool_decide (is_Some data).

(** The name that the constructor encodes as data. *)
Definition data_name (op : Z) (data : option string) : option string :=
  if op =? QUERY then None else data.

(** What the data of a NOTIFY does to the [room] bytes behind the
    question: the bytes that it adds to the message, and the bytes that
    it leaves behind [end()]. Without data nothing is added and the
    bytes stay zero. With data the encoded name and the ten bytes of
    the record must each fit; the record takes the place of the first
    ten bytes of the name, the rest of the name is left behind. *)
Definition data_record (op : Z) (data : option string) (room : nat)
    : option (list Z * list Z) :=
  match data_name op data with
  | None => Some ([], replicate room 0)
  | Some name =>
      match encode_name name with
      | Some wire =>
          if (length wire <=? room)%nat && (10 <=? room)%nat
          then Some (null_record,
                     drop 10 (wire ++ replicate (room - length wire) 0))
          else None
      | None => None
      end
  end.

(** The query that the constructor is expected to build: nothing on a
    type or an opcode out of range, on a name without encoding, and
    when the question or the data do not fit; otherwise header,
    question, the record of the data, and the OPT record where eleven
    bytes are left for it. *)
Definition expected (capacity : nat) (EDNSPacketSize : Z) (rid op : Z)
    (dname : string) (type : Z) (bits : Bits.t) (data : option string)
    : option Query.t :=
  if (type <? 0) || (65535 <? type) then None
  else if negb ((op =? NS_NOTIFY_OP) || (op =? QUERY)) then None
  else
    match encode_name dname with
    | None => None
    | Some wire =>
        let question := question_bytes wire type in
        if negb (12 + length question <=? capacity)%nat then None
        else
          match data_record op data (capacity - (12 + length question)) with
          | None => None
          | Some (extra, behind) =>
              let fits := (11 <=? length behind)%nat in
              let records := Z.b2z (has_data op data) + Z.b2z fits in
              Some (placed
                      (header_bytes rid op bits 1 records)
                      (question ++ extra ++
                       if fits
                       then opt_bytes EDNSPacketSize (Bits.dnssec bits)
                       else [])
                      (if fits then drop 11 behind else behind))
          end
    end.

Definition to_option {A : Type} (r : result A) : option A :=
  match r with Ok a => Some a | Throw _ => None end.

(** ** The claim on failures, as stated *)



(** ** A decoder of messages, for the invariant of the counts *)

(** A resource record: owner, type, class, the four bytes of the ttl
    field, and the data. *)
Record record : Type := BuildRecord {
  owner : list (list Z);
  rtype : Z;
  rclass : Z;
  rttl : list Z;
  rdata : list Z
}.

Definition read_record (bytes : list Z) : option (record * list Z) :=
  match read_labels bytes (S (length bytes)) with
  | None => None
  | Some (labels, consumed) =>
      let rest := drop consumed bytes in
      if (length rest <? 10)%nat then None
      else
        let rdlength := Z.to_nat (ns_get16 rest 8) in
        let rest' := drop 10 rest in
        if (length rest' <? rdlength)%nat then None
        else Some (BuildRecord labels (ns_get16 rest 0) (ns_get16 rest 2)
                     (take 4 (drop 4 rest)) (take rdlength rest'),
                   drop rdlength rest')
  end.

Fixpoint read_records (n : nat) (bytes : list Z)
    : option (list record * list Z) :=
  match n with
  | O => Some ([], bytes)
  | S n' =>
      match read_record bytes with
      | None => None
      | Some (r, rest) =>
          match read_records n' rest with
          | None => None
          | Some (rs, rest') => Some (r :: rs, rest')
          end
      end
  end.

Definition read_question (bytes : list Z)
    : option (Question (list (list Z)) * list Z) :=
  match read_labels bytes (S (length bytes)) with
  | None => None
  | Some (labels, consumed) =>
      let rest := drop consumed bytes in
      if (length rest <? 4)%nat then None
      else Some (BuildQuestion labels (ns_get16 rest 0) (ns_get16 rest 2),
                 drop 4 rest)
  end.

Fixpoint read_questions (n : nat) (bytes : list Z)
    : option (list (Question (list (list Z))) * list Z) :=
  match n with
  | O => Some ([], bytes)
  | S n' =>
      match read_question bytes with
      | None => None
      | Some (qn, rest) =>
          match read_questions n' rest with
          | None => None
          | Some (qs, rest') => Some (qn :: qs, rest')
          end
      end
  end.

(** The sections that the counts of the header announce, read from the
    bytes of the message: the questions and the additional records,
    when no byte is left over (a query has no answer and no authority
    records). *)
Definition sections (q : Query.t)
    : option (list (Question (list (list Z))) * list record) :=
  let body := drop 12 (written q) in
  match read_questions (Z.to_nat (questions q)) body with
  | None => None
  | Some (qs, rest) =>
      if negb ((ns_get16 (_buffer q) 6 =? 0) && (ns_get16 (_buffer q) 8 =? 0))
      then None
      else
        match read_records (Z.to_nat (arcount q)) rest with
        | Some (rs, []) => Some (qs, rs)
        | _ => None
        end
  end.

(** The OPT record of RFC 6891 with the fields of the specification. *)
Definition is_opt (EDNSPacketSize : Z) (dnssec : bool) (r : record) : bool :=
  bool_decide (owner r = [])
  && (rtype r =? TYPE_OPT)
  && (rclass r =? EDNSPacketSize mod 65536)
  && bool_decide (rttl r = [0; 0; if dnssec then 128 else 0; 0])
  && bool_decide (rdata r = []).

(** "The header counts match the encoded body, and EDNS-OPT is the last
    additional record." *)
Definition invariant (EDNSPacketSize : Z) (dnssec : bool) (q : Query.t)
    : Prop :=
  exists qs rs r,
    sections q = Some (qs, rs) /\
    questions q = 1 /\ length qs = 1%nat /\
    arcount q = Z.of_nat (length rs) /\
    last rs = Some r /\ is_opt EDNSPacketSize dnssec r = true.

End Layout.

(* ===================================================================== *)
(** * test/lookup.cpp                                                     *)
(* ===================================================================== *)

Module Lookup.
Import CString.

Local Open Scope string_scope.
Local Open Scope Z_scope.

(** [ns_type] of <arpa/nameser.h>. *)
Definition ns_t_a : Z := 1.
Definition ns_t_ns : Z := 2.
Definition ns_t_cname : Z := 5.
Definition ns_t_ptr : Z := 12.
Definition ns_t_mx : Z := 15.
Definition ns_t_txt : Z := 16.
Definition ns_t_aaaa : Z := 28.
Definition ns_t_caa : Z := 257.

(** [strcasecmp(s1, s2)]: [strncasecmp] without a bound. The comparison
    ends at the terminator of [s2] at the latest, so a bound of
    [strlen(s2) + 1] bytes is no bound. *)
Definition strcasecmp (s1 s2 : string) : Z :=
  strncasecmp s1 s2 (S (strlen s2)).

(** [static ns_type convert(const char *type)] *)
Definition convert (type : string) : result Z :=
  if strcasecmp type "a" =? 0 then Ok ns_t_a
  else if strcasecmp type "aaaa" =? 0 then Ok ns_t_aaaa
  else if strcasecmp type "mx" =? 0 then Ok ns_t_mx
  else if strcasecmp type "txt" =? 0 then Ok ns_t_txt
  else if strcasecmp type "cname" =? 0 then Ok ns_t_cname
  else if strcasecmp type "ptr" =? 0 then Ok ns_t_ptr
  else if strcasecmp type "caa" =? 0 then Ok ns_t_caa
  else if strcasecmp type "ns" =? 0 then Ok ns_t_ns
  else if strcasecmp type "ptr" =? 0 then Ok ns_t_ptr
  else Throw ("unknown record type " ++ c_str type).

(** The names of record types and their numbers. *)
Definition record_types : list (string * Z) :=
  [("a", ns_t_a); ("aaaa", ns_t_aaaa); ("mx", ns_t_mx); ("txt", ns_t_txt);
   ("cname", ns_t_cname); ("ptr", ns_t_ptr); ("caa", ns_t_caa);
   ("ns", ns_t_ns)].

(** The number that stands with a name in a table. *)
Fixpoint number_of (name : string) (table : list (string * Z)) : option Z :=
  match table with
  | [] => None
  | (n, t) :: rest => if String.eqb name n then Some t else number_of name rest
  end.

End Lookup.

(* ===================================================================== *)
(** * Concrete inputs for the examples                                    *)
(* ===================================================================== *)

Module Samples.

Local Open Scope string_scope.
Local Open Scope Z_scope.

(** An IPv4 address in the union of [Ip]. *)
Definition ip4 (a b c d : Z) : Ip.t :=
  Ip.Build 4 [a; b; c; d; 0; 0; 0; 0; 0; 0; 0; 0; 0; 0; 0; 0].

(** A conversion of text to [Ip] that rejects every text, for files
    without nameserver lines. *)
Definition no_address : string -> result Ip.t :=
  fun _ => Throw "invalid ip".

(** A label of [n] times the character [c]. *)
Definition label (n : nat) (c : ascii) : string :=
  string_of_list_ascii (List.repeat c n).

(** A name of the greatest length, 255 bytes on the wire, and a name of
    241 bytes on the wire that shares no label with it. *)
Definition long_name : string :=
  label 63 "a" ++ "." ++ label 63 "a" ++ "." ++ label 63 "a" ++ "."
  ++ label 61 "a".
Definition long_data : string :=
  label 63 "b" ++ "." ++ label 63 "b" ++ "." ++ label 63 "b" ++ "."
  ++ label 47 "b".

(** A buffer of 512 bytes ("an immutable outbound wire buffer <= 512
    bytes for UDP") and an advertised size of 4096 ("4096 is typical"). *)
Definition udp_capacity : nat := 512.
Definition advertised : Z := 4096.

(** A NOTIFY with data, and a NOTIFY for [long_name] with [long_data],
    the two longest names that go into the buffer together. *)
Definition notify_net : result Query.t :=
  Query.Query udp_capacity advertised 4660 Query.NS_NOTIFY_OP "example.com" 6
              (Bits.Build 0) (Some "example.net").
Definition notify_long : result Query.t :=
  Query.Query udp_capacity advertised 0 Query.NS_NOTIFY_OP long_name 6
              (Bits.Build 0) (Some long_data).

(** Two queries with the same id. *)
Definition query_com : result Query.t :=
  Query.Query udp_capacity advertised 4660 Query.QUERY "example.com" 1
              (Bits.Build 0) None.
Definition query_org : result Query.t :=
  Query.Query udp_capacity advertised 4660 Query.QUERY "Example.ORG" 1
              (Bits.Build 0) None.

(** 127.0.0.2, an address of the loopback network other than 127.0.0.1,
    and the IPv6 address ::1. *)
Definition ip_127_0_0_2 : Ip.t := ip4 127 0 0 2.
Definition ip6_loopback : Ip.t := Ip.Build 6 Ip.in6addr_loopback.

End Samples.

(* ===================================================================== *)
(** * Shared arithmetic facts                                             *)
(* ===================================================================== *)

(** [v & 2^k] is non-zero exactly when bit [k] of [v] is set. *)
Lemma land_pow2_testbit (v k : Z) :
  0 <= k -> negb (Z.land v (2 ^ k) =? 0) = Z.testbit v k.
Proof.
  intros Hk.
  destruct (Z.testbit v k) eqn:E.
  - apply negb_true_iff, Z.eqb_neq. intros H0.
    assert (Hb : Z.testbit (Z.land v (2 ^ k)) k = true).
    { rewrite Z.land_spec, E, Z.pow2_bits_true by lia. reflexivity. }
    rewrite H0, Z.bits_0 in Hb. discriminate.
  - apply negb_false_iff, Z.eqb_eq. apply Z.bits_inj'. intros n Hn.
    rewrite Z.land_spec, Z.bits_0, Z.pow2_bits_eqb by lia.
    destruct (Z.eqb_spec k n) as [->|_].
    + rewrite E. reflexivity.
    + apply andb_false_r.
Qed.

(* ===================================================================== *)
(** * Theorems: Bits                                                      *)
(* ===================================================================== *)

Module BitsFacts.
Import Bits.

Lemma get_testbit (f : flag) (b : t) :
  get f b = Z.testbit (_value b) (bit_index f).
Proof.
  destruct f; cbn [get bit_index]; unfold AD, CD, DO, BIT_AD, BIT_CD, BIT_DO.
  - apply (land_pow2_testbit _ 0). lia.
  - apply (land_pow2_testbit _ 1). lia.
  - apply (land_pow2_testbit _ 2). lia.
Qed.

Lemma set_value (f : flag) (v : bool) (b : t) :
  _value (set f v b) =
  if v then Z.lor (_value b) (2 ^ bit_index f)
  else Z.land (_value b) (Z.lnot (2 ^ bit_index f)).
Proof. destruct f, v; reflexivity. Qed.

Lemma bit_index_nonneg (f : flag) : 0 <= bit_index f.
Proof. destruct f; cbn; lia. Qed.

Lemma testbit_set (f : flag) (v : bool) (b : t) (n : Z) :
  0 <= n ->
  Z.testbit (_value (set f v b)) n =
  if n =? bit_index f then v else Z.testbit (_value b) n.
Proof.
  intros Hn. pose proof (bit_index_nonneg f) as Hf.
  rewrite set_value. destruct v.
  - rewrite Z.lor_spec, Z.pow2_bits_eqb by lia.
    rewrite (Z.eqb_sym (bit_index f) n).
    destruct (n =? bit_index f); [apply orb_true_r | apply orb_false_r].
  - rewrite Z.land_spec, Z.lnot_spec, Z.pow2_bits_eqb by lia.
    rewrite (Z.eqb_sym (bit_index f) n).
    destruct (n =? bit_index f); [apply andb_false_r | apply andb_true_r].
Qed.

(** The setters never leave the range of an [int]: no wrap-around occurs. *)
Lemma is_int_shiftr (x : Z) :
  is_int x <-> (Z.shiftr x 31 = 0 \/ Z.shiftr x 31 = -1).
Proof.
  unfold is_int. rewrite Z.shiftr_div_pow2 by lia.
  change (2 ^ 31) with 2147483648.
  split; intros H; Z.div_mod_to_equations; lia.
Qed.

Lemma set_is_int (f : flag) (v : bool) (b : t) :
  is_int (_value b) -> is_int (_value (set f v b)).
Proof.
  rewrite !is_int_shiftr, set_value.
  assert (Hp : Z.shiftr (2 ^ bit_index f) 31 = 0) by (destruct f; reflexivity).
  assert (Hn : Z.shiftr (Z.lnot (2 ^ bit_index f)) 31 = -1)
    by (destruct f; reflexivity).
  destruct v.
  - rewrite Z.shiftr_lor, Hp, Z.lor_0_r. trivial.
  - rewrite Z.shiftr_land, Hn, Z.land_m1_r. trivial.
Qed.

(** Reading any flag after any setter. *)
Lemma get_set (b : t) (f g : flag) (v : bool) :
  get g (set f v b) = if flag_eqb g f then v else get g b.
Proof.
  unfold flag_eqb.
  rewrite !get_testbit, testbit_set by apply bit_index_nonneg.
  reflexivity.
Qed.

(** The statement flag by flag, on the setters as the header names them. *)
Lemma set_AD_frame (b : t) (v : bool) :
  AD (set_AD v b) = v /\ CD (set_AD v b) = CD b /\ DO (set_AD v b) = DO b.
Proof.
  repeat split;
    [exact (get_set b FlagAD FlagAD v) | exact (get_set b FlagAD FlagCD v)
     | exact (get_set b FlagAD FlagDO v)].
Qed.

Lemma set_CD_frame (b : t) (v : bool) :
  CD (set_CD v b) = v /\ AD (set_CD v b) = AD b /\ DO (set_CD v b) = DO b.
Proof.
  repeat split;
    [exact (get_set b FlagCD FlagCD v) | exact (get_set b FlagCD FlagAD v)
     | exact (get_set b FlagCD FlagDO v)].
Qed.

Lemma set_DO_frame (b : t) (v : bool) :
  DO (set_DO v b) = v /\ AD (set_DO v b) = AD b /\ CD (set_DO v b) = CD b.
Proof.
  repeat split;
    [exact (get_set b FlagDO FlagDO v) | exact (get_set b FlagDO FlagAD v)
     | exact (get_set b FlagDO FlagCD v)].
Qed.

(** C10. For every Bits value, every flag F among AD, CD and DO and every
    boolean v: after the setter F(v) the getter F returns v, and the
    getters of the two other flags return what they returned before the
    call (each setter modifies its own bit only). *)
Theorem setter_getter_frame (b : t) (f : flag) (v : bool) :
  get f (set f v b) = v /\
  (forall g : flag,
      get g (set f v b) = if flag_eqb g f then v else get g b).
Proof.
  split.
  - rewrite get_set. unfold flag_eqb. rewrite Z.eqb_refl. reflexivity.
  - intros g. apply get_set.
Qed.

End BitsFacts.

(* ===================================================================== *)
(** * Theorems: Ip                                                        *)
(* ===================================================================== *)

Module IpFacts.
Import Ip Samples.

Lemma lex_lt_irrefl (a : list Z) : ~ lex_lt a a.
Proof. induction a as [|x a IH]; cbn; [tauto | lia || intuition lia]. Qed.

Lemma lex_lt_trans (a b c : list Z) : lex_lt a b -> lex_lt b c -> lex_lt a c.
Proof.
  revert b c. induction a as [|x a IH]; intros [|y b] [|z c]; cbn; try tauto.
  intros [H1|[-> H1]] [H2|[-> H2]]; try (left; lia).
  right. split; [reflexivity | eauto].
Qed.

(** [memcmp] on the first [n] bytes decides the lexicographic order. *)
Lemma memcmp_spec (n : nat) : forall s1 s2 : list Z,
  (n <= length s1)%nat -> (n <= length s2)%nat ->
  (memcmp s1 s2 n < 0 <-> lex_lt (take n s1) (take n s2)) /\
  (memcmp s1 s2 n = 0 <-> take n s1 = take n s2) /\
  (0 < memcmp s1 s2 n <-> lex_lt (take n s2) (take n s1)).
Proof.
  induction n as [|n IH]; intros s1 s2 H1 H2.
  - rewrite !take_0. cbn. repeat split; intros; try lia; try tauto.
  - destruct s1 as [|x s1]; [cbn in H1; lia|].
    destruct s2 as [|y s2]; [cbn in H2; lia|].
    cbn in H1, H2. cbn [memcmp take lex_lt].
    destruct (IH s1 s2 ltac:(lia) ltac:(lia)) as (Hlt & Heq & Hgt).
    destruct (Z.eqb_spec x y) as [->|Hne].
    + repeat split.
      * intros H. right. split; [reflexivity | tauto].
      * intros [H|[_ H]]; [lia | tauto].
      * intros H. f_equal. tauto.
      * intros H. apply Heq. congruence.
      * intros H. right. split; [reflexivity | tauto].
      * intros [H|[_ H]]; [lia | tauto].
    + repeat split.
      * intros H. left. lia.
      * intros [H|[H _]]; lia.
      * intros H. lia.
      * intros H. congruence.
      * intros H. left. lia.
      * intros [H|[H _]]; [lia | congruence].
Qed.

(** The shortcut for one object compared with itself. *)
Lemma compare_same (a : t) : compare a a = 0.
Proof.
  unfold compare. rewrite Z.eqb_refl. cbn [negb].
  assert (H : forall n s, memcmp s s n = 0).
  { induction n as [|n IH]; intros [|x s]; cbn; try reflexivity.
    rewrite Z.eqb_refl. apply IH. }
  destruct (_version a) as [|[[[]|[]|]|[[]|[]|]|]|]; try reflexivity; apply H.
Qed.

(** [compare] against the order on (version, bytes). *)
Lemma compare_spec (a b : t) :
  wf a -> wf b ->
  (compare a b < 0 <-> key_lt a b) /\
  (compare a b = 0 <-> key_eq a b) /\
  (0 < compare a b <-> key_lt b a).
Proof.
  unfold wf, key_lt, key_eq, compare, bytes, size. intros Ha Hb.
  destruct (Z.eqb_spec (_version a) (_version b)) as [E|E]; cbn [negb].
  - rewrite <- E.
    assert (Hcases : _version a = 4 \/ _version a = 6 \/
                     (_version a <> 4 /\ _version a <> 6)) by lia.
    destruct Hcases as [V|[V|[V4 V6]]].
    + rewrite V.
      destruct (memcmp_spec 4 (_data a) (_data b)) as (Hlt & Heq & Hgt);
        try lia.
      rewrite Hlt, Heq, Hgt. intuition lia.
    + rewrite V.
      destruct (memcmp_spec 16 (_data a) (_data b)) as (Hlt & Heq & Hgt);
        try lia.
      rewrite Hlt, Heq, Hgt. intuition lia.
    + assert (Hm : forall (X : Type) (x y z : X),
                 match _version a with 4 => x | 6 => y | _ => z end = z).
      { intros X x y z.
        destruct (_version a) as [|[[[]|[]|]|[[]|[]|]|]|]; try reflexivity; lia. }
      rewrite !Hm, !take_0. cbn. intuition lia.
  - intuition lia.
Qed.

(** The order on keys is a strict total order. *)
Lemma key_lt_irrefl (a : t) : ~ key_lt a a.
Proof.
  unfold key_lt. intros [H|[_ H]]; [lia | exact (lex_lt_irrefl _ H)].
Qed.

Lemma key_lt_trans (a b c : t) : key_lt a b -> key_lt b c -> key_lt a c.
Proof.
  unfold key_lt. intros [H1|[E1 H1]] [H2|[E2 H2]]; try (left; lia).
  right. split; [congruence | eapply lex_lt_trans; eauto].
Qed.

Lemma key_trichotomy (a b : t) :
  wf a -> wf b -> key_lt a b \/ key_eq a b \/ key_lt b a.
Proof.
  intros Ha Hb. destruct (compare_spec a b Ha Hb) as (Hlt & Heq & Hgt).
  destruct (Z.lt_trichotomy (compare a b) 0) as [H|[H|H]]; tauto.
Qed.

(** C9. Ip::compare orders Ip values by version first (IPv4 before IPv6)
    and then by the lexicographic order of the raw address bytes:
    compare(a,b) < 0 iff (a.version, a.bytes) < (b.version, b.bytes),
    compare(a,b) == 0 iff version and bytes are equal, and the six
    relational operators agree with compare and with that order. *)
Theorem compare_total_order (a b : t) :
  wf a -> wf b ->
  (compare a b < 0 <-> key_lt a b) /\
  (compare a b = 0 <-> key_eq a b) /\
  (0 < compare a b <-> key_lt b a) /\
  (_version a = 4 -> _version b = 6 -> compare a b < 0) /\
  (op_eq a b = true <-> key_eq a b) /\
  (op_ne a b = true <-> ~ key_eq a b) /\
  (op_lt a b = true <-> key_lt a b) /\
  (op_gt a b = true <-> key_lt b a) /\
  (op_le a b = true <-> key_lt a b \/ key_eq a b) /\
  (op_ge a b = true <-> key_lt b a \/ key_eq a b).
Proof.
  intros Ha Hb. destruct (compare_spec a b Ha Hb) as (Hlt & Heq & Hgt).
  unfold op_eq, op_ne, op_lt, op_gt, op_le, op_ge.
  rewrite negb_true_iff, Z.eqb_eq, Z.eqb_neq, Z.ltb_lt, Z.gtb_gt,
    Z.leb_le, Z.geb_ge.
  rewrite <- Hlt, <- Heq, <- Hgt.
  repeat split; try lia.
  intros V4 V6. unfold compare. rewrite V4, V6. cbn. lia.
Qed.

Lemma compare_total_order_witness :
  wf (ip4 8 8 4 4) /\ wf (ip4 8 8 8 8) /\
  (op_lt (ip4 8 8 4 4) (ip4 8 8 8 8) = true <->
   key_lt (ip4 8 8 4 4) (ip4 8 8 8 8)).
Proof.
  split; [reflexivity | split; [reflexivity |]].
  apply (compare_total_order (ip4 8 8 4 4) (ip4 8 8 8 8)); reflexivity.
Defined.

End IpFacts.

(* ===================================================================== *)
(** * Theorems: ResolvConf                                                *)
(* ===================================================================== *)

Module ResolvConfFacts.
Import CString ResolvConf Samples.
Local Open Scope string_scope.
Local Open Scope Z_scope.

Example atoi_42 : atoi "42" = 42. Proof. reflexivity. Qed.
Example atoi_neg : atoi " -7x" = -7. Proof. reflexivity. Qed.
Example atoi_none : atoi "abc" = 0. Proof. reflexivity. Qed.

(** ** Strings *)

Lemma append_cons (c : ascii) (s1 s2 : string) :
  String c s1 ++ s2 = String c (s1 ++ s2).
Proof. reflexivity. Qed.

Lemma append_nil (s : string) : "" ++ s = s.
Proof. reflexivity. Qed.

Lemma length_append (s1 s2 : string) :
  String.length (s1 ++ s2) = (String.length s1 + String.length s2)%nat.
Proof.
  induction s1 as [|c s1 IH]; [reflexivity|].
  rewrite append_cons. simpl. f_equal. exact IH.
Qed.

Lemma append_assoc (a b c : string) : a ++ (b ++ c) = (a ++ b) ++ c.
Proof.
  induction a as [|x a IH]; [reflexivity|].
  rewrite !append_cons, IH. reflexivity.
Qed.

Lemma skip_append (s1 s2 : string) : skip (String.length s1) (s1 ++ s2) = s2.
Proof.
  induction s1 as [|c s1 IH]; [destruct s2; reflexivity|].
  rewrite append_cons. simpl. exact IH.
Qed.

Lemma lower_length (s : string) : String.length (lower s) = String.length s.
Proof.
  induction s as [|c s IH]; [reflexivity|].
  simpl. f_equal. exact IH.
Qed.

Lemma tolower_idem (c : ascii) : tolower (tolower c) = tolower c.
Proof.
  destruct c as [[] [] [] [] [] [] [] []]; reflexivity.
Qed.

Lemma lower_idem (s : string) : lower (lower s) = lower s.
Proof.
  induction s as [|c s IH]; [reflexivity|].
  cbn [lower]. now rewrite tolower_idem, IH.
Qed.

(** A word that is the keyword up to case compares equal to it. *)
Lemma strncasecmp_keyword (kw : string) : forall word rest : string,
  lower word = lower kw ->
  strncasecmp (word ++ rest) kw (String.length kw) = 0.
Proof.
  induction kw as [|k kw IH]; intros word rest H; [reflexivity|].
  destruct word as [|w word]; [discriminate|].
  cbn [lower] in H. injection H as Hc Hw.
  rewrite append_cons.
  cbn [String.length strncasecmp char_at skip].
  rewrite Hc, Ascii.eqb_refl. cbn [negb].
  destruct (Ascii.eqb (tolower k) NUL); [reflexivity|].
  apply IH, Hw.
Qed.

(** The white space in front of a value is counted in full. *)
Lemma whitesize_run (white : string) : forall value : string,
  all_space white = true ->
  isspace (char_at value 0) = false ->
  whitesize (white ++ value) (String.length (white ++ value))
  = String.length white.
Proof.
  induction white as [|w white IH]; intros value Hw Hv.
  - rewrite append_nil.
    destruct value as [|v value]; [reflexivity|].
    change (String.length (String v value)) with (S (String.length value)).
    cbn [whitesize]. rewrite Hv. reflexivity.
  - cbn [all_space] in Hw. apply andb_true_iff in Hw as [Hw1 Hw2].
    rewrite append_cons.
    change (String.length (String w (white ++ value)))
      with (S (String.length (white ++ value))).
    cbn [whitesize char_at skip]. rewrite Hw1.
    change (String.length (String w white)) with (S (String.length white)).
    f_equal. apply IH; assumption.
Qed.

(** [check] on a keyword line: the keyword and the white space behind it
    are skipped, which leaves the value. *)
Lemma check_keyword_line (kw line value : string) :
  lower kw = kw -> strlen kw = String.length kw ->
  keyword_line kw line value ->
  (0 < check line (String.length line) kw)%nat /\
  skip (check line (String.length line) kw) line = value.
Proof.
  intros Hlow Hlen (word & white & -> & Hword & Hne & Hsp & Hval).
  unfold check. rewrite Hlen.
  assert (Hwl : String.length word = String.length kw)
    by (now rewrite <- Hword, lower_length).
  rewrite strncasecmp_keyword by (now rewrite Hword, Hlow).
  cbn [Z.eqb negb]. rewrite <- Hwl, skip_append.
  rewrite (length_append word).
  replace (String.length word + String.length (white ++ value)
           - String.length word)%nat
    with (String.length (white ++ value)) by lia.
  rewrite whitesize_run by assumption.
  destruct white as [|w white]; [congruence|].
  cbn [String.length Nat.eqb].
  split; [lia|].
  replace (String.length word + S (String.length white))%nat
    with (String.length (word ++ String w white))
    by (rewrite length_append; reflexivity).
  rewrite append_assoc. apply skip_append.
Qed.

(** A line that starts with another letter is not a keyword line for
    [required]. *)
Lemma check_other_letter (line required : string) (size : nat) :
  (0 < strlen required)%nat ->
  Ascii.eqb (tolower (char_at line 0)) (tolower (char_at required 0)) = false ->
  check line size required = 0%nat.
Proof.
  intros Hlen Hc. unfold check.
  destruct (strlen required) as [|n]; [lia|].
  cbn [strncasecmp]. rewrite Hc. cbn [negb].
  destruct (_ =? 0) eqn:E; [|reflexivity].
  apply Z.eqb_eq in E. exfalso.
  apply Ascii.eqb_neq in Hc. apply Hc.
  unfold code in E.
  assert (E' : N_of_ascii (tolower (char_at line 0))
               = N_of_ascii (tolower (char_at required 0))) by lia.
  rewrite <- (ascii_N_embedding (tolower (char_at line 0))), E'.
  apply ascii_N_embedding.
Qed.

(** The converse: where [check] succeeds, the line is a keyword line. *)
Lemma code_inj (a b : ascii) : code a = code b -> a = b.
Proof.
  unfold code. intros H.
  rewrite <- (ascii_N_embedding a), <- (ascii_N_embedding b).
  f_equal. lia.
Qed.

Lemma strlen_cons (k : ascii) (kw : string) :
  strlen (String k kw) = String.length (String k kw) ->
  k <> NUL /\ strlen kw = String.length kw.
Proof.
  unfold strlen. cbn [c_str].
  destruct (Ascii.eqb_spec k NUL) as [->|Hk]; [discriminate|].
  cbn [String.length]. intros H. split; [assumption | lia].
Qed.

Lemma strncasecmp_zero (kw : string) : forall line : string,
  lower kw = kw -> strlen kw = String.length kw ->
  strncasecmp line kw (String.length kw) = 0 ->
  exists word rest,
    line = word ++ rest /\ lower word = kw /\
    String.length word = String.length kw.
Proof.
  induction kw as [|k kw IH]; intros line Hlow Hlen H.
  - exists "", line. repeat split.
  - apply strlen_cons in Hlen as [Hk Hlen].
    cbn [lower] in Hlow. injection Hlow as Hk' Hlow.
    cbn [String.length strncasecmp char_at skip] in H.
    destruct (Ascii.eqb_spec (tolower (char_at line 0)) (tolower k))
      as [E|E]; cbn [negb] in H.
    + rewrite Hk' in E.
      destruct line as [|l line].
      { vm_compute in E. unfold NUL in Hk. congruence. }
      cbn [char_at] in E, H.
      destruct (Ascii.eqb_spec (tolower l) NUL) as [E0|_]; [congruence|].
      cbn [skip] in H.
      destruct (IH line Hlow Hlen H) as (word & rest & -> & Hw & Hl).
      exists (String l word), rest. rewrite append_cons.
      repeat split.
      * cbn [lower]. congruence.
      * cbn [String.length]. congruence.
    + exfalso. apply E. apply code_inj. lia.
Qed.

Lemma whitesize_split (s : string) :
  exists white value,
    s = white ++ value /\
    String.length white = whitesize s (String.length s) /\
    all_space white = true /\
    isspace (char_at value 0) = false.
Proof.
  induction s as [|c s IH].
  - exists "", "". repeat split.
  - cbn [String.length whitesize char_at skip].
    destruct (isspace c) eqn:Ec.
    + destruct IH as (white & value & Hs & Hl & Ha & Hv).
      exists (String c white), value. rewrite append_cons.
      repeat split.
      * congruence.
      * cbn [String.length]. congruence.
      * cbn [all_space]. now rewrite Ec, Ha.
      * assumption.
    + exists "", (String c s). repeat split. exact Ec.
Qed.

Lemma check_positive (kw line : string) :
  lower kw = kw -> strlen kw = String.length kw ->
  (0 < check line (String.length line) kw)%nat ->
  exists value, keyword_line kw line value.
Proof.
  intros Hlow Hlen. unfold check. rewrite Hlen.
  destruct (Z.eqb_spec (strncasecmp line kw (String.length kw)) 0)
    as [E|_]; cbn [negb]; [|lia].
  destruct (strncasecmp_zero kw line Hlow Hlen E)
    as (word & rest & -> & Hw & Hl).
  rewrite <- Hl, skip_append, length_append.
  replace (String.length word + String.length rest - String.length word)%nat
    with (String.length rest) by lia.
  destruct (whitesize_split rest) as (white & value & -> & Hwl & Ha & Hv).
  rewrite <- Hwl.
  destruct white as [|w white]; cbn [String.length Nat.eqb]; [lia|].
  intros _. exists value, word, (String w white).
  repeat split; try assumption. discriminate.
Qed.

Lemma check_zero (kw line : string) :
  lower kw = kw -> strlen kw = String.length kw ->
  (forall value, ~ keyword_line kw line value) ->
  check line (String.length line) kw = 0%nat.
Proof.
  intros Hlow Hlen Hno.
  destruct (check line (String.length line) kw) eqn:E; [reflexivity|].
  destruct (check_positive kw line Hlow Hlen) as [value Hv]; [lia|].
  exfalso. exact (Hno value Hv).
Qed.

(** The first letter of a keyword line is the first letter of the
    keyword, in either case. *)
Lemma keyword_line_first (k : ascii) (kw line value : string) :
  keyword_line (String k kw) line value ->
  line <> "" /\ tolower (char_at line 0) = k.
Proof.
  intros (word & white & -> & Hw & _).
  destruct word as [|w word]; [discriminate|].
  cbn [lower] in Hw. injection Hw as Hk _.
  rewrite append_cons. split; [discriminate | exact Hk].
Qed.

Lemma keyword_line_size (kw line value : string) :
  lower kw = kw -> strlen kw = String.length kw ->
  keyword_line kw line value ->
  (String.length line - check line (String.length line) kw)%nat
  = String.length value.
Proof.
  intros Hlow Hlen Hk.
  destruct (check_keyword_line kw line value Hlow Hlen Hk) as [Hpos Hskip].
  assert (Hle : forall n s, (String.length (skip n s)
                             = String.length s - n)%nat).
  { induction n as [|n IHn]; intros [|x s]; cbn [skip String.length];
      try lia. apply IHn. }
  rewrite <- Hskip, Hle. reflexivity.
Qed.

Lemma not_comment (line : string) (k : ascii) :
  tolower (char_at line 0) = k ->
  Ascii.eqb k "#" = false -> Ascii.eqb k ";" = false ->
  is_comment line = false.
Proof.
  intros Hk H1 H2. unfold is_comment.
  destruct (Ascii.eqb_spec (char_at line 0) "#") as [E|_].
  { rewrite E in Hk. subst k. discriminate. }
  destruct (Ascii.eqb_spec (char_at line 0) ";") as [E|_].
  { rewrite E in Hk. subst k. discriminate. }
  reflexivity.
Qed.

(** ** The loops end within the rounds they are given *)

(** More rounds than the line has bytes do not change what [linesize]
    counts. *)
Lemma linesize_loop_rounds (line : string) (size : nat) (fuel : nat) :
  forall (trim extra : nat),
    (size - trim <= fuel)%nat ->
    linesize_loop line size trim (fuel + extra)
    = linesize_loop line size trim fuel.
Proof.
  induction fuel as [|fuel IH]; intros trim extra Hle.
  - destruct extra as [|extra]; [reflexivity|].
    cbn [Nat.add linesize_loop].
    destruct (Nat.ltb_spec trim size); [lia | reflexivity].
  - cbn [Nat.add linesize_loop].
    destruct ((trim <? size)%nat && isspace (char_at line (size - 1 - trim)))
      eqn:E; [|reflexivity].
    apply IH. apply andb_true_iff in E as [E _]. apply Nat.ltb_lt in E. lia.
Qed.

Lemma length_skip (n : nat) : forall s : string,
  String.length (skip n s) = (String.length s - n)%nat.
Proof.
  induction n as [|n IH]; intros [|c s]; cbn [skip String.length];
    try lia. apply IH.
Qed.

Lemma strchr_lt (c : ascii) : forall (s : string) (k : nat),
  strchr s c = Some k -> (k < String.length s)%nat.
Proof.
  induction s as [|x s IH]; intros k H; cbn [strchr] in H; [discriminate|].
  cbn [String.length].
  destruct (Ascii.eqb x c); [injection H as <-; lia|].
  destruct (Ascii.eqb x NUL); [discriminate|].
  destruct (strchr s c) as [k'|]; [|discriminate].
  injection H as <-. specialize (IH k' eq_refl). lia.
Qed.

(** [options] gives its loop one round more than the line has bytes;
    further rounds would not change the result. *)
Lemma options_loop_rounds (line : string) (size : nat) (fuel : nat) :
  forall (start : nat) (space : option nat) (c : t) (extra : nat),
    (String.length line - start < fuel)%nat ->
    match space with
    | Some sp => (start <= sp < String.length line)%nat
    | None => True
    end ->
    options_loop line size start space (fuel + extra) c
    = options_loop line size start space fuel c.
Proof.
  induction fuel as [|fuel IH]; intros start space c extra Hfuel Hspace;
    [lia|].
  cbn [Nat.add options_loop].
  destruct space as [sp|]; [|reflexivity].
  apply IH; [lia|].
  destruct (strchr (skip (S sp) line) " ") as [k|] eqn:E; cbn; [|trivial].
  apply strchr_lt in E. rewrite length_skip in E. lia.
Qed.

Lemma options_rounds (line : string) (size : nat) (c : t) (extra : nat) :
  options_loop line size 0 (strchr line " ")
               (S (String.length line) + extra) c
  = options line size c.
Proof.
  unfold options. apply options_loop_rounds; [lia|].
  destruct (strchr line " ") as [k|] eqn:E; [|trivial].
  apply strchr_lt in E. lia.
Qed.

Lemma findwhite_lt : forall (size : nat) (line : string) (p : nat),
  findwhite line size = Some p -> (p < size)%nat.
Proof.
  induction size as [|size IH]; intros line p H; cbn [findwhite] in H;
    [discriminate|].
  destruct (isspace (char_at line 0)); [injection H as <-; lia|].
  destruct (findwhite (skip 1 line) size) as [p'|] eqn:E; [|discriminate].
  injection H as <-. specialize (IH _ _ E). lia.
Qed.

Lemma findwhite_zero (size : nat) (line : string) :
  findwhite line size = Some 0%nat -> (1 <= whitesize line size)%nat.
Proof.
  destruct size as [|size]; cbn [findwhite whitesize]; [discriminate|].
  destruct (isspace (char_at line 0)); [lia|].
  destruct (findwhite (skip 1 line) size); discriminate.
Qed.

(** Every round of [search] consumes a byte, so the rounds that it is
    given suffice. *)
Lemma search_loop_rounds (fuel : nat) :
  forall (line : string) (size : nat) (paths : list string) (extra : nat),
    (size < fuel)%nat ->
    search_loop line size (fuel + extra) paths
    = search_loop line size fuel paths.
Proof.
  induction fuel as [|fuel IH]; intros line size paths extra Hfuel; [lia|].
  cbn [Nat.add search_loop].
  destruct (size =? 0)%nat eqn:E0; [reflexivity|].
  apply Nat.eqb_neq in E0.
  destruct (findwhite line size) as [p|] eqn:Ep; [|reflexivity].
  apply IH.
  pose proof (findwhite_lt _ _ _ Ep) as Hp.
  destruct p as [|p]; [|lia].
  apply findwhite_zero in Ep. cbn [skip]. rewrite Nat.sub_0_r. lia.
Qed.

(** ** The values stay below their caps *)

Lemma option_capped (opt : string) (size : nat) (c : t) :
  capped c -> capped (option_ opt size c).
Proof.
  unfold capped, option_. intros (H1 & H2 & H3).
  repeat match goal with
         | |- context [if ?b then _ else _] => destruct b
         end; cbn; repeat split; try assumption; apply Z.le_min_l.
Qed.

Lemma options_loop_capped (line : string) (size fuel : nat) :
  forall (start : nat) (space : option nat) (c : t),
    capped c -> capped (options_loop line size start space fuel c).
Proof.
  induction fuel as [|fuel IH]; intros start space c Hc; cbn; [assumption|].
  destruct space as [sp|].
  - apply IH, option_capped, Hc.
  - apply option_capped, Hc.
Qed.

Section WithCollaborators.

Variable Ip_of_string : string -> result Ip.t.
Variable localdomain : string.

Lemma parse_capped (line : string) (size : nat) (c c' : t) :
  capped c -> parse Ip_of_string line size c = Ok c' -> capped c'.
Proof.
  unfold parse. intros Hc.
  destruct (_ || _ || _); [intros [= <-]; assumption|].
  destruct (0 <? check line size "nameserver")%nat.
  { unfold nameserver. destruct (Ip_of_string _); intros [= <-]. exact Hc. }
  destruct (0 <? check line size "options")%nat.
  { intros [= <-]. apply options_loop_capped, Hc. }
  destruct (0 <? check line size "domain")%nat; [discriminate|].
  destruct (0 <? check line size "search")%nat; [|discriminate].
  intros [= <-]. exact Hc.
Qed.

Lemma read_lines_capped (filename : string) (strict : bool)
    (lines : list string) : forall c c' : t,
  capped c ->
  read_lines Ip_of_string filename strict lines c = Ok c' -> capped c'.
Proof.
  induction lines as [|line lines IH]; intros c c' Hc H; cbn in H.
  - now inversion H; subst.
  - destruct (parse _ _ _ c) as [c1|what] eqn:E.
    + eapply IH; [|exact H]. eapply parse_capped; eauto.
    + destruct strict; [discriminate|]. eapply IH; eauto.
Qed.

Lemma initial_capped : capped initial.
Proof. unfold capped; cbn; lia. Qed.

Lemma ResolvConf_capped (filename : string) (strict : bool)
    (file : option (list string)) (c : t) :
  ResolvConf Ip_of_string localdomain filename strict file = Ok c ->
  capped c.
Proof.
  unfold ResolvConf. destruct file as [lines|]; [|discriminate].
  destruct (read_lines _ _ _ _ _) as [c1|what] eqn:E; [|discriminate].
  apply read_lines_capped in E; [|apply initial_capped].
  repeat match goal with
         | |- context [if ?b then _ else _] => destruct b
         end; intros H; inversion H; subst; assumption.
Qed.

End WithCollaborators.

(** C6, as stated, fails: the values are capped from above only, so an
    options line can store values below the ranges. *)
Lemma options_below_range :
  (exists c,
      ResolvConf no_address "" "/etc/resolv.conf" true
        (Some ["options timeout:0 attempts:-1 ndots:-4"]) = Ok c /\
      _timeout c = 0 /\ _attempts c = -1 /\ _ndots c = -4) /\
  ~ (forall (Ip_of_string : string -> result Ip.t) (localdomain : string)
            (filename : string) (strict : bool)
            (file : option (list string)) (c : t),
        ResolvConf Ip_of_string localdomain filename strict file = Ok c ->
        in_ranges c).
Proof.
  split.
  - eexists. split; [vm_compute; reflexivity|]. repeat split.
  - intros H.
    specialize (H no_address "" "/etc/resolv.conf" true
                  (Some ["options timeout:0 attempts:-1 ndots:-4"]) _
                  eq_refl).
    unfold in_ranges in H. vm_compute in H.
    destruct H as [[H _] _]. apply H. reflexivity.
Qed.

(** C6, amended. For every parsed resolv.conf, timeout is at most 30,
    attempts at most 5 and ndots at most 15; for the text N of an
    [options timeout:N] (attempts:N, ndots:N) token the stored value is
    min(30, atoi(N)) (min(5, ..), min(15, ..)). No lower bound is
    enforced. *)
Theorem values_capped (Ip_of_string : string -> result Ip.t)
    (localdomain filename : string) (strict : bool)
    (file : option (list string)) (c : t) :
  ResolvConf Ip_of_string localdomain filename strict file = Ok c ->
  capped c /\
  (forall (N : string) (c0 : t),
      option_ ("timeout:" ++ N) (String.length ("timeout:" ++ N)) c0
      = set_timeout (Z.min 30 (atoi N)) c0 /\
      option_ ("attempts:" ++ N) (String.length ("attempts:" ++ N)) c0
      = set_attempts (Z.min 5 (atoi N)) c0 /\
      option_ ("ndots:" ++ N) (String.length ("ndots:" ++ N)) c0
      = set_ndots (Z.min 15 (atoi N)) c0).
Proof.
  intros H. split; [eapply ResolvConf_capped; eauto|].
  intros N c0. repeat split; reflexivity.
Qed.

Lemma values_capped_witness :
  ResolvConf no_address "" "/etc/resolv.conf" true
    (Some ["options timeout:99 attempts:3"])
  = Ok (set_attempts 3 (set_timeout 30 initial)) /\
  capped (set_attempts 3 (set_timeout 30 initial)).
Proof.
  split; [reflexivity|].
  apply (values_capped no_address "" "/etc/resolv.conf" true
           (Some ["options timeout:99 attempts:3"])).
  reflexivity.
Defined.

(** C7 fails on the code: [strncmp(option, "rotate", 7)] compares the
    terminator as well, and the bytes at [option] run to the end of the
    line, not to the end of the token. A rotate token that another
    option follows is therefore not recognised. *)
Theorem rotate_before_other_option_lost
    (Ip_of_string : string -> result Ip.t) (localdomain : string)
    (strict : bool) :
  exists c,
    ResolvConf Ip_of_string localdomain "/etc/resolv.conf" strict
      (Some ["options rotate timeout:3"]) = Ok c /\
    _rotate c = false /\ _timeout c = 3.
Proof.
  unfold ResolvConf.
  change (read_lines Ip_of_string "/etc/resolv.conf" strict
            ["options rotate timeout:3"] initial)
    with (Ok (A := t) (set_timeout 3 initial)).
  cbn [negb _searchpaths set_timeout initial length Nat.eqb].
  destruct (strlen localdomain =? 0)%nat; eexists; repeat split.
Qed.

(** The same token in the last position is recognised. *)
Example rotate_last_found :
  parse no_address "options timeout:3 rotate" 24 initial
  = Ok (set_rotate true (set_timeout 3 initial)).
Proof. reflexivity. Qed.

(** ** Lines *)

Lemma parse_guard (line : string) :
  line <> "" -> is_comment line = false ->
  (String.length line =? 0)%nat || Ascii.eqb (char_at line 0) ";"
    || Ascii.eqb (char_at line 0) "#" = false.
Proof.
  unfold is_comment. intros Hne Hc.
  apply orb_false_iff in Hc as [H1 H2]. rewrite H1, H2.
  destruct line; [congruence | reflexivity].
Qed.

(** The steps that every keyword case shares: the guard of [parse] is
    passed, and the checks of keywords with another first letter fail. *)
Ltac keyword_case Hk :=
  let Hne := fresh "Hne" in
  let Hfirst := fresh "Hfirst" in
  let Hpos := fresh "Hpos" in
  let Hskip := fresh "Hskip" in
  let Hsize := fresh "Hsize" in
  destruct (keyword_line_first _ _ _ _ Hk) as [Hne Hfirst];
  destruct (check_keyword_line _ _ _ eq_refl eq_refl Hk) as [Hpos Hskip];
  pose proof (keyword_line_size _ _ _ eq_refl eq_refl Hk) as Hsize;
  unfold parse; cbv zeta;
  rewrite parse_guard
    by (first [ assumption
              | eapply not_comment; [exact Hfirst | reflexivity | reflexivity] ]);
  repeat (rewrite check_other_letter
            by (try (vm_compute; lia); rewrite Hfirst; reflexivity);
          change (0 <? 0)%nat with false; cbv iota);
  apply Nat.ltb_lt in Hpos; rewrite Hpos, Hskip, Hsize.

Section Lines.

Variable Ip_of_string : string -> result Ip.t.

Lemma parse_comment (line : string) (c : t) :
  is_comment line = true ->
  parse Ip_of_string line (String.length line) c = Ok c.
Proof.
  unfold is_comment, parse. intros H.
  apply orb_true_iff in H as [H|H]; rewrite H;
    rewrite ?orb_true_r; reflexivity.
Qed.

Lemma parse_nameserver (line value : string) (c : t) :
  keyword_line "nameserver" line value ->
  parse Ip_of_string line (String.length line) c
  = nameserver Ip_of_string value (String.length value) c.
Proof. intros Hk. keyword_case Hk. reflexivity. Qed.

Lemma parse_options (line value : string) (c : t) :
  keyword_line "options" line value ->
  parse Ip_of_string line (String.length line) c
  = Ok (options value (String.length value) c).
Proof. intros Hk. keyword_case Hk. reflexivity. Qed.

Lemma parse_domain (line value : string) (c : t) :
  keyword_line "domain" line value ->
  parse Ip_of_string line (String.length line) c
  = Throw ("not implemented: domain " ++ c_str value).
Proof. intros Hk. keyword_case Hk. reflexivity. Qed.

Lemma parse_search (line value : string) (c : t) :
  keyword_line "search" line value ->
  parse Ip_of_string line (String.length line) c
  = Ok (search value (String.length value) c).
Proof. intros Hk. keyword_case Hk. reflexivity. Qed.

Lemma parse_unrecognized (line : string) (c : t) :
  unrecognized line ->
  parse Ip_of_string line (String.length line) c
  = Throw ("unrecognized: " ++ c_str line).
Proof.
  intros (Hne & Hc & Hno). unfold parse.
  rewrite parse_guard by assumption.
  rewrite !check_zero;
    try reflexivity; intros value; apply Hno; unfold keywords; cbn; tauto.
Qed.

End Lines.

(** C8, as stated, fails: a domain line is a keyword line, and it raises;
    in strict mode the constructor fails on it. *)
Lemma domain_line_raises :
  keyword_line "domain" "domain example.com" "example.com" /\
  ResolvConf no_address "" "/etc/resolv.conf" true
    (Some ["domain example.com"])
  = Throw "/etc/resolv.conf: not implemented: domain example.com" /\
  ~ keyword_lines_accepted.
Proof.
  assert (Hk : keyword_line "domain" "domain example.com" "example.com").
  { exists "domain", " ". repeat split. discriminate. }
  split; [exact Hk|]. split; [reflexivity|].
  intros H.
  specialize (H no_address "domain" "domain example.com" "example.com"
                initial).
  assert (Hin : In "domain" keywords) by (cbn; tauto).
  specialize (H Hin Hk). discriminate H.
Qed.

(** C8, amended. The parser ignores every empty line and every line
    that starts with # or ;. A line whose first word is, in any case,
    options or search, followed by white space and a value, is accepted
    without raising, in strict mode too; such a nameserver line is
    accepted exactly when its value converts to an Ip, and raises the
    error of the conversion otherwise; such a domain line raises "not
    implemented: domain " and its value; an unrecognized line raises
    "unrecognized: " and the text of the line (no line number). In
    strict mode a raised error ends the parse with the file name and
    ": " in front of the message; in lenient mode the line is skipped
    and the parse goes on with the next line. *)
Theorem line_cases (Ip_of_string : string -> result Ip.t)
    (filename : string) (strict : bool) (line : string)
    (rest : list string) (c : t) :
  let run := read_lines Ip_of_string filename strict (line :: rest) c in
  let continue := read_lines Ip_of_string filename strict rest in
  let raise := fun what : string =>
    if strict then Throw (filename ++ ": " ++ what) else continue c in
  (trimmed line = "" \/ is_comment (trimmed line) = true ->
   run = continue c) /\
  (forall value, keyword_line "options" (trimmed line) value ->
     run = continue (options value (String.length value) c)) /\
  (forall value, keyword_line "search" (trimmed line) value ->
     run = continue (search value (String.length value) c)) /\
  (forall value, keyword_line "nameserver" (trimmed line) value ->
     run = match Ip_of_string (c_str value) with
           | Ok ip => continue (add_nameserver ip c)
           | Throw what => raise what
           end) /\
  (forall value, keyword_line "domain" (trimmed line) value ->
     run = raise ("not implemented: domain " ++ c_str value)) /\
  (unrecognized (trimmed line) ->
     run = raise ("unrecognized: " ++ c_str (trimmed line))).
Proof.
  cbv zeta. cbn [read_lines]. repeat split.
  - intros [Hempty|Hcomment].
    + rewrite Hempty. reflexivity.
    + rewrite parse_comment by assumption. reflexivity.
  - intros value Hk. rewrite (parse_options _ _ value) by assumption.
    reflexivity.
  - intros value Hk. rewrite (parse_search _ _ value) by assumption.
    reflexivity.
  - intros value Hk. rewrite (parse_nameserver _ _ value) by assumption.
    unfold nameserver. destruct (Ip_of_string (c_str value)); reflexivity.
  - intros value Hk. rewrite (parse_domain _ _ value) by assumption.
    reflexivity.
  - intros Hu. rewrite parse_unrecognized by assumption. reflexivity.
Qed.

Lemma line_cases_witness :
  keyword_line "domain" (trimmed "domain example.com  ") "example.com" /\
  read_lines no_address "/etc/resolv.conf" false
    ["domain example.com  "; "OPTIONS   ndots:2"] initial
  = Ok (set_ndots 2 initial) /\
  read_lines no_address "/etc/resolv.conf" true
    ["domain example.com  "; "OPTIONS   ndots:2"] initial
  = Throw "/etc/resolv.conf: not implemented: domain example.com".
Proof.
  assert (Hk : keyword_line "domain" (trimmed "domain example.com  ")
                 "example.com").
  { exists "domain", " ". repeat split. discriminate. }
  split; [exact Hk|]. split.
  - rewrite (proj1 (proj2 (proj2 (proj2 (proj2
               (line_cases no_address "/etc/resolv.conf" false
                  "domain example.com  " ["OPTIONS   ndots:2"] initial)))))
               "example.com" Hk).
    reflexivity.
  - rewrite (proj1 (proj2 (proj2 (proj2 (proj2
               (line_cases no_address "/etc/resolv.conf" true
                  "domain example.com  " ["OPTIONS   ndots:2"] initial)))))
               "example.com" Hk).
    reflexivity.
Defined.

(** A line of another form is unrecognized. *)
Example bogus_unrecognized :
  read_lines no_address "/etc/resolv.conf" true ["sortlist 10.0.0.0"] initial
  = Throw "/etc/resolv.conf: unrecognized: sortlist 10.0.0.0".
Proof. reflexivity. Qed.

End ResolvConfFacts.

(* ===================================================================== *)
(** * Theorems: matching a response                                       *)
(* ===================================================================== *)

Module MatchingFacts.
Import CString Query Matching Samples.
Local Open Scope string_scope.
Local Open Scope Z_scope.

Section Generic.

Context {Name : Type}.
Variable Decompressed : list Z -> nat -> nat -> option (Name * nat).
Variable ns_samename : Name -> Name -> Z.

Local Abbreviation contains := (contains Decompressed ns_samename).
Local Abbreviation contains_loop := (contains_loop Decompressed ns_samename).
Local Abbreviation matches := (matches Decompressed ns_samename).
Local Abbreviation matches_loop := (matches_loop Decompressed ns_samename).
Local Abbreviation questions_from := (questions_from Decompressed).
Local Abbreviation question_section := (question_section Decompressed).
Local Abbreviation same_question := (same_question ns_samename).
Local Abbreviation occurs_in := (occurs_in Decompressed ns_samename).

(** A name that cannot be read stays unreadable in every later round:
    the catch block does not move [current]. *)
Lemma contains_loop_stuck (q : Query.t) (record : Question Name)
    (current : nat) (n : nat) :
  Decompressed (_buffer q) (_size q) current = None ->
  contains_loop q record n current = false.
Proof.
  intros H. induction n as [|n IH]; cbn; [reflexivity|].
  rewrite H. exact IH.
Qed.

(** The loop of [contains] finds the record exactly when an equal
    question is among those of the section. *)
Lemma contains_loop_spec (q : Query.t) (record : Question Name) (n : nat) :
  forall current : nat,
    contains_loop q record n current
    = existsb (fun asked => same_question asked record)
              (questions_from q n current).
Proof.
  induction n as [|n IH]; intros current; cbn [contains_loop Matching.questions_from];
    [reflexivity|].
  destruct (Decompressed (_buffer q) (_size q) current)
    as [[qname consumed]|] eqn:E.
  - destruct (_ <? 4); [reflexivity|].
    cbn [existsb]. unfold Matching.same_question at 1.
    cbn [type dnsclass name].
    destruct (ns_get16 (_buffer q) (current + consumed) =? type record);
      cbn [negb andb orb]; [|apply IH].
    destruct (ns_get16 (_buffer q) (current + consumed + 2)
              =? dnsclass record);
      cbn [negb andb orb]; [|apply IH].
    destruct (0 <? ns_samename qname (name record));
      cbn [orb]; [reflexivity | apply IH].
  - apply contains_loop_stuck, E.
Qed.

Lemma contains_spec (q : Query.t) (record : Question Name) :
  contains q record = true <->
  exists asked, In asked (question_section q) /\
                same_question asked record = true.
Proof.
  unfold Matching.contains, Matching.question_section.
  rewrite contains_loop_spec. apply existsb_exists.
Qed.

Lemma matches_loop_spec (q : Query.t) (response : Response Name)
    (n : nat) : forall i : nat,
  matches_loop q response n i = true <->
  Forall (occurs_in q response) (seq i n).
Proof.
  induction n as [|n IH]; intros i; cbn [Matching.matches_loop seq].
  - split; [constructor | reflexivity].
  - rewrite Forall_cons, <- IH. unfold Matching.occurs_in at 1.
    destruct (response_question response i) as [record|].
    + destruct (Matching.contains _ _ q record) eqn:E; cbn [negb].
      * apply contains_spec in E. split; [|tauto].
        intros H. split; [exists record; split; [reflexivity | exact E]
                         | exact H].
      * split; [discriminate|].
        intros [(record' & [= <-] & H) _].
        apply contains_spec in H. congruence.
    + split; [discriminate|]. intros [(record & H & _) _]. discriminate.
Qed.

Lemma matches_spec (q : Query.t) (response : Response Name) :
  matches q response = true <->
  response_id response = id q /\
  ((response_opcode response = ns_o_update /\ opcode q = ns_o_update) \/
   (response_questions response = questions q /\
    Forall (occurs_in q response)
           (seq 0 (Z.to_nat (response_questions response))))).
Proof.
  unfold Matching.matches.
  destruct (Z.eqb_spec (response_id response) (id q)) as [Hid|Hid];
    cbn [negb]; [|split; [discriminate | tauto]].
  destruct (Z.eqb_spec (response_opcode response) ns_o_update) as [Ho|Ho];
    destruct (Z.eqb_spec (opcode q) ns_o_update) as [Hq|Hq];
    cbn [andb]; try (split; [tauto | reflexivity]);
    (destruct (Z.eqb_spec (response_questions response) (questions q))
       as [Hn|Hn];
     cbn [negb]; [rewrite matches_loop_spec; tauto|];
     split; [discriminate | tauto]).
Qed.

(** C1. Query::matches(response) returns true if and only if the
    response id equals the query id and either both opcodes are UPDATE,
    or the response has as many questions as the query and every
    question of the response (name compared by ns_samename, that is
    without regard to case, type and class compared exactly) occurs in
    the query. On every pair that fails one of these conditions it
    returns false. *)
Theorem matches_iff (q : Query.t) (response : Response Name) :
  let accepted :=
    response_id response = id q /\
    ((response_opcode response = ns_o_update /\ opcode q = ns_o_update) \/
     (response_questions response = questions q /\
      Forall (occurs_in q response)
             (seq 0 (Z.to_nat (response_questions response))))) in
  (matches q response = true <-> accepted) /\
  (matches q response = false <-> ~ accepted).
Proof.
  cbv zeta. rewrite <- matches_spec.
  destruct (Matching.matches _ _ q response); split; split; congruence.
Qed.

End Generic.

End MatchingFacts.
(* ===================================================================== *)
(** * Theorems: the buffer of a query                                     *)
(* ===================================================================== *)

Module BufferFacts.
Import CString Query Layout.
Local Open Scope Z_scope.

(** ** Stores *)

Lemma length_store (bytes : list Z) : forall (buf : list Z) (pos : nat),
  length (store buf pos bytes) = length buf.
Proof.
  induction bytes as [|b bytes IH]; intros buf pos; cbn [store];
    [reflexivity|].
  rewrite IH. apply length_insert.
Qed.

(** A store behind a prefix replaces what follows the prefix. *)
Lemma store_app_r (bytes : list Z) : forall pre zs : list Z,
  (length bytes <= length zs)%nat ->
  store (pre ++ zs) (length pre) bytes
  = pre ++ bytes ++ drop (length bytes) zs.
Proof.
  induction bytes as [|b bytes IH]; intros pre zs Hlen; cbn [store].
  - rewrite drop_0. reflexivity.
  - destruct zs as [|z zs]; [cbn in Hlen; lia|].
    cbn [length] in Hlen.
    replace (<[length pre := b]> (pre ++ z :: zs))
      with ((pre ++ [b]) ++ zs).
    + replace (S (length pre)) with (length (pre ++ [b]))
        by (rewrite length_app; cbn; lia).
      rewrite IH by lia. rewrite <- app_assoc. reflexivity.
    + rewrite <- app_assoc. cbn [app].
      rewrite insert_app_r_alt, Nat.sub_diag by lia. reflexivity.
Qed.

(** A store inside a prefix leaves what follows the prefix. *)
Lemma store_app_l (bytes : list Z) : forall (l1 l2 : list Z) (pos : nat),
  (pos + length bytes <= length l1)%nat ->
  store (l1 ++ l2) pos bytes = store l1 pos bytes ++ l2.
Proof.
  induction bytes as [|b bytes IH]; intros l1 l2 pos Hlen; cbn [store];
    [reflexivity|].
  cbn [length] in Hlen.
  rewrite insert_app_l by lia.
  apply IH. rewrite length_insert. lia.
Qed.

Lemma byte_at_app_l (l1 l2 : list Z) (i : nat) :
  (i < length l1)%nat -> byte_at (l1 ++ l2) i = byte_at l1 i.
Proof. intros H. unfold byte_at. now rewrite lookup_app_l. Qed.

Lemma ns_get16_app_l (l1 l2 : list Z) (i : nat) :
  (S i < length l1)%nat -> ns_get16 (l1 ++ l2) i = ns_get16 l1 i.
Proof.
  intros H. unfold ns_get16. now rewrite !byte_at_app_l by lia.
Qed.

Lemma ns_get16_app_r (l1 l2 : list Z) (i : nat) :
  ns_get16 (l1 ++ l2) (length l1 + i) = ns_get16 l2 i.
Proof.
  unfold ns_get16, byte_at.
  replace (S (length l1 + i)) with (length l1 + S i)%nat by lia.
  now rewrite !lookup_app_r, !Nat.add_sub' by lia.
Qed.

(** [ns_get16] reads what [be16] wrote. *)
Lemma ns_get16_be16 (v : Z) (rest : list Z) :
  ns_get16 (be16 v ++ rest) 0 = v mod 65536.
Proof.
  unfold ns_get16, byte_at, be16. cbn [app lookup list_lookup default].
  cbv [Datatypes.id]. change 65536 with (256 * 256).
  rewrite Z.rem_mul_r by lia. lia.
Qed.

Lemma length_be16 (v : Z) : length (be16 v) = 2%nat.
Proof. reflexivity. Qed.

Lemma length_be32 (v : Z) : length (be32 v) = 4%nat.
Proof. reflexivity. Qed.

(** ** Steps of the constructor on a laid out query *)

Section Steps.

Variable capacity : nat.
Variable EDNSPacketSize : Z.
Variables (hdr body : list Z).
Hypothesis Hhdr : length hdr = 12%nat.

Lemma remaining_layout :
  remaining capacity (layout capacity hdr body)
  = (capacity - (12 + length body))%nat.
Proof. reflexivity. Qed.

Lemma append_layout (bytes : list Z) :
  (12 + length body + length bytes <= capacity)%nat ->
  append bytes (layout capacity hdr body)
  = layout capacity hdr (body ++ bytes).
Proof.
  intros Hfit. unfold append, layout. cbn [_buffer _size].
  replace (12 + length body + length bytes)%nat
    with (12 + length (body ++ bytes))%nat by (rewrite length_app; lia).
  f_equal.
  rewrite (app_assoc hdr body).
  replace (12 + length body)%nat with (length (hdr ++ body))
    by (rewrite length_app; lia).
  rewrite store_app_r by (rewrite length_replicate, length_app; lia).
  rewrite drop_replicate.
  replace (capacity - length (hdr ++ body) - length bytes)%nat
    with (capacity - (12 + length (body ++ bytes)))%nat
    by (rewrite !length_app; lia).
  rewrite <- !app_assoc. reflexivity.
Qed.

Lemma put8_layout (v : Z) :
  (12 + length body + 1 <= capacity)%nat ->
  put8 v (layout capacity hdr body) = layout capacity hdr (body ++ [v]).
Proof.
  intros Hfit. rewrite <- append_layout by (cbn [length]; lia).
  unfold put8, append. cbn [store length]. f_equal. lia.
Qed.

Lemma put16_layout (v : Z) :
  put16 capacity v (layout capacity hdr body)
  = if (capacity - (12 + length body) <? 2)%nat
    then Throw "buffer overflow"
    else Ok (layout capacity hdr (body ++ be16 v)).
Proof.
  unfold put16. rewrite remaining_layout.
  destruct (Nat.ltb_spec (capacity - (12 + length body)) 2);
    [reflexivity|].
  rewrite append_layout by (rewrite length_be16; lia). reflexivity.
Qed.

Lemma put32_layout (v : Z) :
  put32 capacity v (layout capacity hdr body)
  = if (capacity - (12 + length body) <? 4)%nat
    then Throw "buffer overflow"
    else Ok (layout capacity hdr (body ++ be32 v)).
Proof.
  unfold put32. rewrite remaining_layout.
  destruct (Nat.ltb_spec (capacity - (12 + length body)) 4);
    [reflexivity|].
  rewrite append_layout by (rewrite length_be32; lia). reflexivity.
Qed.

Lemma add_name_layout (what name : string) :
  (12 + length body <= capacity)%nat ->
  add_name capacity what name (layout capacity hdr body)
  = match encode_name name with
    | None => Throw what
    | Some wire =>
        if (length wire <=? capacity - (12 + length body))%nat
        then Ok (layout capacity hdr (body ++ wire))
        else Throw what
    end.
Proof.
  intros Hvalid. unfold add_name, Compressor_add.
  rewrite remaining_layout.
  destruct (encode_name name) as [wire|]; [|reflexivity].
  destruct (Nat.leb_spec (length wire) (capacity - (12 + length body)));
    [|reflexivity].
  rewrite append_layout by lia. reflexivity.
Qed.

Lemma set_header_layout (pos : nat) (bytes : list Z) :
  (pos + length bytes <= 12)%nat ->
  Build (store (_buffer (layout capacity hdr body)) pos bytes)
        (_size (layout capacity hdr body))
  = layout capacity (store hdr pos bytes) body.
Proof.
  intros Hpos. unfold layout. cbn [_buffer _size].
  rewrite store_app_l by lia. reflexivity.
Qed.

Lemma arcount_layout :
  arcount (layout capacity hdr body) = ns_get16 hdr 10.
Proof.
  unfold arcount, layout. cbn [_buffer].
  apply ns_get16_app_l. lia.
Qed.

Lemma questions_layout :
  questions (layout capacity hdr body) = ns_get16 hdr 4.
Proof.
  unfold questions, layout. cbn [_buffer].
  apply ns_get16_app_l. lia.
Qed.

Lemma id_layout : id (layout capacity hdr body) = ns_get16 hdr 0.
Proof.
  unfold id, layout. cbn [_buffer]. apply ns_get16_app_l. lia.
Qed.

Lemma opcode_layout :
  opcode (layout capacity hdr body)
  = Z.land (Z.shiftr (byte_at hdr 2) 3) 15.
Proof.
  unfold opcode, layout. cbn [_buffer].
  rewrite byte_at_app_l by lia. reflexivity.
Qed.

Lemma written_layout :
  (12 + length body <= capacity)%nat ->
  written (layout capacity hdr body) = hdr ++ body.
Proof.
  intros Hfit. unfold written, layout. cbn [_buffer _size].
  rewrite app_assoc.
  apply take_app_length'. rewrite length_app. lia.
Qed.

End Steps.

(** ** The same steps with any bytes behind the end *)

Lemma layout_placed (capacity : nat) (hdr body : list Z) :
  layout capacity hdr body
  = placed hdr body (replicate (capacity - (12 + length body)) 0).
Proof. reflexivity. Qed.

Section Behind.

Variable capacity : nat.
Variable EDNSPacketSize : Z.
Variables (hdr body behind : list Z).
Hypothesis Hhdr : length hdr = 12%nat.
Hypothesis Hcap : capacity = (12 + length body + length behind)%nat.

Lemma remaining_placed :
  remaining capacity (placed hdr body behind) = length behind.
Proof. unfold remaining, placed. cbn [_size]. lia. Qed.

Lemma append_placed (bytes : list Z) :
  (length bytes <= length behind)%nat ->
  append bytes (placed hdr body behind)
  = placed hdr (body ++ bytes) (drop (length bytes) behind).
Proof.
  clear Hcap.
  intros Hfit. unfold append, placed. cbn [_buffer _size].
  replace (12 + length body + length bytes)%nat
    with (12 + length (body ++ bytes))%nat by (rewrite length_app; lia).
  f_equal.
  rewrite (app_assoc hdr body).
  replace (12 + length body)%nat with (length (hdr ++ body))
    by (rewrite length_app; lia).
  rewrite store_app_r by assumption.
  rewrite <- !app_assoc. reflexivity.
Qed.

(** The compressor writes a name at the end and leaves the end where it
    is. *)
Lemma write_placed (wire : list Z) :
  (length wire <= length behind)%nat ->
  Build (store (_buffer (placed hdr body behind))
               (_size (placed hdr body behind)) wire)
        (_size (placed hdr body behind))
  = placed hdr body (wire ++ drop (length wire) behind).
Proof.
  clear Hcap.
  intros Hfit. unfold placed. cbn [_buffer _size]. f_equal.
  rewrite (app_assoc hdr body).
  replace (12 + length body)%nat with (length (hdr ++ body))
    by (rewrite length_app; lia).
  rewrite store_app_r by assumption.
  rewrite <- !app_assoc. reflexivity.
Qed.

Lemma put8_placed (v : Z) :
  (1 <= length behind)%nat ->
  put8 v (placed hdr body behind)
  = placed hdr (body ++ [v]) (drop 1 behind).
Proof.
  clear Hcap.
  intros Hfit.
  transitivity (append [v] (placed hdr body behind)).
  - unfold put8, append. cbn [store length]. f_equal. lia.
  - apply (append_placed [v]). cbn [length]. lia.
Qed.

Lemma put16_placed (v : Z) :
  put16 capacity v (placed hdr body behind)
  = if (length behind <? 2)%nat
    then Throw "buffer overflow"
    else Ok (placed hdr (body ++ be16 v) (drop 2 behind)).
Proof.
  unfold put16. rewrite remaining_placed.
  destruct (Nat.ltb_spec (length behind) 2); [reflexivity|].
  rewrite append_placed by (rewrite length_be16; lia). reflexivity.
Qed.

Lemma put32_placed (v : Z) :
  put32 capacity v (placed hdr body behind)
  = if (length behind <? 4)%nat
    then Throw "buffer overflow"
    else Ok (placed hdr (body ++ be32 v) (drop 4 behind)).
Proof.
  unfold put32. rewrite remaining_placed.
  destruct (Nat.ltb_spec (length behind) 4); [reflexivity|].
  rewrite append_placed by (rewrite length_be32; lia). reflexivity.
Qed.

Lemma set_header_placed (pos : nat) (bytes : list Z) :
  (pos + length bytes <= 12)%nat ->
  Build (store (_buffer (placed hdr body behind)) pos bytes)
        (_size (placed hdr body behind))
  = placed (store hdr pos bytes) body behind.
Proof.
  clear Hcap.
  intros Hpos. unfold placed. cbn [_buffer _size].
  rewrite store_app_l by lia. reflexivity.
Qed.

Lemma arcount_placed :
  arcount (placed hdr body behind) = ns_get16 hdr 10.
Proof.
  clear Hcap.
  unfold arcount, placed. cbn [_buffer]. apply ns_get16_app_l. lia.
Qed.

Lemma questions_placed :
  questions (placed hdr body behind) = ns_get16 hdr 4.
Proof.
  clear Hcap.
  unfold questions, placed. cbn [_buffer]. apply ns_get16_app_l. lia.
Qed.

Lemma id_placed : id (placed hdr body behind) = ns_get16 hdr 0.
Proof.
  clear Hcap.
  unfold id, placed. cbn [_buffer]. apply ns_get16_app_l. lia.
Qed.

Lemma opcode_placed :
  opcode (placed hdr body behind)
  = Z.land (Z.shiftr (byte_at hdr 2) 3) 15.
Proof.
  clear Hcap.
  unfold opcode, placed. cbn [_buffer].
  rewrite byte_at_app_l by lia. reflexivity.
Qed.

Lemma written_placed : written (placed hdr body behind) = hdr ++ body.
Proof.
  clear Hcap.
  unfold written, placed. cbn [_buffer _size].
  rewrite app_assoc.
  apply take_app_length'. rewrite length_app. lia.
Qed.

End Behind.

(** The four numbers of a record, ten bytes, are written or the first
    that does not fit throws. *)
Lemma record_placed {B : Type} (capacity : nat) (hdr body behind : list Z)
    (a b c d : Z) (k : Query.t -> result B) :
  length hdr = 12%nat ->
  capacity = (12 + length body + length behind)%nat ->
  (do q <- put16 capacity a (placed hdr body behind) ;
   do q <- put16 capacity b q ;
   do q <- put32 capacity c q ;
   do q <- put16 capacity d q ;
   k q)
  = if (length behind <? 10)%nat
    then Throw "buffer overflow"
    else k (placed hdr (body ++ be16 a ++ be16 b ++ be32 c ++ be16 d)
                   (drop 10 behind)).
Proof.
  intros Hhdr Hcap. rewrite put16_placed by assumption.
  destruct (Nat.ltb_spec (length behind) 2) as [H1|H1]; cbn [bind].
  { destruct (Nat.ltb_spec (length behind) 10); [reflexivity | lia]. }
  rewrite (put16_placed capacity hdr (body ++ be16 a) (drop 2 behind))
    by (try assumption; rewrite length_app, length_drop, length_be16; lia).
  rewrite length_drop.
  destruct (Nat.ltb_spec (length behind - 2) 2) as [H2|H2]; cbn [bind].
  { destruct (Nat.ltb_spec (length behind) 10); [reflexivity | lia]. }
  rewrite (put32_placed capacity hdr ((body ++ be16 a) ++ be16 b)
             (drop 2 (drop 2 behind)))
    by (try assumption;
        rewrite !length_app, !length_drop, !length_be16; lia).
  rewrite !length_drop.
  destruct (Nat.ltb_spec (length behind - 2 - 2) 4) as [H3|H3]; cbn [bind].
  { destruct (Nat.ltb_spec (length behind) 10); [reflexivity | lia]. }
  rewrite (put16_placed capacity hdr
             (((body ++ be16 a) ++ be16 b) ++ be32 c)
             (drop 4 (drop 2 (drop 2 behind))))
    by (try assumption;
        rewrite !length_app, !length_drop, !length_be16, length_be32; lia).
  rewrite !length_drop.
  destruct (Nat.ltb_spec (length behind - 2 - 2 - 4) 2) as [H4|H4];
    cbn [bind].
  { destruct (Nat.ltb_spec (length behind) 10); [reflexivity | lia]. }
  destruct (Nat.ltb_spec (length behind) 10); [lia|].
  rewrite !drop_drop, <- !app_assoc. reflexivity.
Qed.


(** ** The constructor, step by step *)

Lemma encode_name_length (dname : string) (wire : list Z) :
  encode_name dname = Some wire -> (1 <= length wire <= 255)%nat.
Proof.
  unfold encode_name.
  destruct (forallb _ _); cbn [andb]; [|discriminate].
  destruct (Nat.leb_spec (length (wire_name (map bytes_of
              (labels_of (c_str dname))))) 255); [|discriminate].
  intros [= <-]. split; [|assumption].
  unfold wire_name. rewrite length_app. cbn [length]. lia.
Qed.

Lemma header_setup (capacity : nat) (rid op : Z) (bits : Bits.t) :
  (12 <= capacity)%nat -> op = NS_NOTIFY_OP \/ op = QUERY ->
  set_id rid
    (set_rcode ns_r_noerror
       (set_cd (Bits.CD bits)
          (set_ad (Bits.AD bits)
             (set_rd (RD bits)
                (set_opcode op (Build (replicate capacity 0) HFIXEDSZ))))))
  = layout capacity (header_bytes rid op bits 0 0) [].
Proof.
  intros Hcap Hop.
  replace capacity with (12 + (capacity - 12))%nat at 1 by lia.
  rewrite replicate_add. unfold header_bytes, layout.
  change (capacity - (12 + length (@nil Z)))%nat with (capacity - 12)%nat.
  generalize (replicate (capacity - 12) 0). intros zeros.
  destruct (RD bits), (Bits.AD bits), (Bits.CD bits);
    destruct Hop as [-> | ->]; reflexivity.
Qed.

Lemma length_header_bytes (rid op : Z) (bits : Bits.t) (qd ar : Z) :
  length (header_bytes rid op bits qd ar) = 12%nat.
Proof. reflexivity. Qed.

Lemma to_option_bind {A B : Type} (r : result A) (k : A -> result B) :
  to_option (bind r k)
  = match r with Ok a => to_option (k a) | Throw _ => None end.
Proof. destruct r; reflexivity. Qed.

Section Constructor.

Variable capacity : nat.
Variable EDNSPacketSize : Z.

(** The question: name, type and class. *)
Lemma question_step {B : Type} (hdr : list Z) (dname : string) (type : Z)
    (k : Query.t -> result B) :
  length hdr = 12%nat -> (12 <= capacity)%nat ->
  to_option
    (do q <- add_name capacity "failed domain name compression" dname
               (layout capacity hdr []) ;
     do q <- put16 capacity type q ;
     do q <- put16 capacity ns_c_in q ;
     k q)
  = match encode_name dname with
    | Some wire =>
        if (12 + length (question_bytes wire type) <=? capacity)%nat
        then to_option (k (layout capacity hdr (question_bytes wire type)))
        else None
    | None => None
    end.
Proof.
  intros Hhdr Hcap.
  rewrite add_name_layout by (cbn [length]; lia).
  destruct (encode_name dname) as [wire|]; [|reflexivity].
  set (fit := (12 + length (question_bytes wire type) <=? capacity)%nat).
  assert (Hfit : fit = true <-> (12 + length wire + 4 <= capacity)%nat).
  { unfold fit, question_bytes.
    rewrite Nat.leb_le, !length_app, !length_be16. lia. }
  clearbody fit. change (length (@nil Z)) with 0%nat. cbn [app].
  destruct (Nat.leb_spec (length wire) (capacity - (12 + 0))) as [H1|H1];
    cbn [bind].
  2:{ destruct fit; [pose proof (proj1 Hfit eq_refl); lia | reflexivity]. }
  rewrite put16_layout by assumption.
  destruct (Nat.ltb_spec (capacity - (12 + length wire)) 2) as [H2|H2];
    cbn [bind].
  { destruct fit; [pose proof (proj1 Hfit eq_refl); lia | reflexivity]. }
  rewrite put16_layout by assumption.
  rewrite length_app, length_be16.
  destruct (Nat.ltb_spec (capacity - (12 + (length wire + 2))) 2)
    as [H3|H3]; cbn [bind].
  { destruct fit; [pose proof (proj1 Hfit eq_refl); lia | reflexivity]. }
  assert (fit = true) as -> by (apply Hfit; lia).
  unfold question_bytes. rewrite <- app_assoc. reflexivity.
Qed.

(** The bytes behind the end keep their number through every step. *)
Ltac behind_length :=
  rewrite ?length_app, ?length_drop, ?length_replicate, ?length_be16,
    ?length_be32;
  cbn [length]; lia.

(** The data of a NOTIFY: the name is written, and the record is
    written over it. *)
Lemma data_step {B : Type} (hdr body : list Z) (op : Z)
    (data : option string) (k : Query.t -> result B) :
  length hdr = 12%nat -> (12 + length body <= capacity)%nat ->
  to_option (do q <- add_data capacity op data
                       (layout capacity hdr body) ; k q)
  = match data_record op data (capacity - (12 + length body)) with
    | Some (extra, behind) =>
        to_option
          (k (placed (if has_data op data then store hdr 10 (be16 1)
                      else hdr)
                     (body ++ extra) behind))
    | None => None
    end.
Proof.
  intros Hhdr Hvalid. unfold add_data, data_record, data_name, has_data.
  destruct (op =? QUERY); cbn [negb andb bind].
  { rewrite app_nil_r. reflexivity. }
  destruct data as [name|]; cbn [bind].
  2:{ rewrite app_nil_r. reflexivity. }
  rewrite bool_decide_eq_true_2 by eauto.
  unfold Compressor_add. rewrite remaining_layout.
  set (room := (capacity - (12 + length body))%nat).
  destruct (encode_name name) as [wire|]; [|reflexivity].
  destruct (Nat.leb_spec (length wire) room) as [Hw|Hw];
    cbn [andb]; [|reflexivity].
  rewrite layout_placed. fold room. cbv zeta.
  rewrite write_placed by (try assumption; behind_length).
  rewrite drop_replicate.
  set (behind := wire ++ replicate (room - length wire) 0).
  assert (Hb : length behind = room) by (unfold behind; behind_length).
  rewrite (record_placed capacity) by (try assumption; unfold room in *; lia).
  rewrite Hb.
  destruct (Nat.ltb_spec room 10) as [Hr|Hr];
    destruct (Nat.leb_spec 10 room) as [Hr'|Hr']; try lia; [reflexivity|].
  unfold set_arcount. rewrite set_header_placed by (assumption || (cbn; lia)).
  reflexivity.
Qed.

(** The OPT record, where eleven bytes are left. *)
Lemma edns_step (hdr body behind : list Z) (dnssec : bool) :
  length hdr = 12%nat ->
  capacity = (12 + length body + length behind)%nat ->
  let fits := (11 <=? length behind)%nat in
  edns capacity EDNSPacketSize dnssec (placed hdr body behind)
  = Ok (fits,
        placed
          (if fits then store hdr 10 (be16 (ns_get16 hdr 10 + 1))
           else hdr)
          (body ++ if fits then opt_bytes EDNSPacketSize dnssec else [])
          (if fits then drop 11 behind else behind)).
Proof.
  intros Hhdr Hcap. cbv zeta. unfold edns.
  rewrite (remaining_placed capacity) by assumption.
  destruct (Nat.ltb_spec (length behind) 11) as [H|H].
  { destruct (Nat.leb_spec 11 (length behind)); [lia|].
    rewrite app_nil_r. reflexivity. }
  destruct (Nat.leb_spec 11 (length behind)); [|lia].
  rewrite put8_placed by (assumption || lia).
  repeat (first [ rewrite (put16_placed capacity)
                    by (try assumption; behind_length)
                | rewrite put8_placed
                    by (try assumption; behind_length) ];
          try (rewrite (proj2 (Nat.ltb_ge _ _)) by behind_length);
          cbn [bind]).
  rewrite arcount_placed by assumption.
  unfold set_arcount. rewrite set_header_placed by (assumption || (cbn; lia)).
  rewrite !drop_drop. unfold opt_bytes. rewrite <- !app_assoc.
  reflexivity.
Qed.

End Constructor.

(** ** The constructor builds the expected query *)

Lemma length_data_record (op : Z) (data : option string) (room : nat)
    (extra behind : list Z) :
  data_record op data room = Some (extra, behind) ->
  (length extra + length behind)%nat = room.
Proof.
  unfold data_record.
  destruct (data_name op data) as [name|].
  - destruct (encode_name name) as [wire|]; [|discriminate].
    destruct (Nat.leb_spec (length wire) room); cbn [andb]; [|discriminate].
    destruct (Nat.leb_spec 10 room); [|discriminate].
    intros [= <- <-]. change (length null_record) with 10%nat.
    rewrite length_drop, length_app, length_replicate. lia.
  - intros [= <- <-]. rewrite length_replicate. reflexivity.
Qed.

Lemma Query_small_capacity (capacity : nat) (EDNSPacketSize rid op : Z)
    (dname : string) (type : Z) (bits : Bits.t) (data : option string) :
  (capacity < 12)%nat ->
  to_option (Query capacity EDNSPacketSize rid op dname type bits data)
  = None.
Proof.
  intros Hcap. unfold Query.
  destruct ((type <? 0) || (65535 <? type)); [reflexivity|].
  destruct (negb _); [reflexivity|].
  rewrite to_option_bind. unfold add_name, Compressor_add, remaining.
  change (_size (set_id _ _)) with 12%nat.
  destruct (encode_name dname) as [wire|] eqn:E; [|reflexivity].
  apply encode_name_length in E.
  destruct (Nat.leb_spec (length wire) (capacity - 12)); [lia | reflexivity].
Qed.

Theorem Query_expected (capacity : nat) (EDNSPacketSize rid op : Z)
    (dname : string) (type : Z) (bits : Bits.t) (data : option string) :
  to_option (Query capacity EDNSPacketSize rid op dname type bits data)
  = expected capacity EDNSPacketSize rid op dname type bits data.
Proof.
  destruct (Nat.le_gt_cases 12 capacity) as [Hcap|Hcap].
  2:{ rewrite Query_small_capacity by assumption.
      unfold expected.
      destruct ((type <? 0) || (65535 <? type)); [reflexivity|].
      destruct (negb _); [reflexivity|].
      destruct (encode_name dname) as [wire|]; [|reflexivity].
      cbv zeta.
      destruct (Nat.leb_spec (12 + length (question_bytes wire type))
                  capacity); [lia | reflexivity]. }
  unfold Query, expected.
  destruct ((type <? 0) || (65535 <? type)); [reflexivity|].
  destruct (Z.eqb_spec op NS_NOTIFY_OP) as [Hn|Hn];
    destruct (Z.eqb_spec op QUERY) as [Hq|Hq];
    cbn [orb negb]; try reflexivity.
  all: assert (Hop : op = NS_NOTIFY_OP \/ op = QUERY) by tauto.
  all: rewrite header_setup by assumption.
  all: rewrite question_step by (reflexivity || assumption).
  all: destruct (encode_name dname) as [wire|]; [|reflexivity].
  all: cbv zeta.
  all: destruct (Nat.leb_spec (12 + length (question_bytes wire type))
                   capacity) as [Hq1|Hq1]; cbn [negb]; [|reflexivity].
  all: unfold set_qdcount;
    rewrite set_header_layout by (cbn; lia);
    rewrite data_step by (reflexivity || assumption);
    destruct (data_record op data
                (capacity - (12 + length (question_bytes wire type))))
      as [[extra behind]|] eqn:Ed; [|reflexivity];
    apply length_data_record in Ed;
    rewrite to_option_bind, edns_step
      by (try (destruct (has_data op data); reflexivity);
          rewrite length_app; lia);
    cbn [to_option snd];
    rewrite <- app_assoc;
    destruct (has_data op data), (11 <=? length behind)%nat;
    destruct Hop as [-> | ->]; reflexivity.
Qed.

End BufferFacts.

(* ===================================================================== *)
(** * Theorems: constructed queries                                       *)
(* ===================================================================== *)

Module QueryFacts.
Import CString Query Matching Layout BufferFacts MatchingFacts Samples.
Local Open Scope Z_scope.

(** ** Names: what was encoded is read back *)

Lemma length_wire_name (labels : list (list Z)) :
  (length labels < length (wire_name labels))%nat.
Proof.
  unfold wire_name. rewrite length_app. cbn [length].
  induction labels as [|l labels IH]; cbn [flat_map length]; [lia|].
  rewrite length_app. cbn [length]. lia.
Qed.

Lemma wire_name_cons (l : list Z) (labels : list (list Z)) :
  wire_name (l :: labels) = Z.of_nat (length l) :: l ++ wire_name labels.
Proof.
  unfold wire_name. cbn [flat_map]. rewrite <- app_assoc. reflexivity.
Qed.

Lemma read_labels_wire (labels : list (list Z)) :
  forallb label_ok labels = true ->
  forall (rest : list Z) (fuel : nat),
    (length labels < fuel)%nat ->
    read_labels (wire_name labels ++ rest) fuel
    = Some (labels, length (wire_name labels)).
Proof.
  induction labels as [|l labels IH]; intros Hok rest fuel Hfuel.
  - destruct fuel; [cbn in Hfuel; lia|]. reflexivity.
  - cbn [forallb] in Hok. apply andb_true_iff in Hok as [Hl Hok].
    unfold label_ok in Hl. apply andb_true_iff in Hl as [Hl1 Hl2].
    apply Nat.leb_le in Hl1, Hl2.
    destruct fuel as [|fuel]; [lia|]. cbn [length] in Hfuel.
    rewrite wire_name_cons. cbn [app read_labels].
    destruct (Z.eqb_spec (Z.of_nat (length l)) 0); [lia|].
    destruct (Z.ltb_spec (Z.of_nat (length l)) 0); [lia|].
    destruct (Z.ltb_spec 63 (Z.of_nat (length l))); [lia|].
    cbn [orb]. rewrite Nat2Z.id, <- app_assoc.
    destruct (Nat.ltb_spec (length (l ++ wire_name labels ++ rest))
                (length l)) as [Hshort|_];
      [rewrite length_app in Hshort; lia|].
    rewrite drop_app_length, take_app_length.
    rewrite IH by (assumption || lia).
    cbn [length]. rewrite length_app. reflexivity.
Qed.

(** [Decompressed_labels] gives the loop one round more than there are
    bytes; every round consumes a byte, so further rounds change
    nothing. *)
Lemma read_labels_rounds (fuel : nat) :
  forall (bytes : list Z) (extra : nat),
    (length bytes < fuel)%nat ->
    read_labels bytes (fuel + extra) = read_labels bytes fuel.
Proof.
  induction fuel as [|fuel IH]; intros bytes extra Hfuel; [lia|].
  cbn [Nat.add read_labels].
  destruct bytes as [|len rest]; [reflexivity|].
  destruct (len =? 0); [reflexivity|].
  destruct ((len <? 0) || (63 <? len)); [reflexivity|].
  destruct (length rest <? Z.to_nat len)%nat; [reflexivity|].
  rewrite IH; [reflexivity|].
  rewrite length_drop. cbn [length] in Hfuel. lia.
Qed.

Lemma encode_name_labels (dname : string) (wire : list Z) :
  encode_name dname = Some wire ->
  wire = wire_name (labels_of_name dname) /\
  forallb label_ok (labels_of_name dname) = true.
Proof.
  unfold encode_name, labels_of_name.
  destruct (forallb label_ok _) eqn:E; cbn [andb]; [|discriminate].
  destruct (_ <=? 255)%nat; [|discriminate].
  intros [= <-]. split; reflexivity.
Qed.

(** ** What a constructed query looks like *)

(** A query is constructed exactly when one is expected, and it is the
    expected one. *)
Lemma Query_ok_expected (capacity : nat) (EDNSPacketSize rid op : Z)
    (dname : string) (type : Z) (bits : Bits.t) (data : option string)
    (q : Query.t) :
  Query capacity EDNSPacketSize rid op dname type bits data = Ok q <->
  expected capacity EDNSPacketSize rid op dname type bits data = Some q.
Proof.
  rewrite <- Query_expected.
  destruct (Query _ _ _ _ _ _ _ _) as [q'|what]; cbn [to_option];
    split; congruence.
Qed.


(** The constructed query in full: header, question, what the data
    adds, the OPT record where it fits, and the bytes behind the end. *)
Lemma constructed_exact (capacity : nat) (EDNSPacketSize rid op : Z)
    (dname : string) (type : Z) (bits : Bits.t) (data : option string)
    (q : Query.t) :
  Query capacity EDNSPacketSize rid op dname type bits data = Ok q ->
  0 <= type <= 65535 /\ (op = NS_NOTIFY_OP \/ op = QUERY) /\
  exists wire extra behind,
    encode_name dname = Some wire /\
    (12 + length (question_bytes wire type) <= capacity)%nat /\
    data_record op data (capacity - (12 + length (question_bytes wire type)))
    = Some (extra, behind) /\
    q = placed
          (header_bytes rid op bits 1
             (Z.b2z (has_data op data)
              + Z.b2z (11 <=? length behind)%nat))
          (question_bytes wire type ++ extra ++
           if (11 <=? length behind)%nat
           then opt_bytes EDNSPacketSize (Bits.dnssec bits) else [])
          (if (11 <=? length behind)%nat then drop 11 behind else behind).
Proof.
  rewrite Query_ok_expected. unfold expected.
  destruct (Z.ltb_spec type 0); cbn [orb]; [discriminate|].
  destruct (Z.ltb_spec 65535 type); [discriminate|].
  destruct (Z.eqb_spec op NS_NOTIFY_OP) as [Hn|Hn];
    destruct (Z.eqb_spec op QUERY) as [Hq|Hq];
    cbn [orb negb]; try discriminate.
  all: destruct (encode_name dname) as [wire|]; [|discriminate].
  all: cbv zeta.
  all: destruct (Nat.leb_spec (12 + length (question_bytes wire type))
                   capacity) as [Hfit|Hfit]; cbn [negb]; [|discriminate].
  all: destruct (data_record op data _) as [[extra behind]|] eqn:Ed;
    [|discriminate].
  all: intros Heq; apply (inj Some) in Heq; subst q.
  all: split; [split; assumption|]; split; [tauto|].
  all: exists wire, extra, behind; repeat split; assumption.
Qed.

(** The shape of every constructed query: the header with one question,
    then the question, then whatever follows. *)
Lemma constructed_shape (capacity : nat) (EDNSPacketSize rid op : Z)
    (dname : string) (type : Z) (bits : Bits.t) (data : option string)
    (q : Query.t) :
  Query capacity EDNSPacketSize rid op dname type bits data = Ok q ->
  0 <= type <= 65535 /\ (op = NS_NOTIFY_OP \/ op = QUERY) /\
  exists wire tail behind records,
    encode_name dname = Some wire /\
    q = placed (header_bytes rid op bits 1 records)
               (question_bytes wire type ++ tail) behind.
Proof.
  intros H.
  destruct (constructed_exact _ _ _ _ _ _ _ _ _ H)
    as (Htype & Hop & wire & extra & behind & Hw & _ & _ & ->).
  split; [assumption|]. split; [assumption|].
  eexists wire, _, _, _. split; [exact Hw | reflexivity].
Qed.

Lemma ns_get16_at (pre : list Z) (v : Z) (post : list Z) (n : nat) :
  n = length pre -> ns_get16 (pre ++ be16 v ++ post) n = v mod 65536.
Proof.
  intros ->. replace (length pre) with (length pre + 0)%nat by lia.
  rewrite ns_get16_app_r. apply ns_get16_be16.
Qed.

Lemma header_fields (rid op : Z) (bits : Bits.t) (records : Z) :
  op = NS_NOTIFY_OP \/ op = QUERY ->
  ns_get16 (header_bytes rid op bits 1 records) 4 = 1 /\
  Z.land (Z.shiftr (byte_at (header_bytes rid op bits 1 records) 2) 3) 15
  = op.
Proof.
  intros Hop. split; [reflexivity|].
  destruct (RD bits) eqn:E; destruct Hop as [-> | ->];
    unfold header_bytes; rewrite E; reflexivity.
Qed.

(** The question section of a placed query holds the one question
    that was encoded. *)
Lemma question_section_placed (rid op : Z)
    (dname : string) (type : Z) (bits : Bits.t) (records : Z)
    (wire tail behind : list Z) :
  op = NS_NOTIFY_OP \/ op = QUERY ->
  0 <= type <= 65535 ->
  encode_name dname = Some wire ->
  question_section Decompressed_labels
    (placed (header_bytes rid op bits 1 records)
            (question_bytes wire type ++ tail) behind)
  = [BuildQuestion (labels_of_name dname) type ns_c_in].
Proof.
  intros Hop Htype Henc.
  destruct (encode_name_labels dname wire Henc) as [-> Hok].
  unfold question_section.
  rewrite questions_placed by reflexivity.
  rewrite (proj1 (header_fields rid op bits records Hop)).
  set (hdr := header_bytes rid op bits 1 records).
  assert (Hhdr : length hdr = 12%nat) by reflexivity.
  change (Z.to_nat 1) with 1%nat. cbn [questions_from].
  unfold Decompressed_labels.
  change (take (_size ?q) (_buffer ?q)) with (written q).
  rewrite written_placed by assumption.
  rewrite (drop_app_length' hdr) by (symmetry; exact Hhdr).
  unfold question_bytes at 1 2. rewrite <- !app_assoc.
  rewrite read_labels_wire; [|assumption|].
  2:{ pose proof (length_wire_name (labels_of_name dname)).
      rewrite length_app. lia. }
  unfold placed at 1. cbn [_size].
  destruct (Z.ltb_spec
              (Z.of_nat (12 + length (question_bytes
                  (wire_name (labels_of_name dname)) type ++ tail))
               - Z.of_nat (HFIXEDSZ + length (wire_name (labels_of_name dname))))
              4) as [Hbad|_].
  { unfold question_bytes, HFIXEDSZ in Hbad.
    rewrite !length_app, !length_be16 in Hbad. lia. }
  f_equal. unfold placed. cbn [_buffer]. unfold question_bytes.
  rewrite <- !app_assoc.
  f_equal.
  - rewrite (app_assoc hdr).
    rewrite ns_get16_at
      by (rewrite length_app, Hhdr; reflexivity).
    apply Z.mod_small. lia.
  - rewrite (app_assoc hdr), (app_assoc (hdr ++ _) (be16 type)).
    rewrite ns_get16_at
      by (rewrite !length_app, Hhdr, length_be16; unfold HFIXEDSZ; lia).
    reflexivity.
Qed.

(** Every constructed query asks the one question it was made for, has
    the opcode it was made with, and that opcode is not UPDATE. *)
Lemma constructed_question (capacity : nat) (EDNSPacketSize rid op : Z)
    (dname : string) (type : Z) (bits : Bits.t) (data : option string)
    (q : Query.t) :
  Query capacity EDNSPacketSize rid op dname type bits data = Ok q ->
  question_section Decompressed_labels q
  = [BuildQuestion (labels_of_name dname) type ns_c_in] /\
  questions q = 1 /\
  opcode q = op /\ (op = NS_NOTIFY_OP \/ op = QUERY).
Proof.
  intros H.
  destruct (constructed_shape _ _ _ _ _ _ _ _ _ H)
    as (Htype & Hop & wire & tail & behind & records & Henc & ->).
  split; [apply question_section_placed; assumption|].
  rewrite questions_placed, opcode_placed by reflexivity.
  destruct (header_fields rid op bits records Hop) as [H1 H2].
  repeat split; assumption.
Qed.

(** ** The sections of a constructed query *)

Lemma read_question_bytes (labels : list (list Z)) (type : Z)
    (rest : list Z) :
  forallb label_ok labels = true -> 0 <= type <= 65535 ->
  read_question (question_bytes (wire_name labels) type ++ rest)
  = Some (BuildQuestion labels type ns_c_in, rest).
Proof.
  intros Hok Htype. unfold read_question, question_bytes.
  rewrite <- !app_assoc.
  rewrite read_labels_wire; [|assumption|].
  2:{ pose proof (length_wire_name labels). rewrite length_app. lia. }
  rewrite drop_app_length.
  change (length (be16 type ++ be16 ns_c_in ++ rest) <? 4)%nat with false.
  cbv iota. rewrite ns_get16_be16, Z.mod_small by lia.
  reflexivity.
Qed.

Lemma read_record_opt (EDNSPacketSize : Z) (dnssec : bool) :
  exists r,
    read_record (opt_bytes EDNSPacketSize dnssec) = Some (r, []) /\
    is_opt EDNSPacketSize dnssec r = true.
Proof.
  exists (BuildRecord [] TYPE_OPT (ns_get16 (be16 EDNSPacketSize ++ []) 0)
            [0; 0; if dnssec then 128 else 0; 0] []).
  split; [destruct dnssec; reflexivity|].
  unfold is_opt. cbn [owner rtype rclass rttl rdata].
  rewrite ns_get16_be16, !Z.eqb_refl.
  destruct dnssec; reflexivity.
Qed.

(** The sections of a placed query with one question: the question is
    read, and the records are read from what follows it. *)
Lemma sections_placed (rid op : Z) (bits : Bits.t) (records : Z)
    (labels : list (list Z)) (type : Z) (tail behind : list Z) :
  op = NS_NOTIFY_OP \/ op = QUERY ->
  forallb label_ok labels = true -> 0 <= type <= 65535 ->
  0 <= records <= 2 ->
  sections (placed (header_bytes rid op bits 1 records)
                   (question_bytes (wire_name labels) type ++ tail) behind)
  = match read_records (Z.to_nat records) tail with
    | Some (rs, []) => Some ([BuildQuestion labels type ns_c_in], rs)
    | _ => None
    end.
Proof.
  intros Hop Hok Htype Hrec.
  set (hdr := header_bytes rid op bits 1 records).
  assert (Hhdr : length hdr = 12%nat) by reflexivity.
  unfold sections.
  rewrite questions_placed, arcount_placed, written_placed by assumption.
  change (ns_get16 hdr 4) with 1.
  rewrite (drop_app_length' hdr) by (symmetry; exact Hhdr).
  change (Z.to_nat 1) with 1%nat. cbn [read_questions].
  rewrite read_question_bytes by assumption.
  unfold placed. cbn [_buffer].
  rewrite !ns_get16_app_l by (rewrite Hhdr; lia).
  change (ns_get16 hdr 6) with 0. change (ns_get16 hdr 8) with 0.
  cbn [Z.eqb andb negb].
  assert (Har : ns_get16 hdr 10 = records).
  { assert (records = 0 \/ records = 1 \/ records = 2) as [->|[->| ->]]
      by lia; reflexivity. }
  rewrite Har. reflexivity.
Qed.

(** Without data of a NOTIFY the counts of the header match the body,
    and the OPT record is the one additional record where it fits. *)
Lemma sections_without_data (capacity : nat) (EDNSPacketSize rid op : Z)
    (dname : string) (type : Z) (bits : Bits.t) (data : option string)
    (q : Query.t) :
  Query capacity EDNSPacketSize rid op dname type bits data = Ok q ->
  has_data op data = false ->
  exists wire rs,
    encode_name dname = Some wire /\
    sections q
    = Some ([BuildQuestion (labels_of_name dname) type ns_c_in], rs) /\
    questions q = 1 /\
    arcount q = Z.of_nat (length rs) /\
    if (12 + length wire + 4 + 11 <=? capacity)%nat
    then exists r, rs = [r] /\
                   is_opt EDNSPacketSize (Bits.dnssec bits) r = true
    else rs = [].
Proof.
  intros H Hdata.
  destruct (constructed_question _ _ _ _ _ _ _ _ _ H) as (_ & Hqd & _).
  destruct (constructed_exact _ _ _ _ _ _ _ _ _ H)
    as (Htype & Hop & wire & extra & behind & Hw & Hfit & Hd & Hq).
  destruct (encode_name_labels dname wire Hw) as [Hwire Hok].
  assert (Hnone : data_name op data = None).
  { unfold has_data in Hdata. unfold data_name.
    destruct (op =? QUERY); [reflexivity|]. cbn [negb andb] in Hdata.
    destruct data; [|reflexivity].
    rewrite bool_decide_eq_true_2 in Hdata by eauto. discriminate. }
  set (room := (capacity - (12 + length (question_bytes wire type)))%nat)
    in *.
  assert (Hiff : (11 <=? room)%nat
                 = (12 + length wire + 4 + 11 <=? capacity)%nat).
  { unfold room, question_bytes in *.
    rewrite !length_app, !length_be16 in *.
    destruct (Nat.leb_spec 11 (capacity - (12 + (length wire + (2 + 2)))));
      destruct (Nat.leb_spec (12 + length wire + 4 + 11) capacity);
      try reflexivity; lia. }
  clearbody room.
  unfold data_record in Hd. rewrite Hnone in Hd.
  apply (inj Some) in Hd. apply pair_equal_spec in Hd as [<- <-].
  rewrite length_replicate, Hiff, Hdata in Hq.
  change (Z.b2z false + ?x) with x in Hq. rewrite app_nil_l in Hq.
  destruct (read_record_opt EDNSPacketSize (Bits.dnssec bits))
    as (ropt & Hropt & Hisopt).
  subst wire.
  destruct (_ <=? capacity)%nat eqn:Efit.
  - exists (wire_name (labels_of_name dname)), [ropt]. split; [exact Hw|].
    split; [|split; [exact Hqd|split]].
    + subst q. rewrite sections_placed by (assumption || (cbn; lia)).
      change (Z.to_nat (Z.b2z true)) with 1%nat.
      cbn [read_records]. rewrite Hropt. reflexivity.
    + subst q. rewrite arcount_placed by reflexivity. reflexivity.
    + rewrite Efit. exists ropt. split; [reflexivity | exact Hisopt].
  - exists (wire_name (labels_of_name dname)), []. split; [exact Hw|].
    split; [|split; [exact Hqd|split]].
    + subst q. rewrite app_nil_r.
      rewrite <- (app_nil_r (question_bytes _ _)).
      rewrite sections_placed by (assumption || (cbn; lia)).
      reflexivity.
    + subst q. rewrite arcount_placed by reflexivity. reflexivity.
    + rewrite Efit. reflexivity.
Qed.

(** The ten bytes of a record without owner name do not read as a
    record, with or without the OPT record behind them. *)
Lemma read_records_null (EDNSPacketSize : Z) (dnssec : bool) :
  read_records 1 null_record = None /\
  read_records 2 (null_record ++ opt_bytes EDNSPacketSize dnssec) = None.
Proof. split; [reflexivity | destruct dnssec; reflexivity]. Qed.

(** With data of a NOTIFY the body does not hold the records that the
    header counts. *)
Lemma sections_with_data (capacity : nat) (EDNSPacketSize rid op : Z)
    (dname : string) (type : Z) (bits : Bits.t) (data : option string)
    (q : Query.t) :
  Query capacity EDNSPacketSize rid op dname type bits data = Ok q ->
  has_data op data = true ->
  exists wire,
    encode_name dname = Some wire /\
    (12 + length wire + 4 + 10 <= capacity)%nat /\
    let fits := (12 + length wire + 4 + 10 + 11 <=? capacity)%nat in
    written q
    = header_bytes rid op bits 1 (1 + Z.b2z fits)
      ++ question_bytes wire type ++ null_record
      ++ (if fits then opt_bytes EDNSPacketSize (Bits.dnssec bits) else [])
    /\ arcount q = 1 + Z.b2z fits
    /\ sections q = None.
Proof.
  intros H Hdata.
  destruct (constructed_exact _ _ _ _ _ _ _ _ _ H)
    as (Htype & Hop & wire & extra & behind & Hw & Hfit & Hd & Hq).
  destruct (encode_name_labels dname wire Hw) as [Hwire Hok].
  pose proof (length_data_record _ _ _ _ _ Hd) as Hlen.
  assert (Hextra : extra = null_record).
  { unfold has_data in Hdata. unfold data_record, data_name in Hd.
    destruct (op =? QUERY); [discriminate|]. cbn [negb andb] in Hdata.
    destruct data as [name|].
    - destruct (encode_name name); [|discriminate].
      destruct (_ && _); [|discriminate]. now injection Hd as <- _.
    - rewrite bool_decide_eq_false_2 in Hdata
        by (intros [x Hx]; discriminate).
      discriminate. }
  subst extra. change (length null_record) with 10%nat in Hlen.
  unfold question_bytes in Hfit, Hlen.
  rewrite !length_app, !length_be16 in Hfit, Hlen.
  exists wire. split; [exact Hw|]. split; [lia|]. cbv zeta.
  assert (Hiff : (11 <=? length behind)%nat
                 = (12 + length wire + 4 + 10 + 11 <=? capacity)%nat).
  { destruct (Nat.leb_spec 11 (length behind));
      destruct (Nat.leb_spec (12 + length wire + 4 + 10 + 11) capacity);
      try reflexivity; lia. }
  rewrite Hiff, Hdata in Hq. subst q. subst wire.
  rewrite written_placed, arcount_placed by reflexivity.
  split; [reflexivity|].
  destruct (read_records_null EDNSPacketSize (Bits.dnssec bits))
    as [Hnull Hboth].
  destruct (_ <=? capacity)%nat.
  - split; [reflexivity|].
    rewrite sections_placed by (assumption || (cbn; lia)).
    change (Z.to_nat (Z.b2z true + Z.b2z true)) with 2%nat.
    rewrite Hboth. reflexivity.
  - split; [reflexivity|].
    rewrite sections_placed by (assumption || (cbn; lia)).
    change (Z.to_nat (Z.b2z true + Z.b2z false)) with 1%nat.
    rewrite app_nil_r, Hnull. reflexivity.
Qed.

(** A query without data of a NOTIFY that has room for the OPT record
    satisfies the invariant of the specification. *)
Lemma invariant_without_data (capacity : nat)
    (EDNSPacketSize rid op : Z) (dname : string) (type : Z) (bits : Bits.t)
    (data : option string) (q : Query.t) :
  (282 <= capacity)%nat ->
  Query capacity EDNSPacketSize rid op dname type bits data = Ok q ->
  has_data op data = false ->
  invariant EDNSPacketSize (Bits.dnssec bits) q.
Proof.
  intros Hcap Hq Hdata.
  destruct (sections_without_data _ _ _ _ _ _ _ _ _ Hq Hdata)
    as (wire & rs & Hw & Hs & Hqd & Har & Hlast).
  apply encode_name_length in Hw.
  destruct (Nat.leb_spec (12 + length wire + 4 + 11) capacity); [|lia].
  destruct Hlast as (r & -> & Hopt).
  exists [BuildQuestion (labels_of_name dname) type ns_c_in], [r], r.
  repeat split; assumption.
Qed.

(** ** Failures of the constructor *)


Lemma has_data_name (op : Z) (data : option string) :
  has_data op data = bool_decide (is_Some (data_name op data)).
Proof.
  unfold has_data, data_name. destruct (op =? QUERY); cbn [negb andb].
  - symmetry. apply bool_decide_eq_false_2. intros [x Hx]. discriminate.
  - reflexivity.
Qed.

Lemma length_question_bytes (wire : list Z) (type : Z) :
  length (question_bytes wire type) = (length wire + 4)%nat.
Proof. unfold question_bytes. rewrite !length_app, !length_be16. lia. Qed.

(** The conditions under which a query is expected. *)
Lemma expected_conditions (capacity : nat) (EDNSPacketSize rid op : Z)
    (dname : string) (type : Z) (bits : Bits.t) (data : option string) :
  is_Some (expected capacity EDNSPacketSize rid op dname type bits data) <->
  0 <= type <= 65535 /\ (op = QUERY \/ op = NS_NOTIFY_OP) /\
  exists wire,
    encode_name dname = Some wire /\ (16 + length wire <= capacity)%nat /\
    match data_name op data with
    | None => True
    | Some name =>
        exists dwire,
          encode_name name = Some dwire /\
          (16 + length wire + length dwire <= capacity)%nat /\
          (16 + length wire + 10 <= capacity)%nat
    end.
Proof.
  unfold expected, data_record.
  destruct (Z.ltb_spec type 0) as [Ht1|Ht1]; cbn [orb].
  { split; [intros [x Hx]; discriminate | lia]. }
  destruct (Z.ltb_spec 65535 type) as [Ht2|Ht2].
  { split; [intros [x Hx]; discriminate | lia]. }
  destruct (Z.eqb_spec op NS_NOTIFY_OP) as [Hn|Hn];
    destruct (Z.eqb_spec op QUERY) as [Hq|Hq]; cbn [orb negb].
  4:{ split; [intros [x Hx]; discriminate | tauto]. }
  all: destruct (encode_name dname) as [wire|].
  all: try (split; [intros [x Hx]; discriminate
                   | intros (_ & _ & w & Hw & _); discriminate]).
  all: cbv zeta; rewrite length_question_bytes.
  all: destruct (Nat.leb_spec (12 + (length wire + 4)) capacity)
         as [Hfit|Hfit]; cbn [negb].
  all: try (split; [intros [x Hx]; discriminate
                   | intros (_ & _ & w & [= <-] & Hw & _); lia]).
  all: destruct (data_name op data) as [name|].
  all: try (split; [intros _ | eauto];
            split; [lia|]; split; [tauto|];
            exists wire; split; [reflexivity|]; split; [lia | exact I]).
  all: destruct (encode_name name) as [dwire|].
  all: try (split; [intros [x Hx]; discriminate
                   | intros (_ & _ & w & _ & _ & d & Hd & _); discriminate]).
  all: destruct (Nat.leb_spec (length dwire)
                   (capacity - (12 + (length wire + 4)))) as [Hd|Hd];
    cbn [andb].
  all: try (split; [intros [x Hx]; discriminate
                   | intros (_ & _ & w & [= <-] & _ & d & [= <-] & Hd' & _);
                     lia]).
  all: destruct (Nat.leb_spec 10 (capacity - (12 + (length wire + 4))))
         as [Hr|Hr].
  all: try (split; [intros [x Hx]; discriminate
                   | intros (_ & _ & w & [= <-] & _ & d & [= <-] & _ & Hr');
                     lia]).
  all: split; [intros _ | eauto].
  all: split; [lia|]; split; [tauto|].
  all: exists wire; split; [reflexivity|]; split; [lia|].
  all: exists dwire; split; [reflexivity|]; split; lia.
Qed.



(** ** The record of a NOTIFY with data *)

(** C5 fails on the code. For the data of a NOTIFY the constructor lets
    the compressor write the name at the end of the message and does not
    move the end behind it, as it does behind the name of the question
    ([_size += size]). Type, class, ttl and length are therefore written
    over the start of that name: the message holds a record of ten bytes
    without owner name. The header counts this record and the OPT
    record, but the bytes behind the question do not read as that many
    records, so the counts do not match the body, in any buffer and for
    every name. *)
Theorem notify_data_breaks_counts (capacity : nat)
    (EDNSPacketSize rid : Z) (dname : string) (type : Z) (bits : Bits.t)
    (name : string) (q : Query.t) :
  Query capacity EDNSPacketSize rid NS_NOTIFY_OP dname type bits (Some name)
  = Ok q ->
  exists wire,
    encode_name dname = Some wire /\
    let fits := (12 + length wire + 4 + 10 + 11 <=? capacity)%nat in
    written q
    = header_bytes rid NS_NOTIFY_OP bits 1 (1 + Z.b2z fits)
      ++ question_bytes wire type ++ null_record
      ++ (if fits then opt_bytes EDNSPacketSize (Bits.dnssec bits) else [])
    /\ arcount q = 1 + Z.b2z fits
    /\ sections q = None
    /\ ~ invariant EDNSPacketSize (Bits.dnssec bits) q.
Proof.
  intros H.
  assert (Hdata : has_data NS_NOTIFY_OP (Some name) = true).
  { unfold has_data. cbn [negb andb].
    change (NS_NOTIFY_OP =? QUERY) with false. cbn [negb andb].
    apply bool_decide_eq_true_2. eauto. }
  destruct (sections_with_data _ _ _ _ _ _ _ _ _ H Hdata)
    as (wire & Hw & _ & Hwritten & Har & Hs).
  exists wire. split; [exact Hw|]. cbv zeta.
  split; [exact Hwritten|]. split; [exact Har|]. split; [exact Hs|].
  intros (qs & rs & r & Hsome & _). congruence.
Qed.

Lemma notify_data_breaks_counts_witness :
  exists q,
    notify_net = Ok q /\
    _size q = 50%nat /\ arcount q = 2 /\ sections q = None /\
    drop 29 (written q)
    = null_record ++ opt_bytes advertised false.
Proof.
  destruct notify_net as [q|what] eqn:E; [|vm_compute in E; discriminate].
  exists q. split; [reflexivity|].
  destruct (notify_data_breaks_counts udp_capacity advertised 4660
              "example.com" 6 (Bits.Build 0) "example.net" q E)
    as (wire & Hw & Hwritten & Har & Hs & _).
  vm_compute in Hw. injection Hw as <-.
  split; [vm_compute in E; injection E as <-; reflexivity|].
  split; [exact Har|]. split; [exact Hs|].
  rewrite Hwritten. reflexivity.
Defined.

(** The same with the longest names that fit: the message has 292 bytes,
    and the bytes of the data name that the two records do not cover
    stay in the buffer behind its end. *)
Example notify_long_size :
  match notify_long with
  | Ok q => _size q = 292%nat /\ arcount q = 2 /\
            byte_at (_buffer q) 292 = 98
  | Throw _ => False
  end.
Proof. vm_compute. repeat split. Qed.

(** ** Responses to another query *)

(** C2. For two queries Q1 and Q2 whose questions differ (names that
    differ when case is ignored, or distinct types) and the response
    that is made of the question section of Q2, Q1.matches is false,
    whatever the transaction ids, equal ids included. *)
Theorem spoof_rejected (capacity : nat) (EDNSPacketSize : Z)
    (rid1 rid2 op1 op2 : Z) (dname1 dname2 : string) (type1 type2 : Z)
    (bits1 bits2 : Bits.t) (data1 data2 : option string)
    (q1 q2 : Query.t) :
  Query capacity EDNSPacketSize rid1 op1 dname1 type1 bits1 data1 = Ok q1 ->
  Query capacity EDNSPacketSize rid2 op2 dname2 type2 bits2 data2 = Ok q2 ->
  name_key (labels_of_name dname1) <> name_key (labels_of_name dname2)
  \/ type1 <> type2 ->
  matches Decompressed_labels samename_labels q1
          (synth Decompressed_labels q2) = false.
Proof.
  intros H1 H2 Hdiff.
  destruct (constructed_question _ _ _ _ _ _ _ _ _ H1)
    as (Hs1 & Hn1 & Ho1 & Hop1).
  destruct (constructed_question _ _ _ _ _ _ _ _ _ H2)
    as (Hs2 & Hn2 & Ho2 & Hop2).
  unfold matches, synth.
  cbn [response_id response_opcode response_questions response_question].
  destruct (Query.id q2 =? Query.id q1); cbn [negb]; [|reflexivity].
  assert (Hup : (opcode q1 =? ns_o_update) = false)
    by (rewrite Ho1; destruct Hop1 as [-> | ->]; reflexivity).
  rewrite Hup, andb_false_r, Hn1, Hn2.
  change (Z.to_nat 1) with 1%nat. cbn [Z.eqb Pos.eqb negb matches_loop].
  rewrite Hs2. cbn [response_question lookup list_lookup].
  unfold contains. rewrite contains_loop_spec.
  fold (question_section Decompressed_labels q1). rewrite Hs1.
  cbn [existsb]. unfold same_question at 1. cbn [type dnsclass name].
  destruct (Z.eqb_spec type1 type2) as [Et|Et]; [|reflexivity].
  destruct Hdiff as [Hname|Htype]; [|contradiction].
  unfold samename_labels, labels_eqb.
  rewrite bool_decide_eq_false_2 by assumption. reflexivity.
Qed.

Lemma spoof_rejected_witness :
  exists q1 q2,
    query_com = Ok q1 /\ query_org = Ok q2 /\
    Query.id q1 = Query.id q2 /\
    matches Decompressed_labels samename_labels q1
            (synth Decompressed_labels q2) = false.
Proof.
  destruct query_com as [q1|what] eqn:E1;
    [|vm_compute in E1; discriminate].
  destruct query_org as [q2|what] eqn:E2;
    [|vm_compute in E2; discriminate].
  exists q1, q2. split; [reflexivity|]. split; [reflexivity|].
  split.
  - vm_compute in E1, E2. injection E1 as <-. injection E2 as <-.
    reflexivity.
  - apply (spoof_rejected udp_capacity advertised 4660 4660 QUERY QUERY
             "example.com" "Example.ORG" 1 1 (Bits.Build 0) (Bits.Build 0)
             None None q1 q2 E1 E2).
    left. vm_compute. discriminate.
Defined.

(** The response to the query itself is accepted, also when the server
    changes the case of the name. *)
Example own_response_matches :
  match query_com with
  | Ok q =>
      matches Decompressed_labels samename_labels q
        (BuildResponse (Query.id q) (opcode q) 1
           (fun i => [BuildQuestion (labels_of_name "EXAMPLE.com") 1 1] !! i))
  | Throw _ => false
  end = true.
Proof. vm_compute. reflexivity. Qed.

End QueryFacts.
(* ===================================================================== *)
(** * Theorems: constructing and testing Ip values                        *)
(* ===================================================================== *)

Module IpOpsFacts.
Import Ip IpFacts Samples.
Local Open Scope Z_scope.

(** X1. operator< on Ip is a strict total order: no address is below
    itself, the order is transitive, and of a < b, a == b, b < a exactly
    one holds; operator== is symmetric and transitive. Ip values can be
    keys of ordered containers. *)
Theorem operators_strict_total_order (a b c : t) :
  wf a -> wf b -> wf c ->
  op_lt a a = false /\ op_eq a a = true /\
  (if op_lt a b && op_lt b c then op_lt a c = true else True) /\
  (if op_eq a b && op_eq b c then op_eq a c = true else True) /\
  op_eq a b = op_eq b a /\ op_gt a b = op_lt b a /\
  op_le a b = negb (op_lt b a) /\ op_ge a b = negb (op_lt a b) /\
  op_ne a b = negb (op_eq a b) /\
  (op_lt a b = true /\ op_eq a b = false /\ op_lt b a = false \/
   op_lt a b = false /\ op_eq a b = true /\ op_lt b a = false \/
   op_lt a b = false /\ op_eq a b = false /\ op_lt b a = true).
Proof.
  intros Ha Hb Hc.
  destruct (compare_spec a b Ha Hb) as (Hab1 & Hab2 & Hab3).
  destruct (compare_spec b a Hb Ha) as (Hba1 & Hba2 & Hba3).
  destruct (compare_spec b c Hb Hc) as (Hbc1 & Hbc2 & Hbc3).
  destruct (compare_spec a c Ha Hc) as (Hac1 & Hac2 & Hac3).
  pose proof (compare_same a) as Haa.
  assert (Hsym : key_eq a b <-> key_eq b a).
  { unfold key_eq. split; intros [H1 H2]; split; congruence. }
  unfold op_lt, op_eq, op_gt, op_le, op_ge, op_ne. rewrite Haa.
  split; [reflexivity|]. split; [reflexivity|].
  split.
  { destruct (Z.ltb_spec (compare a b) 0) as [H1|H1]; [|exact I].
    destruct (Z.ltb_spec (compare b c) 0) as [H2|H2]; [|exact I].
    cbn [andb]. apply Z.ltb_lt, Hac1.
    eapply key_lt_trans; [apply Hab1 | apply Hbc1]; assumption. }
  split.
  { destruct (Z.eqb_spec (compare a b) 0) as [H1|H1]; [|exact I].
    destruct (Z.eqb_spec (compare b c) 0) as [H2|H2]; [|exact I].
    cbn [andb]. apply Z.eqb_eq, Hac2.
    apply Hab2 in H1. apply Hbc2 in H2. unfold key_eq in *.
    destruct H1, H2. split; congruence. }
  assert (Hflip : compare b a < 0 <-> 0 < compare a b) by tauto.
  assert (Hzero : compare b a = 0 <-> compare a b = 0) by tauto.
  destruct (Z.eqb_spec (compare a b) 0), (Z.eqb_spec (compare b a) 0),
    (Z.ltb_spec (compare a b) 0), (Z.ltb_spec (compare b a) 0),
    (Z.gtb_spec (compare a b) 0), (Z.leb_spec (compare a b) 0),
    (Z.geb_spec (compare a b) 0);
    cbn [negb]; try lia;
    repeat split; try reflexivity; try lia; auto 10.
Qed.

Lemma operators_strict_total_order_witness :
  wf (ip4 8 8 4 4) /\ wf (ip4 8 8 8 8) /\ wf ip6_loopback /\
  op_lt (ip4 8 8 4 4) ip6_loopback = true.
Proof.
  split; [reflexivity|]. split; [reflexivity|]. split; [reflexivity|].
  exact (proj1 (proj2 (proj2
           (operators_strict_total_order (ip4 8 8 4 4) (ip4 8 8 8 8)
              ip6_loopback eq_refl eq_refl eq_refl)))).
Defined.

Lemma le_value_four (a b c d : Z) (rest : list Z) :
  le_value (take 4 (a :: b :: c :: d :: rest))
  = a + 256 * (b + 256 * (c + 256 * d)).
Proof. cbn. rewrite take_0. cbn. lia. Qed.

Lemma wf_bytes_four (ip : t) :
  wf_bytes ip ->
  exists a b c d rest,
    _data ip = a :: b :: c :: d :: rest /\ length rest = 12%nat /\
    0 <= a < 256 /\ 0 <= b < 256 /\ 0 <= c < 256 /\ 0 <= d < 256.
Proof.
  intros [Hlen Hall].
  destruct (_data ip) as [|a [|b [|c [|d rest]]]]; cbn in Hlen; try lia.
  apply Forall_cons in Hall as [Ha Hall].
  apply Forall_cons in Hall as [Hb Hall].
  apply Forall_cons in Hall as [Hc Hall].
  apply Forall_cons in Hall as [Hd Hall].
  exists a, b, c, d, rest. repeat split; lia.
Qed.

Lemma version_switch (X : Type) (v : Z) (x y z : X) :
  v <> 4 -> v <> 6 -> match v with 4 => x | 6 => y | _ => z end = z.
Proof.
  intros H4 H6.
  destruct v as [|[[[]|[]|]|[[]|[]|]|]|]; try reflexivity; lia.
Qed.

(** X2. The constructor Ip(size_t version) keeps the low byte of its
    argument: it succeeds exactly when that byte is 4 or 6 (so 260 is
    taken as 4) and throws "invalid ip version" otherwise. The address
    it builds is the any-address: any() holds, operator bool is false
    and loopback() is false. *)
Theorem of_version_any (version : Z) :
  match of_version version with
  | Ok ip =>
      (version mod 256 = 4 \/ version mod 256 = 6) /\
      Ip.version ip = version mod 256 /\
      bytes ip = replicate (size ip) 0 /\
      any ip = true /\ op_not ip = true /\ op_bool ip = false /\
      loopback ip = false
  | Throw what =>
      version mod 256 <> 4 /\ version mod 256 <> 6 /\
      what = "invalid ip version"%string
  end.
Proof.
  unfold of_version. cbv zeta.
  destruct (Z.eqb_spec (version mod 256) 4) as [E4|N4].
  - rewrite E4. cbn [orb]. repeat split; try reflexivity. left; reflexivity.
  - destruct (Z.eqb_spec (version mod 256) 6) as [E6|N6].
    + rewrite E6. cbn [orb]. repeat split; try reflexivity.
      right; reflexivity.
    + cbn [orb]. repeat split; assumption.
Qed.

(** X3. any() holds exactly for the zero address of either family: the
    version is 4 and the four address bytes are zero, or the version is
    6 and the sixteen address bytes are zero. For any other version it
    is false; operator bool is its negation and operator! the same. *)
Theorem any_iff_zero_address (ip : t) :
  wf_bytes ip ->
  (any ip = true <->
   (_version ip = 4 \/ _version ip = 6) /\
   bytes ip = replicate (size ip) 0) /\
  op_bool ip = negb (any ip) /\ op_not ip = any ip.
Proof.
  intros Hwf. split; [|split; reflexivity].
  destruct (wf_bytes_four ip Hwf)
    as (a & b & c & d & rest & Hd & Hrest & Ha & Hb & Hc & Hdd).
  destruct Hwf as [Hlen _].
  unfold any, bytes, size, s_addr, INADDR_ANY.
  destruct (Z.eqb_spec (_version ip) 4) as [V4|N4].
  - rewrite V4, Hd, le_value_four, Z.eqb_eq. cbn [take replicate].
    split.
    + intros H. split; [left; reflexivity|].
      assert (a = 0 /\ b = 0 /\ c = 0 /\ d = 0) as (-> & -> & -> & ->) by lia.
      reflexivity.
    + intros [_ H]. injection H as -> -> -> ->. reflexivity.
  - destruct (Z.eqb_spec (_version ip) 6) as [V6|N6].
    + rewrite V6, Z.eqb_eq.
      destruct (memcmp_spec 16 (_data ip) in6addr_any) as (_ & Heq & _);
        [lia | cbn; lia |].
      rewrite Heq. unfold in6addr_any.
      rewrite (take_ge (replicate 16 0)) by (cbn; lia).
      intuition.
    + rewrite version_switch by assumption. split; [discriminate|].
      intros [[H|H] _]; contradiction.
Qed.

Lemma any_iff_zero_address_witness :
  wf_bytes (ip4 0 0 0 0) /\ op_bool (ip4 0 0 0 0) = negb (any (ip4 0 0 0 0)).
Proof.
  assert (H : wf_bytes (ip4 0 0 0 0)).
  { split; [reflexivity | repeat constructor; lia]. }
  split; [exact H|].
  exact (proj1 (proj2 (any_iff_zero_address (ip4 0 0 0 0) H))).
Defined.

(** X4. loopback() holds for exactly two addresses: the IPv4 address
    with the bytes 127.0.0.1 and the IPv6 address ::1. No other address
    of the network 127.0.0.0/8 is a loopback address to it. *)
Theorem loopback_iff_one_address (ip : t) :
  wf_bytes ip ->
  (loopback ip = true <->
   (_version ip = 4 /\ bytes ip = [127; 0; 0; 1]) \/
   (_version ip = 6 /\ bytes ip = replicate 15 0 ++ [1])) /\
  loopback ip_127_0_0_2 = false.
Proof.
  intros Hwf. split; [|reflexivity].
  destruct (wf_bytes_four ip Hwf)
    as (a & b & c & d & rest & Hd & Hrest & Ha & Hb & Hc & Hdd).
  destruct Hwf as [Hlen _].
  unfold loopback, bytes, size, s_addr.
  change (ntohl INADDR_LOOPBACK) with 16777343.
  destruct (Z.eqb_spec (_version ip) 4) as [V4|N4].
  - rewrite V4, Hd, le_value_four, Z.eqb_eq. cbn [take].
    split.
    + intros H. left. split; [reflexivity|].
      assert (a = 127 /\ b = 0 /\ c = 0 /\ d = 1) as (-> & -> & -> & ->) by lia.
      reflexivity.
    + intros [[_ H]|[H _]]; [|discriminate].
      injection H as -> -> -> ->. reflexivity.
  - destruct (Z.eqb_spec (_version ip) 6) as [V6|N6].
    + rewrite V6, Z.eqb_eq.
      destruct (memcmp_spec 16 (_data ip) in6addr_loopback) as (_ & Heq & _);
        [lia | cbn; lia |].
      rewrite Heq. unfold in6addr_loopback.
      rewrite (take_ge (replicate 15 0 ++ [1])) by (cbn; lia).
      split; [intros H; right; split; [reflexivity | exact H]|].
      intros [[H _]|[_ H]]; [discriminate | exact H].
    + rewrite version_switch by assumption. split; [discriminate|].
      intros [[H _]|[H _]]; contradiction.
Qed.

Lemma loopback_iff_one_address_witness :
  wf_bytes (ip4 127 0 0 1) /\ loopback ip_127_0_0_2 = false.
Proof.
  assert (H : wf_bytes (ip4 127 0 0 1)).
  { split; [reflexivity | repeat constructor; lia]. }
  split; [exact H|].
  exact (proj2 (loopback_iff_one_address (ip4 127 0 0 1) H)).
Defined.

(** X5. Assigning an in_addr to an Ip, of either family and with any
    previous content, gives an IPv4 address that operator== finds equal
    to the Ip constructed from that in_addr, whatever the twelve bytes
    are that the constructor leaves as they were; any() and loopback()
    agree on the two as well. *)
Theorem assign_in_addr_equals_constructed (ip rest : list Z) (this : t) :
  length ip = 4%nat -> wf this ->
  version (assign_in_addr ip this) = 4 /\
  wf (assign_in_addr ip this) /\
  bytes (assign_in_addr ip this) = ip /\
  op_eq (assign_in_addr ip this) (of_in_addr ip rest) = true /\
  any (assign_in_addr ip this) = any (of_in_addr ip rest) /\
  loopback (assign_in_addr ip this) = loopback (of_in_addr ip rest).
Proof.
  intros Hip Hthis. unfold wf in Hthis.
  destruct ip as [|a [|b [|c [|d [|e ip]]]]]; cbn in Hip; try lia.
  unfold assign_in_addr, of_in_addr, version, wf, bytes, size, op_eq,
    compare, any, loopback, s_addr.
  cbn [_version _data take app Z.eqb Pos.eqb negb length].
  rewrite !take_0, length_drop, Hthis. cbn [memcmp].
  rewrite !Z.eqb_refl. repeat split; reflexivity.
Qed.

Lemma assign_in_addr_equals_constructed_witness :
  op_eq (assign_in_addr [8; 8; 4; 4] ip6_loopback)
        (of_in_addr [8; 8; 4; 4] (replicate 12 7)) = true.
Proof.
  exact (proj1 (proj2 (proj2 (proj2
    (assign_in_addr_equals_constructed [8; 8; 4; 4] (replicate 12 7)
       ip6_loopback eq_refl eq_refl))))).
Defined.

End IpOpsFacts.

(* ===================================================================== *)
(** * Theorems: sequences of Bits setters                                 *)
(* ===================================================================== *)

Module BitsOpsFacts.
Import Bits BitsFacts.

Lemma value_inj (a b : t) : _value a = _value b -> a = b.
Proof. destruct a, b. cbn. intros ->. reflexivity. Qed.

Lemma bits_ext (a b : t) :
  (forall n, 0 <= n -> Z.testbit (_value a) n = Z.testbit (_value b) n) ->
  a = b.
Proof. intros H. apply value_inj, Z.bits_inj'. exact H. Qed.

(** X6. Setters of Bits compose as assignments to independent
    variables: two setters of different flags commute, of two setters
    of the same flag the later one wins, and writing back the value a
    getter returned changes nothing. *)
Theorem setters_compose (b : t) (f g : flag) (v w : bool) :
  set f v (set g w b)
  = (if flag_eqb f g then set f v b else set g w (set f v b)) /\
  set f (get f b) b = b.
Proof.
  split.
  - unfold flag_eqb. apply bits_ext. intros n Hn.
    destruct (Z.eqb_spec (bit_index f) (bit_index g)) as [E|E];
      rewrite !testbit_set by assumption.
    + rewrite E. destruct (n =? bit_index g); reflexivity.
    + destruct (Z.eqb_spec n (bit_index f)) as [->|Nf];
        destruct (Z.eqb_spec (bit_index f) (bit_index g)); try contradiction;
        try reflexivity.
  - apply bits_ext. intros n Hn. rewrite testbit_set by assumption.
    destruct (Z.eqb_spec n (bit_index f)) as [->|Nf]; [|reflexivity].
    apply get_testbit.
Qed.

(** X7. A setter changes one bit of the int that holds the flags and
    nothing else: all other bits, also those that are no flag, keep
    their value, the bit of the flag becomes the argument, and the value
    stays in the range of an int, so that no overflow occurs. *)
Theorem setter_changes_one_bit (b : t) (f : flag) (v : bool) :
  is_int (_value b) ->
  is_int (_value (set f v b)) /\
  Z.land (_value (set f v b)) (Z.lnot (2 ^ bit_index f))
  = Z.land (_value b) (Z.lnot (2 ^ bit_index f)) /\
  Z.testbit (_value (set f v b)) (bit_index f) = v.
Proof.
  intros Hint. pose proof (bit_index_nonneg f) as Hf.
  split; [apply set_is_int, Hint|]. split.
  - apply Z.bits_inj'. intros n Hn.
    rewrite !Z.land_spec, testbit_set by assumption.
    rewrite Z.lnot_spec, Z.pow2_bits_eqb by lia.
    rewrite (Z.eqb_sym (bit_index f) n).
    destruct (n =? bit_index f); [|reflexivity].
    cbn [negb]. rewrite !andb_false_r. reflexivity.
  - rewrite testbit_set by assumption. rewrite Z.eqb_refl. reflexivity.
Qed.

Lemma setter_changes_one_bit_witness :
  is_int (-8) /\ is_int (_value (set FlagDO true (Build (-8)))).
Proof.
  assert (H : is_int (_value (Build (-8)))) by (unfold is_int; cbn; lia).
  split; [exact H|].
  exact (proj1 (setter_changes_one_bit (Build (-8)) FlagDO true H)).
Defined.

End BitsOpsFacts.

(* ===================================================================== *)
(** * Theorems: the constructor of ResolvConf and its helpers             *)
(* ===================================================================== *)

Module ResolvConfOpsFacts.
Import CString ResolvConf ResolvConfFacts Samples.
Local Open Scope string_scope.
Local Open Scope Z_scope.

(** ** What the lines of a file leave untouched *)

Lemma option_frame (opt : string) (size : nat) (c : t) :
  _nameservers (option_ opt size c) = _nameservers c /\
  _searchpaths (option_ opt size c) = _searchpaths c.
Proof.
  unfold option_.
  repeat match goal with
         | |- context [if ?b then _ else _] => destruct b
         end; split; reflexivity.
Qed.

Lemma options_loop_frame (line : string) (size fuel : nat) :
  forall (start : nat) (space : option nat) (c : t),
    _nameservers (options_loop line size start space fuel c)
    = _nameservers c /\
    _searchpaths (options_loop line size start space fuel c)
    = _searchpaths c.
Proof.
  induction fuel as [|fuel IH]; intros start space c; cbn [options_loop];
    [split; reflexivity|].
  destruct space as [sp|]; [|apply option_frame].
  destruct (IH (S sp)
              ((fun k => (S sp + k)%nat) <$> strchr (skip (S sp) line) " ")
              (option_ (skip start line) (sp - start) c)) as [H1 H2].
  destruct (option_frame (skip start line) (sp - start) c) as [H3 H4].
  split; congruence.
Qed.

Section Constructor.

Variable Ip_of_string : string -> result Ip.t.
Variable localdomain : string.

(** A line that is no search line leaves the search paths as they are. *)
Lemma parse_keeps_searchpaths (line : string) (size : nat) (c c' : t) :
  check line size "search" = 0%nat ->
  parse Ip_of_string line size c = Ok c' ->
  _searchpaths c' = _searchpaths c.
Proof.
  intros Hs. unfold parse. rewrite Hs.
  destruct (_ || _ || _); [intros H; inversion H; reflexivity|].
  destruct (0 <? check line size "nameserver")%nat.
  { unfold nameserver. destruct (Ip_of_string _); intros H; inversion H.
    reflexivity. }
  destruct (0 <? check line size "options")%nat.
  { intros H; inversion H. apply options_loop_frame. }
  destruct (0 <? check line size "domain")%nat; [discriminate|].
  change (0 <? 0)%nat with false. discriminate.
Qed.

Lemma read_lines_keeps_searchpaths (filename : string) (strict : bool)
    (lines : list string) : forall c c' : t,
  Forall (fun line => forall value,
              ~ keyword_line "search" (trimmed line) value) lines ->
  read_lines Ip_of_string filename strict lines c = Ok c' ->
  _searchpaths c' = _searchpaths c.
Proof.
  induction lines as [|line lines IH]; intros c c' Hall H; cbn in H.
  - inversion H; reflexivity.
  - apply Forall_cons in Hall as [Hline Hall].
    destruct (parse _ _ _ c) as [c1|what] eqn:E.
    + rewrite (IH _ _ Hall H).
      eapply parse_keeps_searchpaths; [|exact E].
      apply check_zero; [reflexivity | reflexivity | exact Hline].
    + destruct strict; [discriminate|]. exact (IH _ _ Hall H).
Qed.

(** In strict mode the loop ends at the first line that raises. *)
Lemma read_lines_strict_throw (filename : string) (lines : list string) :
  forall (c : t) (what : string),
    read_lines Ip_of_string filename true lines c = Throw what ->
    exists before line after c1 msg,
      lines = (before ++ line :: after)%list /\
      read_lines Ip_of_string filename true before c = Ok c1 /\
      parse Ip_of_string (trimmed line) (String.length (trimmed line)) c1
      = Throw msg /\
      what = filename ++ ": " ++ msg.
Proof.
  induction lines as [|line lines IH]; intros c what H; cbn in H;
    [discriminate|].
  destruct (parse _ _ _ c) as [c1|msg] eqn:E.
  - destruct (IH _ _ H) as (before & bad & after & c2 & m & -> & Hb & Hp & ->).
    exists (line :: before), bad, after, c2, m.
    repeat split; try assumption. cbn [read_lines]. rewrite E. exact Hb.
  - inversion H; subst. exists [], line, lines, c, msg. repeat split.
    exact E.
Qed.

Lemma read_lines_lenient_ok (filename : string) (lines : list string) :
  forall c : t,
    is_ok (read_lines Ip_of_string filename false lines c) = true.
Proof.
  induction lines as [|line lines IH]; intros c; cbn; [reflexivity|].
  destruct (parse _ _ _ c); apply IH.
Qed.

Lemma read_lines_strict_lenient (filename : string) (lines : list string) :
  forall c c' : t,
    read_lines Ip_of_string filename true lines c = Ok c' ->
    read_lines Ip_of_string filename false lines c = Ok c'.
Proof.
  induction lines as [|line lines IH]; intros c c' H; cbn in *;
    [exact H|].
  destruct (parse _ _ _ c); [apply IH, H | discriminate].
Qed.

(** The loop over two lists of lines, one after the other. *)
Lemma read_lines_app (filename : string) (strict : bool)
    (before after : list string) : forall c : t,
  read_lines Ip_of_string filename strict (before ++ after) c
  = match read_lines Ip_of_string filename strict before c with
    | Ok c1 => read_lines Ip_of_string filename strict after c1
    | Throw what => Throw what
    end.
Proof.
  induction before as [|line before IH]; intros c; [reflexivity|].
  cbn [app read_lines].
  destruct (parse _ _ _ c); [apply IH|].
  destruct strict; [reflexivity | apply IH].
Qed.

(** X8. The constructor of ResolvConf raises for a file that cannot be
    opened, in either mode, with the file name and ": failed to open
    file". For a file that can be opened it never raises in lenient mode.
    In strict mode it raises exactly when a line fails to parse, and
    then the error is that of the first such line, with the file name
    and ": " in front of it; lines behind that line play no part. *)
Theorem constructor_errors (filename : string) (strict : bool)
    (lines : list string) (what : string) :
  ResolvConf Ip_of_string localdomain filename strict None
  = Throw (filename ++ ": failed to open file") /\
  is_ok (ResolvConf Ip_of_string localdomain filename false (Some lines))
  = true /\
  (ResolvConf Ip_of_string localdomain filename true (Some lines)
   = Throw what
   <->
   exists before line after c msg,
     lines = (before ++ line :: after)%list /\
     read_lines Ip_of_string filename true before initial = Ok c /\
     parse Ip_of_string (trimmed line) (String.length (trimmed line)) c
     = Throw msg /\
     what = filename ++ ": " ++ msg).
Proof.
  split; [reflexivity|]. split.
  - unfold ResolvConf.
    pose proof (read_lines_lenient_ok filename lines initial) as H.
    destruct (read_lines _ _ _ _ _) as [c|w]; [|discriminate].
    repeat match goal with
           | |- context [if ?b then _ else _] => destruct b
           end; reflexivity.
  - unfold ResolvConf. split.
    + destruct (read_lines _ _ _ _ _) as [c|w] eqn:E.
      * repeat match goal with
               | |- context [if ?b then _ else _] => destruct b
               end; discriminate.
      * intros [= <-]. apply read_lines_strict_throw, E.
    + intros (before & line & after & c & msg & -> & Hb & Hp & ->).
      rewrite read_lines_app, Hb. cbn [read_lines]. rewrite Hp.
      reflexivity.
Qed.

(** X9. Strictness changes the errors only: where the constructor
    succeeds in strict mode, it gives the same configuration in lenient
    mode. *)
Theorem strict_success_is_lenient_result (filename : string)
    (file : option (list string)) (c : t) :
  ResolvConf Ip_of_string localdomain filename true file = Ok c ->
  ResolvConf Ip_of_string localdomain filename false file = Ok c.
Proof.
  unfold ResolvConf. destruct file as [lines|]; [|discriminate].
  destruct (read_lines _ _ true _ _) as [c1|what] eqn:E; [|discriminate].
  rewrite (read_lines_strict_lenient _ _ _ _ E). trivial.
Qed.

(** X10. A file without search line gives the local domain as the only
    search path, and no search path when the local domain is the root
    domain (the empty name). *)
Theorem default_search_path (filename : string) (strict : bool)
    (lines : list string) (c : t) :
  Forall (fun line => forall value,
              ~ keyword_line "search" (trimmed line) value) lines ->
  ResolvConf Ip_of_string localdomain filename strict (Some lines) = Ok c ->
  _searchpaths c
  = if (strlen localdomain =? 0)%nat then [] else [c_str localdomain].
Proof.
  intros Hall. unfold ResolvConf.
  destruct (read_lines _ _ _ _ _) as [c1|what] eqn:E; [|discriminate].
  apply read_lines_keeps_searchpaths in E; [|exact Hall].
  cbn [initial _searchpaths] in E. rewrite E. cbn [length Nat.eqb negb].
  destruct (strlen localdomain =? 0)%nat; intros H; inversion H; subst.
  - exact E.
  - reflexivity.
Qed.

End Constructor.

Lemma strict_success_is_lenient_result_witness :
  ResolvConf no_address "" "/etc/resolv.conf" false
    (Some ["options timeout:99 attempts:3"])
  = Ok (set_attempts 3 (set_timeout 30 initial)).
Proof.
  apply (strict_success_is_lenient_result no_address ""
           "/etc/resolv.conf" (Some ["options timeout:99 attempts:3"])).
  reflexivity.
Defined.

Lemma default_search_path_witness :
  _searchpaths (set_searchpaths ["example.org"] (set_ndots 2 initial))
  = ["example.org"].
Proof.
  apply (default_search_path no_address "example.org" "/etc/resolv.conf"
           true ["# resolver"; "options ndots:2"]).
  - repeat constructor; intros value H;
      apply keyword_line_first in H; destruct H as [_ H]; discriminate H.
  - reflexivity.
Defined.

(** X11. check(line, size, word) is positive exactly when the line is
    the word in any case, then white space, then a value; it then is the
    number of bytes in front of the value. *)
Theorem check_iff_keyword_line (kw line : string) :
  lower kw = kw -> strlen kw = String.length kw ->
  ((0 < check line (String.length line) kw)%nat <->
   exists value, keyword_line kw line value) /\
  (forall value, keyword_line kw line value ->
     skip (check line (String.length line) kw) line = value /\
     (String.length line - check line (String.length line) kw)%nat
     = String.length value).
Proof.
  intros Hlow Hlen. split; [split|].
  - apply check_positive; assumption.
  - intros [value Hk]. apply (check_keyword_line kw line value); assumption.
  - intros value Hk. split.
    + apply (check_keyword_line kw line value); assumption.
    + apply keyword_line_size; assumption.
Qed.

Lemma check_iff_keyword_line_witness :
  (0 < check "Search  a.example b.example" 27 "search")%nat <->
  exists value, keyword_line "search" "Search  a.example b.example" value.
Proof.
  exact (proj1 (check_iff_keyword_line "search"
                  "Search  a.example b.example" eq_refl eq_refl)).
Defined.

(** ** Trailing white space *)

Lemma char_at_append_l (a b : string) : forall i : nat,
  (i < String.length a)%nat -> char_at (a ++ b) i = char_at a i.
Proof.
  induction a as [|x a IH]; intros i Hi; cbn [String.length] in Hi; [lia|].
  rewrite append_cons. destruct i as [|i]; cbn [char_at]; [reflexivity|].
  apply IH. lia.
Qed.

Lemma char_at_append_r (a b : string) (i : nat) :
  char_at (a ++ b) (String.length a + i) = char_at b i.
Proof.
  induction a as [|x a IH]; [reflexivity|].
  rewrite append_cons. cbn [String.length Nat.add char_at]. exact IH.
Qed.

Lemma all_space_char_at (w : string) : forall i : nat,
  all_space w = true -> (i < String.length w)%nat ->
  isspace (char_at w i) = true.
Proof.
  induction w as [|x w IH]; intros i Hw Hi; cbn [String.length] in Hi;
    [lia|].
  cbn [all_space] in Hw. apply andb_true_iff in Hw as [Hx Hw].
  destruct i as [|i]; cbn [char_at]; [exact Hx|]. apply IH; [exact Hw | lia].
Qed.

Lemma first_n_append (a b : string) : first_n (String.length a) (a ++ b) = a.
Proof.
  induction a as [|x a IH]; [destruct b; reflexivity|].
  rewrite append_cons. cbn [String.length first_n]. now rewrite IH.
Qed.

Lemma linesize_loop_white (body white : string) :
  all_space white = true -> isspace (last_char body) = false ->
  forall (fuel trim : nat),
    (trim <= String.length white)%nat ->
    (String.length white - trim <= fuel)%nat ->
    linesize_loop (body ++ white) (String.length body + String.length white)
                  trim fuel
    = String.length white.
Proof.
  intros Hw Hb. induction fuel as [|fuel IH]; intros trim Hle Hfuel;
    cbn [linesize_loop]; [lia|].
  destruct (Nat.eq_dec trim (String.length white)) as [->|Hne].
  - destruct body as [|x body].
    + cbn [String.length Nat.add].
      rewrite (proj2 (Nat.ltb_ge _ _)) by lia. reflexivity.
    + replace (String.length (String x body) + String.length white - 1
               - String.length white)%nat
        with (String.length (String x body) - 1)%nat by lia.
      rewrite char_at_append_l by (cbn [String.length]; lia).
      unfold last_char in Hb. rewrite Hb, andb_false_r. reflexivity.
  - replace (String.length body + String.length white - 1 - trim)%nat
      with (String.length body + (String.length white - 1 - trim))%nat by lia.
    rewrite char_at_append_r, all_space_char_at by (assumption || lia).
    rewrite (proj2 (Nat.ltb_lt _ _)) by lia. cbn [andb].
    apply IH; lia.
Qed.

Lemma trimmed_append (body white : string) :
  all_space white = true -> isspace (last_char body) = false ->
  trimmed (body ++ white) = body.
Proof.
  intros Hw Hb. unfold trimmed, linesize. rewrite length_append.
  rewrite linesize_loop_white by (assumption || lia).
  replace (String.length body + String.length white - String.length white)%nat
    with (String.length body) by lia.
  apply first_n_append.
Qed.

Lemma last_char_cons (c d : ascii) (s : string) :
  last_char (String c (String d s)) = last_char (String d s).
Proof.
  unfold last_char. cbn [String.length Nat.sub char_at].
  rewrite !Nat.sub_0_r. reflexivity.
Qed.

Lemma body_white_split (line : string) :
  exists body white,
    line = body ++ white /\ all_space white = true /\
    isspace (last_char body) = false.
Proof.
  induction line as [|c line (body & white & -> & Hw & Hb)].
  - exists "", "". repeat split.
  - destruct body as [|d body].
    + destruct (isspace c) eqn:Ec.
      * exists "", (String c white). repeat split.
        cbn [all_space]. now rewrite Ec, Hw.
      * exists (String c ""), white. repeat split; assumption.
    + exists (String c (String d body)), white. repeat split;
        [assumption | now rewrite last_char_cons].
Qed.

(** X12. Trimming a line, as the constructor does before it parses it,
    cuts trailing white space and nothing else: the line is the trimmed
    line followed by white space only, and the trimmed line does not end
    in white space. Trimming again changes nothing. *)
Theorem trimmed_cuts_trailing_white_space (line : string) :
  (exists white,
      line = trimmed line ++ white /\ all_space white = true) /\
  isspace (last_char (trimmed line)) = false /\
  trimmed (trimmed line) = trimmed line.
Proof.
  destruct (body_white_split line) as (body & white & -> & Hw & Hb).
  rewrite trimmed_append by assumption.
  split; [exists white; split; [reflexivity | exact Hw]|].
  split; [exact Hb|].
  assert (E : body ++ "" = body).
  { clear. induction body as [|x body IH]; [reflexivity|].
    rewrite append_cons, IH. reflexivity. }
  rewrite <- E at 1. apply trimmed_append; [reflexivity | exact Hb].
Qed.

(** ** The words of a search line *)

Lemma first_n_all (a : string) : first_n (String.length a) a = a.
Proof.
  induction a as [|x a IH]; [reflexivity|].
  cbn [String.length first_n]. now rewrite IH.
Qed.

Lemma findwhite_word (word : string) : forall (rest : string) (size : nat),
  no_space word = true -> isspace (char_at rest 0) = true ->
  (String.length word < size)%nat ->
  findwhite (word ++ rest) size = Some (String.length word).
Proof.
  induction word as [|x word IH]; intros rest size Hw Hr Hsize.
  - rewrite append_nil. destruct size as [|size]; [cbn in Hsize; lia|].
    cbn [findwhite]. rewrite Hr. reflexivity.
  - cbn [no_space] in Hw. apply andb_true_iff in Hw as [Hx Hw].
    apply negb_true_iff in Hx. cbn [String.length] in Hsize.
    destruct size as [|size]; [lia|].
    rewrite append_cons. cbn [findwhite char_at skip]. rewrite Hx.
    rewrite IH by (assumption || lia). reflexivity.
Qed.

Lemma findwhite_none (word : string) : forall size : nat,
  no_space word = true -> (size <= String.length word)%nat ->
  findwhite word size = None.
Proof.
  induction word as [|x word IH]; intros size Hw Hsize.
  - cbn [String.length] in Hsize. destruct size; [reflexivity | lia].
  - cbn [no_space] in Hw. apply andb_true_iff in Hw as [Hx Hw].
    apply negb_true_iff in Hx. cbn [String.length] in Hsize.
    destruct size as [|size]; [reflexivity|].
    cbn [findwhite char_at skip]. rewrite Hx.
    rewrite IH by (assumption || lia). reflexivity.
Qed.

Lemma is_word_first (word rest : string) :
  is_word word = true -> isspace (char_at (word ++ rest) 0) = false.
Proof.
  unfold is_word. destruct word as [|x word]; [discriminate|].
  cbn [nonempty no_space andb]. intros H.
  apply andb_true_iff in H as [Hx _]. apply negb_true_iff in Hx.
  rewrite append_cons. exact Hx.
Qed.

Lemma is_gap_first (gap rest : string) :
  is_gap gap = true -> isspace (char_at (gap ++ rest) 0) = true.
Proof.
  unfold is_gap. destruct gap as [|x gap]; [discriminate|].
  cbn [nonempty all_space andb]. intros H.
  apply andb_true_iff in H as [Hx _]. rewrite append_cons. exact Hx.
Qed.

Lemma spaced_first (items : list (string * string)) (last : string) :
  Forall (fun item => is_word (fst item) = true /\ is_gap (snd item) = true)
         items ->
  is_word last = true ->
  isspace (char_at (spaced items last) 0) = false.
Proof.
  intros Hitems Hlast. destruct items as [|[word gap] items].
  - cbn [spaced]. rewrite <- (is_word_first last "" Hlast).
    f_equal. f_equal. clear. induction last as [|x a IH]; [reflexivity|].
    rewrite append_cons, <- IH. reflexivity.
  - apply Forall_cons in Hitems as [[Hw _] _]. cbn [spaced fst] in *.
    apply is_word_first, Hw.
Qed.

Lemma search_loop_spaced (items : list (string * string)) (last : string) :
  Forall (fun item => is_word (fst item) = true /\ is_gap (snd item) = true)
         items ->
  is_word last = true ->
  forall (fuel : nat) (paths : list string),
    (String.length (spaced items last) < fuel)%nat ->
    search_loop (spaced items last) (String.length (spaced items last))
                fuel paths
    = (paths ++ List.map fst items ++ [last])%list.
Proof.
  intros Hitems Hlast.
  induction items as [|[word gap] items IH]; intros fuel paths Hfuel;
    (destruct fuel as [|fuel]; [lia|]); cbn [spaced] in *;
    cbn [search_loop].
  - assert (Hw := Hlast). unfold is_word in Hw.
    apply andb_true_iff in Hw as [Hne Hns].
    destruct last as [|x last]; [discriminate|].
    cbn [String.length Nat.eqb].
    rewrite (findwhite_none (String x last)) by (assumption || reflexivity).
    change (S (String.length last)) with (String.length (String x last)).
    rewrite first_n_all. reflexivity.
  - apply Forall_cons in Hitems as [[Hw Hg] Hitems]. cbn [fst snd] in Hw, Hg.
    specialize (IH Hitems).
    pose proof (spaced_first items last Hitems Hlast) as Hfirst.
    set (R := spaced items last) in *.
    assert (Hwl : (0 < String.length word)%nat).
    { unfold is_word in Hw. destruct word; [discriminate | cbn; lia]. }
    assert (Hgl : (0 < String.length gap)%nat).
    { unfold is_gap in Hg. destruct gap; [discriminate | cbn; lia]. }
    assert (Hws : no_space word = true).
    { unfold is_word in Hw. now apply andb_true_iff in Hw as [_ Hw]. }
    assert (Hgs : all_space gap = true).
    { unfold is_gap in Hg. now apply andb_true_iff in Hg as [_ Hg]. }
    rewrite !length_append in *.
    rewrite (proj2 (Nat.eqb_neq _ 0)) by lia.
    rewrite findwhite_word
      by first [assumption | apply is_gap_first, Hg | lia].
    rewrite first_n_append, skip_append.
    replace (String.length word + (String.length gap + String.length R)
             - String.length word)%nat
      with (String.length (gap ++ R)) by (rewrite length_append; lia).
    rewrite whitesize_run by assumption.
    rewrite skip_append, length_append.
    replace (String.length gap + String.length R - String.length gap)%nat
      with (String.length R) by lia.
    rewrite IH by lia. cbn [List.map fst].
    rewrite <- !app_assoc. reflexivity.
Qed.

(** X13. A search line replaces the search paths by the words of its
    value: for words without white space that runs of white space (one
    or more spaces or tabs) separate, the new search paths are those
    words in their order, whatever the paths were before; no other
    setting changes. *)
Theorem search_splits_at_white_space (items : list (string * string))
    (last : string) (c : t) :
  Forall (fun item => is_word (fst item) = true /\ is_gap (snd item) = true)
         items ->
  is_word last = true ->
  search (spaced items last) (String.length (spaced items last)) c
  = set_searchpaths (List.map fst items ++ [last]) c.
Proof.
  intros Hitems Hlast. unfold search.
  rewrite search_loop_spaced by (assumption || lia). reflexivity.
Qed.

Lemma search_splits_at_white_space_witness :
  search "a.example   b.example" 21 (set_searchpaths ["old.example"] initial)
  = set_searchpaths ["a.example"; "b.example"]
      (set_searchpaths ["old.example"] initial).
Proof.
  apply (search_splits_at_white_space [("a.example", "   ")] "b.example").
  - repeat constructor.
  - reflexivity.
Defined.

(** ** The tokens of an options line *)

Lemma skip_add (a b : nat) : forall s : string,
  skip (a + b) s = skip b (skip a s).
Proof.
  induction a as [|a IH]; intros s; [reflexivity|].
  destruct s as [|x s]; cbn [Nat.add skip]; [destruct b; reflexivity|].
  apply IH.
Qed.

Lemma plain_cons (x : ascii) (tok : string) :
  plain (String x tok) = true ->
  Ascii.eqb x " " = false /\ Ascii.eqb x NUL = false /\ plain tok = true.
Proof.
  cbn [plain]. intros H. apply andb_true_iff in H as [H H3].
  apply andb_true_iff in H as [H1 H2].
  apply negb_true_iff in H1, H2. auto.
Qed.

Lemma strchr_plain (tok : string) (rest : string) :
  plain tok = true ->
  strchr (tok ++ String " " rest) " " = Some (String.length tok).
Proof.
  induction tok as [|x tok IH]; intros Hp; [reflexivity|].
  apply plain_cons in Hp as (H1 & H2 & H3).
  rewrite append_cons. cbn [strchr String.length]. rewrite H1, H2.
  rewrite IH by assumption. reflexivity.
Qed.

Lemma strchr_plain_none (tok : string) :
  plain tok = true -> strchr tok " " = None.
Proof.
  induction tok as [|x tok IH]; intros Hp; [reflexivity|].
  apply plain_cons in Hp as (H1 & H2 & H3).
  cbn [strchr]. rewrite H1, H2, IH by assumption. reflexivity.
Qed.

Lemma c_str_plain (tok : string) : plain tok = true -> c_str tok = tok.
Proof.
  induction tok as [|x tok IH]; intros Hp; [reflexivity|].
  apply plain_cons in Hp as (H1 & H2 & H3).
  cbn [c_str]. rewrite H2, IH by assumption. reflexivity.
Qed.

Lemma plain_c_str_space (tok rest : string) :
  plain tok = true -> plain (c_str (tok ++ String " " rest)) = false.
Proof.
  induction tok as [|x tok IH]; intros Hp; [reflexivity|].
  apply plain_cons in Hp as (H1 & H2 & H3).
  rewrite append_cons. cbn [c_str]. rewrite H2. cbn [plain].
  rewrite IH by assumption. apply andb_false_r.
Qed.

Lemma strncmp_S (s1 s2 : string) (n : nat) :
  strncmp s1 s2 (S n)
  = if negb (Ascii.eqb (char_at s1 0) (char_at s2 0))
    then code (char_at s1 0) - code (char_at s2 0)
    else if Ascii.eqb (char_at s1 0) NUL then 0
    else strncmp (skip 1 s1) (skip 1 s2) n.
Proof. reflexivity. Qed.

(** Comparing one byte more than the word has compares the whole C
    string with it. *)
Lemma strncmp_whole (kw : string) :
  plain kw = true ->
  forall s : string,
    strncmp s kw (S (String.length kw)) = 0 <-> c_str s = kw.
Proof.
  induction kw as [|k kw IH]; intros Hp s.
  - cbn [String.length strncmp char_at].
    destruct s as [|x s]; cbn [char_at c_str]; [tauto|].
    destruct (Ascii.eqb_spec x NUL) as [->|Hx]; cbn [negb]; [tauto|].
    split; [|discriminate]. intros H. exfalso. apply Hx, code_inj.
    change (code NUL) with 0 in *. lia.
  - apply plain_cons in Hp as (_ & Hk & Hp). specialize (IH Hp).
    apply Ascii.eqb_neq in Hk.
    cbn [String.length]. rewrite strncmp_S.
    destruct s as [|x s]; cbn [char_at c_str skip].
    + destruct (Ascii.eqb_spec NUL k) as [E|_]; [congruence|]. cbn [negb].
      split; [|discriminate]. intros H. exfalso. apply Hk. symmetry.
      apply code_inj. lia.
    + destruct (Ascii.eqb_spec x k) as [->|Hx]; cbn [negb].
      * destruct (Ascii.eqb_spec k NUL) as [E|_]; [congruence|].
        rewrite IH. split; [intros ->; reflexivity | intros [= H]; exact H].
      * split.
        -- intros H. exfalso. apply Hx, code_inj. lia.
        -- destruct (Ascii.eqb x NUL); [discriminate|].
           intros [= H _]. contradiction.
Qed.

Lemma length_join_cons (tok next : string) (rest : list string) :
  String.length (join (tok :: next :: rest))
  = (String.length tok + 1 + String.length (join (next :: rest)))%nat.
Proof.
  change (join (tok :: next :: rest))
    with (tok ++ " " ++ join (next :: rest)).
  rewrite !length_append. cbn [String.length]. lia.
Qed.

(** The loop of [options] calls [option] once for every token. *)
Lemma options_loop_tokens (line : string) (size : nat) :
  forall (rem : list string) (fuel start : nat) (c : t),
    Forall (fun tok => plain tok = true) rem ->
    skip start line = join rem ->
    (size - start)%nat = String.length (join rem) ->
    (String.length (join rem) < fuel)%nat ->
    options_loop line size start
      ((fun k => (start + k)%nat) <$> strchr (join rem) " ") fuel c
    = option_calls rem c.
Proof.
  induction rem as [|tok rem IH]; intros fuel start c Hp Hskip Hsize Hfuel;
    (destruct fuel as [|fuel]; [lia|]).
  - cbn [join strchr fmap option_map option_fmap options_loop option_calls].
    cbn [join String.length] in Hsize. rewrite Hskip, Hsize. reflexivity.
  - apply Forall_cons in Hp as [Htok Hp].
    destruct rem as [|next rest].
    + cbn [join] in *. rewrite strchr_plain_none by assumption.
      cbn [fmap option_map option_fmap options_loop option_calls join].
      rewrite Hskip, Hsize. reflexivity.
    + rewrite length_join_cons in Hsize, Hfuel.
      change (join (tok :: next :: rest))
        with (tok ++ String " " (join (next :: rest))) in *.
      rewrite strchr_plain by assumption.
      cbn [fmap option_map option_fmap options_loop].
      assert (Hnext : skip (S (start + String.length tok)) line
                      = join (next :: rest)).
      { replace (S (start + String.length tok))
          with (start + (String.length tok + 1))%nat by lia.
        rewrite skip_add, Hskip, skip_add, skip_append. reflexivity. }
      rewrite Hnext, Hskip.
      replace (start + String.length tok - start)%nat
        with (String.length tok) by lia.
      rewrite IH; [reflexivity | assumption | assumption | lia | lia].
Qed.

Lemma options_tokens (tokens : list string) (c : t) :
  Forall (fun tok => plain tok = true) tokens ->
  options (join tokens) (String.length (join tokens)) c
  = option_calls tokens c.
Proof.
  intros Hp. unfold options.
  rewrite <- (options_loop_tokens (join tokens)
                (String.length (join tokens)) tokens
                (S (String.length (join tokens))) 0 c);
    [| assumption | reflexivity | lia | lia].
  destruct (strchr (join tokens) " "); reflexivity.
Qed.

Lemma option_rotate (opt : string) (size : nat) (c : t) :
  _rotate (option_ opt size c)
  = _rotate c || (negb (size =? 0)%nat && (strncmp opt "rotate" 7 =? 0)).
Proof.
  unfold option_. destruct (size =? 0)%nat; cbn [negb andb];
    [now rewrite orb_false_r|].
  destruct (strncmp opt "rotate" 7 =? 0); [now rewrite orb_true_r|].
  rewrite orb_false_r.
  repeat match goal with
         | |- context [if ?b then _ else _] => destruct b
         end; reflexivity.
Qed.

Lemma strncmp_rotate_eqb (s : string) :
  (strncmp s "rotate" 7 =? 0) = String.eqb (c_str s) "rotate".
Proof.
  pose proof (strncmp_whole "rotate" eq_refl s) as H.
  change (S (String.length "rotate")) with 7%nat in H.
  destruct (Z.eqb_spec (strncmp s "rotate" 7) 0) as [E|E];
    destruct (String.eqb_spec (c_str s) "rotate") as [E'|E'];
    tauto.
Qed.

Lemma option_calls_rotate (tokens : list string) :
  Forall (fun tok => plain tok = true) tokens ->
  forall c : t,
    _rotate (option_calls tokens c)
    = _rotate c || match last tokens with
                   | Some tok => String.eqb tok "rotate"
                   | None => false
                   end.
Proof.
  induction tokens as [|tok rem IH]; intros Hp c.
  - cbn. now rewrite orb_false_r.
  - apply Forall_cons in Hp as [Htok Hp]. cbn [option_calls].
    rewrite (IH Hp), option_rotate, strncmp_rotate_eqb.
    destruct rem as [|next rest].
    + cbn [join last]. rewrite c_str_plain, orb_false_r by assumption.
      destruct tok as [|x tok]; [reflexivity|]. reflexivity.
    + change (join (tok :: next :: rest))
        with (tok ++ String " " (join (next :: rest))).
      change (last (tok :: next :: rest)) with (last (next :: rest)).
      destruct (String.eqb_spec
                  (c_str (tok ++ String " " (join (next :: rest)))) "rotate")
        as [E|_].
      * pose proof (plain_c_str_space tok (join (next :: rest)) Htok) as H.
        rewrite E in H. discriminate H.
      * rewrite andb_false_r, orb_false_r. reflexivity.
Qed.

(** X14. On an options line whose tokens one space separates, rotate
    takes effect exactly as the last token: the rotate setting after the
    line is what it was before, or true if the last token is rotate. A
    rotate token that another token follows is ignored. *)
Theorem rotate_only_as_last_option (tokens : list string) (c : t) :
  Forall (fun tok => plain tok = true) tokens ->
  _rotate (options (join tokens) (String.length (join tokens)) c)
  = _rotate c || match last tokens with
                 | Some tok => String.eqb tok "rotate"
                 | None => false
                 end.
Proof.
  intros Hp. rewrite options_tokens by assumption.
  apply option_calls_rotate, Hp.
Qed.

Lemma rotate_only_as_last_option_witness :
  _rotate (options "rotate ndots:2 rotate edns0" 27 initial) = false.
Proof.
  apply (rotate_only_as_last_option
           ["rotate"; "ndots:2"; "rotate"; "edns0"] initial).
  repeat constructor.
Defined.

(** ** Options with a number *)














(** ** Blank and indented lines *)

Lemma all_space_append (a b : string) :
  all_space (a ++ b) = all_space a && all_space b.
Proof.
  induction a as [|x a IH]; [reflexivity|].
  rewrite append_cons. cbn [all_space]. rewrite IH. apply andb_assoc.
Qed.

Lemma parse_indented (Ip_of_string : string -> result Ip.t) (line : string)
    (c : t) :
  isspace (char_at line 0) = true ->
  parse Ip_of_string line (String.length line) c
  = Throw ("unrecognized: " ++ c_str line).
Proof.
  intros Hsp. destruct line as [|x line]; [discriminate Hsp|].
  cbn [char_at] in Hsp. unfold parse. cbn [String.length Nat.eqb char_at orb].
  destruct x as [[] [] [] [] [] [] [] []]; try discriminate Hsp;
    cbv zeta;
    repeat (rewrite check_other_letter by (try (vm_compute; lia); reflexivity);
            change (0 <? 0)%nat with false; cbv iota);
    reflexivity.
Qed.

(** X24. A line of white space only is skipped, as the empty line is. A
    line that starts with white space and holds something else is no
    keyword line, whatever follows the white space: in strict mode the
    constructor fails on it with "unrecognized: " and the line without
    its trailing white space, in lenient mode the line has no effect. *)
Theorem blank_and_indented_lines (Ip_of_string : string -> result Ip.t)
    (filename : string) (strict : bool) (line : string)
    (rest : list string) (c : t) :
  isspace (char_at line 0) = true \/ line = "" ->
  read_lines Ip_of_string filename strict (line :: rest) c
  = if all_space line || negb strict
    then read_lines Ip_of_string filename strict rest c
    else Throw (filename ++ ": unrecognized: " ++ c_str (trimmed line)).
Proof.
  intros Hline. cbn [read_lines].
  destruct (body_white_split line) as (body & white & Hsplit & Hw & Hb).
  pose proof (trimmed_append body white Hw Hb) as Htrim.
  rewrite <- Hsplit in Htrim. rewrite Htrim.
  assert (Hall : all_space line = all_space body).
  { rewrite Hsplit, all_space_append, Hw. apply andb_true_r. }
  rewrite Hall. destruct body as [|x body].
  - reflexivity.
  - assert (Hx : isspace x = true).
    { destruct Hline as [Hsp| ->]; [|discriminate Hsplit].
      rewrite Hsplit, append_cons in Hsp. exact Hsp. }
    rewrite parse_indented by exact Hx.
    assert (Hns : all_space (String x body) = false).
    { destruct (all_space (String x body)) eqn:E; [|reflexivity].
      exfalso. unfold last_char in Hb.
      rewrite all_space_char_at in Hb
        by (assumption || (cbn [String.length]; lia)).
      discriminate Hb. }
    rewrite Hns. destruct strict; reflexivity.
Qed.

Lemma blank_and_indented_lines_witness :
  read_lines no_address "/etc/resolv.conf" true
    ["  nameserver 8.8.8.8  "] initial
  = Throw "/etc/resolv.conf: unrecognized:   nameserver 8.8.8.8".
Proof.
  apply (blank_and_indented_lines no_address "/etc/resolv.conf" true
           "  nameserver 8.8.8.8  " [] initial).
  left. reflexivity.
Defined.



End ResolvConfOpsFacts.

(* ===================================================================== *)
(** * Theorems: the message of a constructed query                        *)
(* ===================================================================== *)

Module QueryOpsFacts.
Import CString Query Matching Layout MatchingFacts BufferFacts QueryFacts.
Import Samples.
Local Open Scope Z_scope.

Lemma placed_buffer (hdr body behind : list Z) :
  length hdr = 12%nat ->
  length (_buffer (placed hdr body behind))
  = (12 + length body + length behind)%nat /\
  drop (_size (placed hdr body behind)) (_buffer (placed hdr body behind))
  = behind.
Proof.
  intros Hhdr. unfold placed. cbn [_buffer _size]. split.
  - rewrite !length_app. lia.
  - rewrite app_assoc. apply drop_app_length'. rewrite length_app. lia.
Qed.

Lemma data_record_extra (op : Z) (data : option string) (room : nat)
    (extra behind : list Z) :
  data_record op data room = Some (extra, behind) ->
  extra = if has_data op data then null_record else [].
Proof.
  rewrite has_data_name. unfold data_record.
  destruct (data_name op data) as [name|].
  - rewrite bool_decide_eq_true_2 by eauto.
    destruct (encode_name name); [|discriminate].
    destruct (_ && _); [|discriminate]. now intros [= <- _].
  - rewrite bool_decide_eq_false_2 by (intros [x Hx]; discriminate).
    now intros [= <- _].
Qed.

(** X16. The bytes of a constructed query are, in this order: the twelve
    bytes of the header (id, opcode and RD, AD and CD, one question, the
    number of additional records), the question (encoded name, type,
    class IN), for a NOTIFY with data the ten bytes of a NULL record
    without owner name, and the OPT record where eleven bytes were left
    for it. The size of the query is the number of these bytes. Behind
    them the buffer is zero, except after a NOTIFY with data: there it
    holds the bytes of the encoded data name that the records did not
    overwrite. *)
Theorem wire_format (capacity : nat) (EDNSPacketSize rid op : Z)
    (dname : string) (type : Z) (bits : Bits.t) (data : option string)
    (q : Query.t) :
  Query capacity EDNSPacketSize rid op dname type bits data = Ok q ->
  exists wire extra behind,
    encode_name dname = Some wire /\
    data_record op data (capacity - (12 + length (question_bytes wire type)))
    = Some (extra, behind) /\
    extra = (if has_data op data then null_record else []) /\
    let fits := (11 <=? length behind)%nat in
    written q
    = header_bytes rid op bits 1 (Z.b2z (has_data op data) + Z.b2z fits)
      ++ question_bytes wire type ++ extra
      ++ (if fits then opt_bytes EDNSPacketSize (Bits.dnssec bits) else [])
    /\ _size q = length (written q)
    /\ (_size q <= capacity)%nat
    /\ length (_buffer q) = capacity
    /\ drop (_size q) (_buffer q) = (if fits then drop 11 behind else behind).
Proof.
  intros H.
  destruct (constructed_exact _ _ _ _ _ _ _ _ _ H)
    as (_ & _ & wire & extra & behind & Hw & Hfit & Hd & ->).
  exists wire, extra, behind. split; [exact Hw|]. split; [exact Hd|].
  split; [exact (data_record_extra _ _ _ _ _ Hd)|]. cbv zeta.
  pose proof (length_data_record _ _ _ _ _ Hd) as Hlen.
  assert (Hhdr : forall n, length (header_bytes rid op bits 1 n) = 12%nat)
    by reflexivity.
  rewrite written_placed by apply Hhdr.
  destruct (placed_buffer
              (header_bytes rid op bits 1
                 (Z.b2z (has_data op data)
                  + Z.b2z (11 <=? length behind)%nat))
              (question_bytes wire type ++ extra ++
               (if (11 <=? length behind)%nat
                then opt_bytes EDNSPacketSize (Bits.dnssec bits) else []))
              (if (11 <=? length behind)%nat then drop 11 behind
               else behind) (Hhdr _)) as [Hbuf Hdrop].
  assert (Hsum : (12 + length (question_bytes wire type ++ extra ++
                    (if (11 <=? length behind)%nat
                     then opt_bytes EDNSPacketSize (Bits.dnssec bits)
                     else []))
                  + length (if (11 <=? length behind)%nat
                            then drop 11 behind else behind))%nat
                 = capacity).
  { rewrite !length_app.
    destruct (Nat.leb_spec 11 (length behind));
      [change (length (opt_bytes EDNSPacketSize (Bits.dnssec bits)))
         with 11%nat; rewrite length_drop
      | cbn [length]]; lia. }
  split; [reflexivity|].
  split; [unfold placed; cbn [_size];
          rewrite (length_app (header_bytes _ _ _ _ _)), Hhdr; reflexivity|].
  split; [unfold placed; cbn [_size]; lia|].
  split; [rewrite Hbuf; exact Hsum | exact Hdrop].
Qed.

Lemma wire_format_witness :
  exists q wire extra behind,
    notify_net = Ok q /\
    encode_name "example.com" = Some wire /\
    data_record NS_NOTIFY_OP (Some "example.net"%string)
      (udp_capacity - (12 + length (question_bytes wire 6)))
    = Some (extra, behind) /\
    extra = null_record /\
    length (written q) = 50%nat.
Proof.
  destruct notify_net as [q|what] eqn:E; [|vm_compute in E; discriminate].
  destruct (wire_format udp_capacity advertised 4660 NS_NOTIFY_OP
              "example.com" 6 (Bits.Build 0) (Some "example.net"%string) q E)
    as (wire & extra & behind & Hw & Hd & He & Hwritten & Hsize & _).
  exists q, wire, extra, behind. split; [reflexivity|].
  split; [exact Hw|]. split; [exact Hd|]. split; [exact He|].
  rewrite <- Hsize. vm_compute in E. injection E as <-. reflexivity.
Defined.

(** X17. What the accessors of a constructed query return: opcode() is
    the opcode it was made with, questions() is 1, the one question of
    the section has the labels of the name, the type, and class IN; and
    id() is the generated id with its two bytes exchanged, because the
    constructor stores it without htons() and id() reads it with
    ntohs(). *)
Theorem accessors_of_constructed_query (capacity : nat)
    (EDNSPacketSize rid op : Z) (dname : string) (type : Z) (bits : Bits.t)
    (data : option string) (q : Query.t) :
  Query capacity EDNSPacketSize rid op dname type bits data = Ok q ->
  Query.id q = (rid mod 256) * 256 + (rid / 256) mod 256 /\
  opcode q = op /\
  questions q = 1 /\
  question_section Decompressed_labels q
  = [BuildQuestion (labels_of_name dname) type ns_c_in].
Proof.
  intros H.
  destruct (constructed_question _ _ _ _ _ _ _ _ _ H)
    as (Hsection & Hcount & Hop & _).
  destruct (constructed_shape _ _ _ _ _ _ _ _ _ H)
    as (_ & _ & wire & tail & behind & records & _ & ->).
  split; [|repeat split; assumption].
  rewrite id_placed by reflexivity. reflexivity.
Qed.

Lemma accessors_of_constructed_query_witness :
  exists q, query_com = Ok q /\ Query.id q = 13330 /\ opcode q = QUERY.
Proof.
  destruct query_com as [q|what] eqn:E; [|vm_compute in E; discriminate].
  exists q. split; [reflexivity|].
  destruct (accessors_of_constructed_query udp_capacity advertised 4660
              QUERY "example.com" 1 (Bits.Build 0) None q E)
    as (Hid & Hop & _).
  split; [exact Hid | exact Hop].
Defined.

(** X18. Without data of a NOTIFY, the counts of the header match the
    body of every constructed query: the bytes behind the header decode,
    with nothing left over, into the one question and as many additional
    records as arcount says. Where eleven bytes were left behind the
    question that is the OPT record alone; where they were not, there is
    no additional record. *)
Theorem counts_match_body (capacity : nat) (EDNSPacketSize rid op : Z)
    (dname : string) (type : Z) (bits : Bits.t) (data : option string)
    (q : Query.t) :
  Query capacity EDNSPacketSize rid op dname type bits data = Ok q ->
  has_data op data = false ->
  exists wire rs,
    encode_name dname = Some wire /\
    sections q
    = Some ([BuildQuestion (labels_of_name dname) type ns_c_in], rs) /\
    questions q = 1 /\
    arcount q = Z.of_nat (length rs) /\
    if (12 + length wire + 4 + 11 <=? capacity)%nat
    then exists r, rs = [r] /\
                   is_opt EDNSPacketSize (Bits.dnssec bits) r = true
    else rs = [].
Proof.
  intros H Hdata.
  destruct (sections_without_data _ _ _ _ _ _ _ _ _ H Hdata)
    as (wire & rs & Hrest).
  exists wire, rs. exact Hrest.
Qed.

Lemma counts_match_body_witness :
  exists q rs,
    query_com = Ok q /\
    sections q
    = Some ([BuildQuestion (labels_of_name "example.com") 1 ns_c_in], rs) /\
    arcount q = Z.of_nat (length rs).
Proof.
  destruct query_com as [q|what] eqn:E; [|vm_compute in E; discriminate].
  destruct (counts_match_body udp_capacity advertised 4660 QUERY
              "example.com" 1 (Bits.Build 0) None q E eq_refl)
    as (wire & rs & _ & Hs & _ & Har & _).
  exists q, rs. split; [reflexivity|]. split; [exact Hs | exact Har].
Defined.

(** ** A buffer with room for the fixed parts of every message *)

Lemma Query_throws_name (capacity : nat) (EDNSPacketSize rid op : Z)
    (dname : string) (type : Z) (bits : Bits.t) (data : option string) :
  (12 <= capacity)%nat ->
  (type <? 0) || (65535 <? type) = false ->
  negb ((op =? NS_NOTIFY_OP) || (op =? QUERY)) = false ->
  encode_name dname = None ->
  Query capacity EDNSPacketSize rid op dname type bits data
  = Throw "failed domain name compression".
Proof.
  intros Hcap Htype Hop Hw. unfold Query. rewrite Htype, Hop.
  assert (Hop' : op = NS_NOTIFY_OP \/ op = QUERY).
  { destruct (Z.eqb_spec op NS_NOTIFY_OP); [tauto|].
    destruct (Z.eqb_spec op QUERY); [tauto | discriminate]. }
  rewrite header_setup by assumption.
  rewrite add_name_layout by (reflexivity || (cbn [length]; lia)).
  rewrite Hw. reflexivity.
Qed.

Lemma Query_throws_data (capacity : nat) (EDNSPacketSize rid op : Z)
    (dname : string) (type : Z) (bits : Bits.t) (data : option string)
    (wire : list Z) (name : string) :
  (292 <= capacity)%nat ->
  (type <? 0) || (65535 <? type) = false ->
  negb ((op =? NS_NOTIFY_OP) || (op =? QUERY)) = false ->
  encode_name dname = Some wire ->
  data_name op data = Some name ->
  Compressor_add name (capacity - (16 + length wire)) = None ->
  Query capacity EDNSPacketSize rid op dname type bits data
  = Throw "failed data name compression".
Proof.
  intros Hcap Htype Hop Hw Hname Hnone. unfold Query. rewrite Htype, Hop.
  assert (Hop' : op = NS_NOTIFY_OP \/ op = QUERY).
  { destruct (Z.eqb_spec op NS_NOTIFY_OP); [tauto|].
    destruct (Z.eqb_spec op QUERY); [tauto | discriminate]. }
  pose proof (encode_name_length _ _ Hw) as Hlen.
  rewrite header_setup by (assumption || lia).
  set (hdr := header_bytes rid op bits 0 0).
  assert (Hhdr : length hdr = 12%nat) by reflexivity.
  rewrite add_name_layout by (assumption || (cbn [length]; lia)).
  rewrite Hw. cbn [length app].
  rewrite (proj2 (Nat.leb_le _ _)) by lia. cbn [bind].
  rewrite put16_layout by assumption.
  rewrite (proj2 (Nat.ltb_ge _ _)) by lia. cbn [bind].
  rewrite put16_layout by assumption.
  rewrite (proj2 (Nat.ltb_ge _ _)) by (rewrite length_app, length_be16; lia).
  cbn [bind]. cbv zeta. unfold set_qdcount.
  rewrite set_header_layout by (assumption || (cbn; lia)).
  unfold add_data. unfold data_name in Hname.
  destruct (op =? QUERY); [discriminate|]. subst data.
  rewrite remaining_layout, !length_app, !length_be16.
  replace (capacity - (12 + (length wire + 2 + 2)))%nat
    with (capacity - (16 + length wire))%nat by lia.
  rewrite Hnone. reflexivity.
Qed.

(** X19. In a buffer of 292 bytes or more, so in one of 512, the
    constructor fails for four reasons only, which it checks in this
    order: a type outside 0..65535 ("invalid type passed to dns query"),
    an opcode other than QUERY and NOTIFY ("invalid dns operation"), a
    name without encoding ("failed domain name compression"), and data
    of a NOTIFY whose name has no encoding or does not fit behind the
    question ("failed data name compression"). Every query that it
    constructs ends with the OPT record; without data of a NOTIFY its
    counts are right and the OPT record is its last additional record,
    with such data its body does not decode. *)
Theorem outcome_with_room_for_opt (capacity : nat)
    (EDNSPacketSize rid op : Z) (dname : string) (type : Z) (bits : Bits.t)
    (data : option string) :
  (292 <= capacity)%nat ->
  match Query capacity EDNSPacketSize rid op dname type bits data with
  | Ok q =>
      0 <= type <= 65535 /\ (op = NS_NOTIFY_OP \/ op = QUERY) /\
      is_Some (encode_name dname) /\
      arcount q = Z.b2z (has_data op data) + 1 /\
      drop (length (written q) - 11) (written q)
      = opt_bytes EDNSPacketSize (Bits.dnssec bits) /\
      if has_data op data then sections q = None
      else invariant EDNSPacketSize (Bits.dnssec bits) q
  | Throw what =>
      if (type <? 0) || (65535 <? type)
      then what = "invalid type passed to dns query"%string
      else if negb ((op =? NS_NOTIFY_OP) || (op =? QUERY))
      then what = "invalid dns operation"%string
      else match encode_name dname with
           | None => what = "failed domain name compression"%string
           | Some wire =>
               what = "failed data name compression"%string /\
               exists name,
                 data_name op data = Some name /\
                 match encode_name name with
                 | None => True
                 | Some dwire =>
                     (capacity < 16 + length wire + length dwire)%nat
                 end
           end
  end.
Proof.
  intros Hcap.
  destruct (Query capacity EDNSPacketSize rid op dname type bits data)
    as [q|what] eqn:E.
  - destruct (constructed_exact _ _ _ _ _ _ _ _ _ E)
      as (Htype & Hop & wire & extra & behind & Hw & Hfit & Hd & Hq).
    pose proof (encode_name_length _ _ Hw) as Hwlen.
    pose proof (length_data_record _ _ _ _ _ Hd) as Hlen.
    pose proof (data_record_extra _ _ _ _ _ Hd) as Hextra.
    rewrite length_question_bytes in Hfit, Hlen.
    assert (Hfits : (11 <=? length behind)%nat = true).
    { apply Nat.leb_le. rewrite Hextra in Hlen.
      destruct (has_data op data);
        [change (length null_record) with 10%nat in Hlen
        | cbn [length] in Hlen]; lia. }
    rewrite Hfits in Hq.
    split; [assumption|]. split; [assumption|]. split; [eauto|].
    split; [|split].
    + subst q. rewrite arcount_placed by reflexivity.
      destruct (has_data op data); reflexivity.
    + subst q. rewrite written_placed by reflexivity.
      rewrite !app_assoc.
      rewrite length_app.
      change (length (opt_bytes EDNSPacketSize (Bits.dnssec bits)))
        with 11%nat.
      rewrite Nat.add_sub. apply drop_app_length.
    + destruct (has_data op data) eqn:Hdata.
      * destruct (sections_with_data _ _ _ _ _ _ _ _ _ E Hdata)
          as (w & _ & _ & _ & _ & Hs). exact Hs.
      * apply (invariant_without_data capacity _ rid op dname type bits data);
          [lia | assumption | assumption].
  - destruct ((type <? 0) || (65535 <? type)) eqn:Htype.
    { unfold Query in E. rewrite Htype in E. congruence. }
    destruct (negb ((op =? NS_NOTIFY_OP) || (op =? QUERY))) eqn:Hop.
    { unfold Query in E. rewrite Htype, Hop in E. congruence. }
    destruct (encode_name dname) as [wire|] eqn:Hw.
    2:{ rewrite Query_throws_name in E by (assumption || lia). congruence. }
    pose proof (encode_name_length _ _ Hw) as Hwlen.
    assert (Hno : ~ is_Some (expected capacity EDNSPacketSize rid op dname
                               type bits data)).
    { intros [q Hq]. apply Query_ok_expected in Hq. congruence. }
    rewrite expected_conditions in Hno.
    assert (Ht : 0 <= type <= 65535).
    { apply orb_false_iff in Htype as [H1 H2].
      apply Z.ltb_ge in H1, H2. lia. }
    assert (Ho : op = QUERY \/ op = NS_NOTIFY_OP).
    { apply negb_false_iff, orb_true_iff in Hop.
      destruct Hop as [H|H]; apply Z.eqb_eq in H; tauto. }
    destruct (data_name op data) as [name|] eqn:Hname.
    2:{ exfalso. apply Hno. split; [exact Ht|]. split; [exact Ho|].
        exists wire. rewrite ?Hname. split; [exact Hw|]. split; [lia | exact I]. }
    assert (Hadd : Compressor_add name (capacity - (16 + length wire)) = None
                   /\ match encode_name name with
                      | None => True
                      | Some dwire =>
                          (capacity < 16 + length wire + length dwire)%nat
                      end).
    { unfold Compressor_add.
      destruct (encode_name name) as [dwire|] eqn:Hd; [|split; trivial].
      destruct (Nat.leb_spec (length dwire) (capacity - (16 + length wire)))
        as [Hfit|Hfit]; [|split; [reflexivity | lia]].
      exfalso. apply Hno. split; [exact Ht|]. split; [exact Ho|].
      exists wire. rewrite ?Hname. split; [exact Hw|]. split; [lia|].
      exists dwire. split; [first [exact Hd | reflexivity]|]. split; lia. }
    destruct Hadd as [Hadd Hwhy].
    rewrite (Query_throws_data _ _ _ _ _ _ _ _ wire name) in E
      by assumption.
    split; [congruence|]. exists name. split; [reflexivity | exact Hwhy].
Qed.

Lemma outcome_with_room_for_opt_witness :
  Query udp_capacity advertised 7 NS_NOTIFY_OP "example.com" 1
        (Bits.Build 0) (Some "bad..name"%string)
  = Throw "failed data name compression".
Proof.
  pose proof (outcome_with_room_for_opt udp_capacity advertised 7
                NS_NOTIFY_OP "example.com" 1 (Bits.Build 0)
                (Some "bad..name"%string)) as H.
  destruct (Query udp_capacity advertised 7 NS_NOTIFY_OP "example.com" 1
              (Bits.Build 0) (Some "bad..name"%string)) as [q|what] eqn:E;
    [vm_compute in E; discriminate|].
  f_equal. apply H. unfold udp_capacity. lia.
Defined.

(** ** The response to a query *)

(** X20. A constructed query accepts the response to itself: a response
    with the id of the query and one question that has the type of the
    query, class IN, and the name of the query in any case matches,
    whatever its opcode; so does the response that is made of the
    question section of the query. *)
Theorem own_response_accepted (capacity : nat) (EDNSPacketSize rid op : Z)
    (dname : string) (type : Z) (bits : Bits.t) (data : option string)
    (q : Query.t) (answered : list (list Z)) (ropcode : Z) :
  Query capacity EDNSPacketSize rid op dname type bits data = Ok q ->
  name_key answered = name_key (labels_of_name dname) ->
  matches Decompressed_labels samename_labels q
    (BuildResponse (Query.id q) ropcode 1
       (fun i => [BuildQuestion answered type ns_c_in] !! i)) = true /\
  matches Decompressed_labels samename_labels q
    (synth Decompressed_labels q) = true.
Proof.
  intros H Hname.
  destruct (constructed_question _ _ _ _ _ _ _ _ _ H)
    as (Hsection & Hcount & Hop & _).
  assert (Hsame : forall labels,
             name_key labels = name_key (labels_of_name dname) ->
             same_question samename_labels
               (BuildQuestion (labels_of_name dname) type ns_c_in)
               (BuildQuestion labels type ns_c_in) = true).
  { intros labels Hl. unfold same_question. cbn [Matching.type dnsclass name].
    rewrite !Z.eqb_refl. unfold samename_labels, labels_eqb.
    rewrite bool_decide_eq_true_2 by congruence. reflexivity. }
  split; apply matches_spec; unfold synth;
    cbn [response_id response_opcode response_questions response_question];
    (split; [reflexivity|]); right; rewrite Hcount;
    (split; [reflexivity|]);
    change (Z.to_nat 1) with 1%nat; cbn [seq];
    repeat constructor; unfold occurs_in;
    cbn [response_question]; rewrite Hsection.
  - exists (BuildQuestion answered type ns_c_in). split; [reflexivity|].
    eexists. split; [left; reflexivity|]. apply Hsame, Hname.
  - exists (BuildQuestion (labels_of_name dname) type ns_c_in).
    split; [reflexivity|].
    eexists. split; [left; reflexivity|]. apply Hsame. reflexivity.
Qed.

Lemma own_response_accepted_witness :
  exists q,
    query_com = Ok q /\
    matches Decompressed_labels samename_labels q
      (BuildResponse (Query.id q) QUERY 1
         (fun i => [BuildQuestion (labels_of_name "EXAMPLE.Com") 1 ns_c_in]
                     !! i)) = true.
Proof.
  destruct query_com as [q|what] eqn:E; [|vm_compute in E; discriminate].
  exists q. split; [reflexivity|].
  apply (own_response_accepted udp_capacity advertised 4660 QUERY
           "example.com" 1 (Bits.Build 0) None q
           (labels_of_name "EXAMPLE.Com") QUERY E).
  vm_compute. reflexivity.
Defined.

(** X23. contains() of a constructed query is true for exactly the
    questions with the type of the query, class IN, and a name that is
    the name of the query when case is ignored. *)
Theorem contains_of_constructed_query (capacity : nat)
    (EDNSPacketSize rid op : Z) (dname : string) (type : Z) (bits : Bits.t)
    (data : option string) (q : Query.t)
    (record : Question (list (list Z))) :
  Query capacity EDNSPacketSize rid op dname type bits data = Ok q ->
  contains Decompressed_labels samename_labels q record
  = (type =? Matching.type record) && (ns_c_in =? dnsclass record)
    && labels_eqb (name_key (labels_of_name dname))
                  (name_key (name record)).
Proof.
  intros H.
  destruct (constructed_question _ _ _ _ _ _ _ _ _ H) as (Hsection & _).
  unfold contains. rewrite contains_loop_spec.
  fold (question_section Decompressed_labels q). rewrite Hsection.
  cbn [existsb]. rewrite orb_false_r.
  unfold same_question, samename_labels. cbn [Matching.type dnsclass name].
  destruct (labels_eqb _ _); reflexivity.
Qed.

Lemma contains_of_constructed_query_witness :
  exists q,
    query_com = Ok q /\
    contains Decompressed_labels samename_labels q
      (BuildQuestion (labels_of_name "Example.COM") 1 ns_c_in) = true.
Proof.
  destruct query_com as [q|what] eqn:E; [|vm_compute in E; discriminate].
  exists q. split; [reflexivity|].
  rewrite (contains_of_constructed_query udp_capacity advertised 4660 QUERY
             "example.com" 1 (Bits.Build 0) None q _ E).
  vm_compute. reflexivity.
Defined.

End QueryOpsFacts.

(* ===================================================================== *)
(** * Theorems: the record types of the lookup program                    *)
(* ===================================================================== *)

Module LookupFacts.
Import CString Lookup ResolvConfFacts.
Local Open Scope string_scope.
Local Open Scope Z_scope.

Lemma strncasecmp_S (s1 s2 : string) (n : nat) :
  strncasecmp s1 s2 (S n)
  = if negb (Ascii.eqb (tolower (char_at s1 0)) (tolower (char_at s2 0)))
    then code (tolower (char_at s1 0)) - code (tolower (char_at s2 0))
    else if Ascii.eqb (tolower (char_at s1 0)) NUL then 0
    else strncasecmp (skip 1 s1) (skip 1 s2) n.
Proof. reflexivity. Qed.

Lemma tolower_NUL (x : ascii) : tolower x = NUL <-> x = NUL.
Proof.
  destruct x as [[] [] [] [] [] [] [] []]; split; intros H;
    try reflexivity; discriminate H.
Qed.

(** [strcasecmp] with a word in lower case is zero exactly on the texts
    that are the word up to case. *)
Lemma strcasecmp_zero (kw : string) :
  ResolvConf.lower kw = kw -> strlen kw = String.length kw ->
  forall s : string,
    strcasecmp s kw = 0 <-> ResolvConf.lower (c_str s) = kw.
Proof.
  unfold strcasecmp.
  induction kw as [|k kw IH]; intros Hlow Hlen s.
  - change (strlen "") with 0%nat. rewrite strncasecmp_S.
    cbn [char_at]. change (tolower NUL) with NUL.
    destruct s as [|x s]; cbn [char_at c_str ResolvConf.lower].
    + change (tolower NUL) with NUL. cbn. tauto.
    + destruct (Ascii.eqb_spec (tolower x) NUL) as [E|E]; cbn [negb].
      * apply (proj1 (tolower_NUL x)) in E. subst x. cbn. tauto.
      * destruct (Ascii.eqb_spec x NUL) as [->|Hx];
          [exfalso; apply E; reflexivity|].
        cbn [ResolvConf.lower]. split; [|discriminate].
        intros H. exfalso. apply E, code_inj.
        change (code NUL) with 0 in *. lia.
  - pose proof Hlen as Hlen'.
    apply strlen_cons in Hlen' as [Hk Hlen'].
    cbn [ResolvConf.lower] in Hlow. injection Hlow as Hk' Hlow.
    specialize (IH Hlow Hlen').
    rewrite Hlen. cbn [String.length]. rewrite <- Hlen'.
    rewrite strncasecmp_S. cbn [char_at skip]. rewrite Hk'.
    destruct s as [|x s]; cbn [char_at skip c_str ResolvConf.lower].
    + change (tolower NUL) with NUL.
      destruct (Ascii.eqb_spec NUL k) as [E|E]; [congruence|]. cbn [negb].
      split; [|discriminate]. intros H. exfalso. apply E, code_inj. lia.
    + destruct (Ascii.eqb_spec (tolower x) k) as [E|E]; cbn [negb].
      * assert (Hx : x <> NUL).
        { intros ->. apply Hk. rewrite <- E. reflexivity. }
        destruct (Ascii.eqb_spec (tolower x) NUL) as [E0|_];
          [apply (proj1 (tolower_NUL x)) in E0; contradiction|].
        destruct (Ascii.eqb_spec x NUL) as [|_]; [contradiction|].
        cbn [ResolvConf.lower]. rewrite IH, E.
        split; [intros ->; reflexivity | intros [= H]; exact H].
      * split.
        -- intros H. exfalso. apply E, code_inj. lia.
        -- destruct (Ascii.eqb x NUL); [discriminate|].
           cbn [ResolvConf.lower]. intros [= H _]. contradiction.
Qed.

Lemma strcasecmp_eqb (kw s : string) :
  ResolvConf.lower kw = kw -> strlen kw = String.length kw ->
  (strcasecmp s kw =? 0) = String.eqb (ResolvConf.lower (c_str s)) kw.
Proof.
  intros Hlow Hlen. pose proof (strcasecmp_zero kw Hlow Hlen s) as H.
  destruct (Z.eqb_spec (strcasecmp s kw) 0);
    destruct (String.eqb_spec (ResolvConf.lower (c_str s)) kw); tauto.
Qed.

(** X21. convert() of the lookup program knows eight record types by
    name: a, aaaa, mx, txt, cname, ptr, caa and ns. It compares the
    whole name without regard to case, returns the number of the type,
    and throws "unknown record type " with the text it was given for
    every other text. Every number that it returns is in the range
    0..65535 that the constructor of a query accepts. *)
Theorem convert_by_name (type : string) :
  convert type
  = match number_of (ResolvConf.lower (c_str type)) record_types with
    | Some t => Ok t
    | None => Throw ("unknown record type " ++ c_str type)
    end /\
  match convert type with
  | Ok t => (t <? 0) || (65535 <? t) = false
  | Throw _ => True
  end.
Proof.
  assert (H : convert type
              = match number_of (ResolvConf.lower (c_str type)) record_types
                with
                | Some t => Ok t
                | None => Throw ("unknown record type " ++ c_str type)
                end).
  { unfold convert, record_types. cbn [number_of].
    rewrite !strcasecmp_eqb by reflexivity.
    repeat match goal with
           | |- context [String.eqb ?a ?b] => destruct (String.eqb a b)
           end; reflexivity. }
  split; [exact H|]. rewrite H. unfold record_types. cbn [number_of].
  repeat match goal with
         | |- context [String.eqb ?a ?b] => destruct (String.eqb a b)
         end; try reflexivity; exact I.
Qed.

End LookupFacts.

